(** * Blooming Beauty POS: the caching proxy and the client data layer

    A shallow embedding of [static/service-worker.js] (module [SW]) and of
    the data layer of the [POSSystem] class of [static/script.js]
    (module [POS]), with the properties of the design document proved
    about them.

    Conventions of the embedding.
    - An [async] function is a function from the state before to the
      state after; the network is an argument that answers each request
      (a rejected promise is [None] or [Rejected]).  Where a property
      is about the moment between issuing a request and its completion
      ([loadProducts]) the function is split at its first [await].
    - A text is the string of its UTF-8 bytes.  Every character the
      code compares with or inserts is ASCII, so the bytes of other
      characters pass through untouched; [trim] alone knows characters
      of more than one byte, the white space that is not ASCII.
    - Numbers read from form fields are binary64 floats ([PrimFloat]),
      which is what a JavaScript number is; counters that only ever hold
      lengths of arrays and their sums are [nat]. *)

From Stdlib Require Import String Ascii List Bool Arith ZArith Lia Floats.
Import ListNotations.

Open Scope string_scope.
Open Scope list_scope.

(** * Strings *)

(** [s.startsWith(p)] *)
Fixpoint startsWith (s p : string) {struct p} : bool :=
  match p with
  | EmptyString => true
  | String a p' =>
      match s with
      | EmptyString => false
      | String b s' => Ascii.eqb a b && startsWith s' p'
      end
  end.

(** The double quote character. *)
Definition dquote : ascii := ascii_of_nat 34.

(** Writes a text that contains double quotes with single quotes. *)
Fixpoint with_dquotes (s : string) : string :=
  match s with
  | EmptyString => EmptyString
  | String c s' =>
      String (if Ascii.eqb c "'"%char then dquote else c) (with_dquotes s')
  end.

(** * JSON.stringify on strings

    [QuoteJSONString] of ECMA-262 on byte strings: the quote, the
    backslash and the control characters are escaped, everything else is
    copied. *)

Definition hex_digit (n : nat) : ascii :=
  if (n <? 10)%nat then ascii_of_nat (48 + n) else ascii_of_nat (87 + n).

Definition json_escape_char (c : ascii) : string :=
  let n := nat_of_ascii c in
  if (n =? 8)%nat then "\b"
  else if (n =? 9)%nat then "\t"
  else if (n =? 10)%nat then "\n"
  else if (n =? 12)%nat then "\f"
  else if (n =? 13)%nat then "\r"
  else if (n =? 34)%nat then String "\"%char (String dquote EmptyString)
  else if (n =? 92)%nat then "\\"
  else if (n <? 32)%nat then
    "\u00" ++ String (hex_digit (n / 16)) (String (hex_digit (n mod 16)) EmptyString)
  else String c EmptyString.

Fixpoint json_escape (s : string) : string :=
  match s with
  | EmptyString => EmptyString
  | String c s' => json_escape_char c ++ json_escape s'
  end.

Definition QuoteJSONString (s : string) : string :=
  String dquote (json_escape s ++ String dquote EmptyString).

(** * The caching proxy: static/service-worker.js *)

Module SW.

Definition SW_VERSION : string := "bbs-pwa-v3".
Definition STATIC_CACHE : string := SW_VERSION ++ "-static".
Definition RUNTIME_CACHE : string := SW_VERSION ++ "-runtime".
Definition OFFLINE_URL : string := "/offline".
Definition PRECACHE_URLS : list string :=
  [ "/";
    OFFLINE_URL;
    "/static/style.css";
    "/static/script.js";
    "/manifest.webmanifest";
    "/static/icons/pwa-icon-192.png";
    "/static/icons/pwa-icon-512.png";
    "/static/icons/apple-touch-icon-180.png" ].

(** ** Requests and responses *)

(** [new URL(request.url)]: the parts of a URL the worker looks at.  The
    fragment is left out: the cache ignores it. *)
Record URL := mkURL {
  origin : string;
  pathname : string;
  search : string
}.

Definition url_eqb (a b : URL) : bool :=
  (origin a =? origin b) && (pathname a =? pathname b) && (search a =? search b).

Record Request := mkRequest {
  method : string;
  mode : string;
  url : URL
}.

Record Response := mkResponse {
  status : Z;
  type : string;
  contentType : option string;
  body : string
}.

(** [Response.error()] *)
Definition Response_error : Response :=
  {| status := 0; type := "error"; contentType := None; body := "" |}.

(** [response.ok] *)
Definition ok (r : Response) : bool :=
  ((200 <=? status r) && (status r <=? 299))%Z.

(** [fetch(request)]: [None] when the promise rejects. *)
Definition Network := Request -> option Response.

(** ** Cache and CacheStorage

    A cache keeps its entries in insertion order, and the storage keeps
    its caches in creation order: [caches.match] asks them in that
    order.  All requests that reach a cache are GET requests and no
    response is taken to carry a [Vary] header, so an entry is found by
    its URL. *)

Definition Cache := list (URL * Response).
Definition CacheStorage := list (string * Cache).

(** [cache.match(request)] *)
Definition cache_match (c : Cache) (u : URL) : option Response :=
  match find (fun e => url_eqb (fst e) u) c with
  | Some e => Some (snd e)
  | None => None
  end.

(** [cache.put(request, response)]: the entry replaces the one of the
    same request. *)
Definition cache_put (c : Cache) (u : URL) (r : Response) : Cache :=
  filter (fun e => negb (url_eqb (fst e) u)) c ++ [(u, r)].

(** [caches.keys()] *)
Definition caches_keys (cs : CacheStorage) : list string := map fst cs.

(** [caches.has(name)] *)
Definition caches_has (cs : CacheStorage) (name : string) : bool :=
  existsb (fun e => fst e =? name) cs.

(** The cache of that name, if there is one. *)
Definition caches_lookup (cs : CacheStorage) (name : string) : option Cache :=
  match find (fun e => fst e =? name) cs with
  | Some e => Some (snd e)
  | None => None
  end.

(** [caches.open(name)] creates the cache when it does not exist.  The
    handle it returns is the name: the operations on the handle below
    act on the storage. *)
Definition caches_open (cs : CacheStorage) (name : string) : CacheStorage :=
  if caches_has cs name then cs else cs ++ [(name, [])].

(** [caches.delete(name)] *)
Definition caches_delete (cs : CacheStorage) (name : string) : CacheStorage :=
  filter (fun e => negb (fst e =? name)) cs.

(** [cache.match(request)] on the handle of [name] *)
Definition handle_match (cs : CacheStorage) (name : string) (u : URL)
  : option Response :=
  match caches_lookup cs name with
  | Some c => cache_match c u
  | None => None
  end.

(** [cache.put(request, response)] on the handle of [name] *)
Definition handle_put (cs : CacheStorage) (name : string) (u : URL) (r : Response)
  : CacheStorage :=
  map (fun e => if fst e =? name then (fst e, cache_put (snd e) u r) else e) cs.

(** [caches.match(request)]: the first hit over all caches. *)
Fixpoint caches_match (cs : CacheStorage) (u : URL) : option Response :=
  match cs with
  | [] => None
  | (_, c) :: rest =>
      match cache_match c u with
      | Some r => Some r
      | None => caches_match rest u
      end
  end.

(** The entries of a partition, none when it does not exist. *)
Definition entries (cs : CacheStorage) (name : string) : Cache :=
  match caches_lookup cs name with
  | Some c => c
  | None => []
  end.

Section Worker.

(** [self.location.origin] *)
Variable self_origin : string.

(** A path given to [caches.match] or [cache.addAll] is resolved against
    the worker's own location. *)
Definition local_url (path : string) : URL :=
  {| origin := self_origin; pathname := path; search := "" |}.

(** ** install

    [cache.addAll] fetches every URL and rejects when one fetch rejects
    or is answered with a status that is not OK or is 206; it writes
    only when all have been answered. *)

Fixpoint fetch_all (net : Network) (paths : list string)
  : option (list (URL * Response)) :=
  match paths with
  | [] => Some []
  | p :: rest =>
      match net {| method := "GET"; mode := "cors"; url := local_url p |} with
      | Some r =>
          if ok r && negb (status r =? 206)%Z then
            match fetch_all net rest with
            | Some l => Some ((local_url p, r) :: l)
            | None => None
            end
          else None
      | None => None
      end
  end.

(** The install listener; [false] when [cache.addAll] rejects, and then
    the worker is not installed.  The static cache has been opened by
    then, and nothing has been put into it. *)
Definition install (cs : CacheStorage) (net : Network)
  : CacheStorage * bool :=
  let cs0 := caches_open cs STATIC_CACHE in
  match fetch_all net PRECACHE_URLS with
  | Some l =>
      (fold_left (fun acc e => handle_put acc STATIC_CACHE (fst e) (snd e)) l cs0,
       true)
  | None => (cs0, false)
  end.

(** ** activate *)

Definition activate (cs : CacheStorage) : CacheStorage :=
  fold_left caches_delete
    (filter (fun cacheName =>
               negb (cacheName =? STATIC_CACHE) && negb (cacheName =? RUNTIME_CACHE))
            (caches_keys cs))
    cs.

(** ** The fetch strategies *)

(** A [Response] object is never falsy, so [!response] is false. *)
Definition cacheSuccessResponse (cs : CacheStorage) (cacheName : string)
    (request : Request) (response : Response) : CacheStorage * Response :=
  if negb (status response =? 200)%Z || (type response =? "error") then
    (cs, response)
  else
    let cs1 := caches_open cs cacheName in
    (handle_put cs1 cacheName (url request) response, response).

(** The storage returned is the one after the refresh in the background
    has settled. *)
Definition staleWhileRevalidate (cs : CacheStorage) (net : Network)
    (request : Request) : CacheStorage * Response :=
  let cs0 := caches_open cs STATIC_CACHE in
  let cachedResponse := handle_match cs0 STATIC_CACHE (url request) in
  let '(cs1, networkResponse) :=
    match net request with
    | Some response =>
        let '(cs', r) := cacheSuccessResponse cs0 STATIC_CACHE request response in
        (cs', Some r)
    | None => (cs0, None)
    end in
  match cachedResponse with
  | Some c => (cs1, c)
  | None =>
      match networkResponse with
      | Some r => (cs1, r)
      | None => (cs1, Response_error)
      end
  end.

(** The last fallback may find nothing, and then the function returns
    [undefined]. *)
Definition networkFirst (cs : CacheStorage) (net : Network)
    (request : Request) : CacheStorage * option Response :=
  match net request with
  | Some networkResponse =>
      let '(cs', r) := cacheSuccessResponse cs RUNTIME_CACHE request networkResponse in
      (cs', Some r)
  | None =>
      let cs0 := caches_open cs RUNTIME_CACHE in
      match handle_match cs0 RUNTIME_CACHE (url request) with
      | Some cachedResponse => (cs0, Some cachedResponse)
      | None => (cs0, caches_match cs0 (local_url OFFLINE_URL))
      end
  end.

Definition navigationHandler (cs : CacheStorage) (net : Network)
    (request : Request) : CacheStorage * Response :=
  match net request with
  | Some networkResponse =>
      let '(cs', _) := cacheSuccessResponse cs RUNTIME_CACHE request networkResponse in
      (cs', networkResponse)
  | None =>
      match caches_match cs (url request) with
      | Some cachedPage => (cs, cachedPage)
      | None =>
          match caches_match cs (local_url "/") with
          | Some homeFromCache => (cs, homeFromCache)
          | None =>
              match caches_match cs (local_url OFFLINE_URL) with
              | Some offlinePage => (cs, offlinePage)
              | None => (cs, Response_error)
              end
          end
      end
  end.

(** [JSON.stringify({ success: false, message })] *)
Definition stringify_offline (message : string) : string :=
  "{" ++ QuoteJSONString "success" ++ ":false,"
      ++ QuoteJSONString "message" ++ ":" ++ QuoteJSONString message ++ "}".

Definition offlineJsonResponse (message : string) : Response :=
  {| status := 503;
     type := "default";
     contentType := Some "application/json";
     body := stringify_offline message |}.

(** ** The fetch listener *)

(** What the listener did with the event: left it to the browser, or
    answered it ([respondWith] of a promise of [undefined] is [None]). *)
Inductive Disposition :=
| PassThrough
| RespondWith (r : option Response).

Definition onfetch (cs : CacheStorage) (net : Network) (request : Request)
  : CacheStorage * Disposition :=
  if negb (method request =? "GET") then (cs, PassThrough)
  else if negb (origin (url request) =? self_origin) then (cs, PassThrough)
  else if mode request =? "navigate" then
    let '(cs', r) := navigationHandler cs net request in
    (cs', RespondWith (Some r))
  else if startsWith (pathname (url request)) "/api/" then
    (cs, RespondWith (Some
           match net request with
           | Some r => r
           | None => offlineJsonResponse "You are offline right now."
           end))
  else if startsWith (pathname (url request)) "/static/"
          || (pathname (url request) =? "/manifest.webmanifest") then
    let '(cs', r) := staleWhileRevalidate cs net request in
    (cs', RespondWith (Some r))
  else
    let '(cs', r) := networkFirst cs net request in
    (cs', RespondWith r).

End Worker.

End SW.

(** * The client data layer: static/script.js *)

(** ** [s.trim()]

    [trim] removes the white space of the language from both ends:
    [WhiteSpace] and [LineTerminator] of ECMA-262, which are U+0009 to
    U+000D, U+0020, U+00A0, U+1680, U+2000 to U+200A, U+2028, U+2029,
    U+202F, U+205F, U+3000 and U+FEFF.  In UTF-8 these are the
    following sequences of one, two and three bytes. *)

(** U+0020 and U+0009 to U+000D. *)
Definition is_space (c : ascii) : bool :=
  let n := nat_of_ascii c in
  ((n =? 32) || ((9 <=? n) && (n <=? 13)))%nat.

(** U+00A0 is C2 A0. *)
Definition is_space2 (c d : ascii) : bool :=
  ((nat_of_ascii c =? 194) && (nat_of_ascii d =? 160))%nat.

(** U+1680 is E1 9A 80; U+2000 to U+200A are E2 80 80 to E2 80 8A;
    U+2028, U+2029 and U+202F are E2 80 A8, E2 80 A9 and E2 80 AF;
    U+205F is E2 81 9F; U+3000 is E3 80 80; U+FEFF is EF BB BF. *)
Definition is_space3 (c d e : ascii) : bool :=
  let a := nat_of_ascii c in
  let b := nat_of_ascii d in
  let n := nat_of_ascii e in
  (((a =? 225) && (b =? 154) && (n =? 128))
   || ((a =? 226) && (b =? 128)
       && (((128 <=? n) && (n <=? 138)) || (n =? 168) || (n =? 169)
           || (n =? 175)))
   || ((a =? 226) && (b =? 129) && (n =? 159))
   || ((a =? 227) && (b =? 128) && (n =? 128))
   || ((a =? 239) && (b =? 187) && (n =? 191)))%nat.

(** The text without the white space it starts with. *)
Fixpoint trimStart (s : string) : string :=
  match s with
  | EmptyString => EmptyString
  | String c s1 =>
      if is_space c then trimStart s1
      else
        match s1 with
        | EmptyString => s
        | String d s2 =>
            if is_space2 c d then trimStart s2
            else
              match s2 with
              | EmptyString => s
              | String e s3 => if is_space3 c d e then trimStart s3 else s
              end
        end
  end.

(** The text without the white space it ends with: the bytes up to the
    point from which only white space follows. *)
Fixpoint trimEnd (s : string) : string :=
  match s with
  | EmptyString => EmptyString
  | String c s' =>
      if trimStart s =? "" then "" else String c (trimEnd s')
  end.

Definition trim (s : string) : string := trimEnd (trimStart s).

(** [s.split(c)] for a one-character separator. *)
Fixpoint split_on (c : ascii) (s : string) : list string :=
  match s with
  | EmptyString => [EmptyString]
  | String a s' =>
      if Ascii.eqb a c then EmptyString :: split_on c s'
      else
        match split_on c s' with
        | h :: t => String a h :: t
        | [] => [String a EmptyString]
        end
  end.

(** [l.slice(-n)] *)
Definition slice_last {A : Type} (n : nat) (l : list A) : list A :=
  skipn (length l - n) l.

(** [x || 0] on a number: [NaN], [0] and [-0] are falsy. *)
Definition or_zero (x : float) : float :=
  if PrimFloat.is_nan x || PrimFloat.eqb x 0%float then 0%float else x.

(** [Math.max(a, b)] *)
Definition Math_max (a b : float) : float :=
  if PrimFloat.is_nan a || PrimFloat.is_nan b then PrimFloat.nan
  else if PrimFloat.ltb a b then b
  else if PrimFloat.ltb b a then a
  else if PrimFloat.is_zero a && PrimFloat.get_sign a then b
  else a.

(** [Math.abs(x)] *)
Definition Math_abs (x : float) : float := PrimFloat.abs x.

(** The outcome of [fetch] followed by [response.json()]: the promise of
    [fetch] rejects, or it resolves to a response with its [ok] flag and
    a body that parses ([Some]) or does not ([None], and then
    [response.json()] rejects). *)
Inductive Outcome (T : Type) : Type :=
| Rejected
| Resolved (ok : bool) (json : option T).

Arguments Rejected {T}.
Arguments Resolved {T} ok json.

Module POS.

Set Implicit Arguments.

(** ** escapeHtml *)

(** A JavaScript value as [String(value ?? '')] sees it: [null] and
    [undefined], or a value with its conversion to a string. *)
Inductive Value :=
| Nullish
| Text (str : string).

Definition String_of (value : Value) : string :=
  match value with
  | Nullish => ""
  | Text s => s
  end.

(** [s.replace(/c/g, by)] for a one-character pattern. *)
Fixpoint replace_all (c : ascii) (by_ : string) (s : string) : string :=
  match s with
  | EmptyString => EmptyString
  | String a s' =>
      if Ascii.eqb a c then by_ ++ replace_all c by_ s'
      else String a (replace_all c by_ s')
  end.

Definition escapeHtml (value : Value) : string :=
  replace_all "'"%char "&#39;"
    (replace_all dquote "&quot;"
       (replace_all ">"%char "&gt;"
          (replace_all "<"%char "&lt;"
             (replace_all "&"%char "&amp;" (String_of value))))).

(** [getProductPageSize], from [window.innerWidth]. *)
Definition getProductPageSize (width : Z) : nat :=
  if (width <=? 460)%Z then 8
  else if (width <=? 760)%Z then 12
  else if (width <=? 1180)%Z then 16
  else 24.

(** ** What the page reads of a cart line

    A cart line is a JSON value of the server.  [updateCartCount] and
    [renderCart] read properties of each line, which throws for the
    line [null] and for no other JSON value.  [renderCart] adds
    [item.total_price] of each line to a sum that starts as the number
    [0] and calls [toFixed] on the sum afterwards: the sum stays a
    number while numbers, booleans, [null] and [undefined] are added,
    and becomes a string, which has no [toFixed], once a string, an
    object or an array is added.  Nothing else that the two functions
    do with a line can throw. *)
Inductive JSKind :=
| KUndefined
| KNull
| KBoolean
| KNumber
| KString
| KObject.   (* objects and arrays *)

(** [0 + x] is a number. *)
Definition adds_as_number (k : JSKind) : bool :=
  match k with
  | KString | KObject => false
  | _ => true
  end.

Class CartLine (CartItem : Type) := {
  is_null : CartItem -> bool;            (* the line is [null] *)
  total_price : CartItem -> JSKind       (* what [item.total_price] is *)
}.

Section Model.

(** Products and cart lines are JSON values of the server that the data
    layer stores and hands on; it looks into a cart line only to render
    it. *)
Variables Product CartItem : Type.

(** ** The API, as the client reads it

    Each endpoint answers with the shape of its contract; the fields are
    the ones the client reads, through the test or coercion it applies:
    [items] and [result_cart] are [Some] when [Array.isArray] holds,
    [total] is [Number(payload.total) || 0], [has_more] is
    [Boolean(payload.has_more)], [success] is the truthiness of
    [result.success], a message is [None] when it is missing. *)

Record ProductsPayload := {
  items : option (list Product);
  total : Z;
  has_more : bool;
  message : option string
}.

Record MutationResult := {
  success : bool;
  result_cart : option (list CartItem);
  result_message : option string
}.

Record CheckoutResult := {
  checkout_success : bool;
  order_id : string;
  checkout_message : option string
}.

Record CheckoutRequest := {
  req_customer_name : string;
  req_customer_phone : string;
  req_customer_address : string;
  req_discount_amount : float;
  req_delivery_fee : float;
  req_payment_method : string;
  req_amount_received : float;
  req_print_size : string
}.

Inductive ApiRequest :=
| GetProductsLazy (offset limit : nat) (q category : option string)
| GetCart
| PostCartAdd (product_id : string) (quantity : Z)
| PostCartUpdate (product_id : string) (quantity : Z)
| PostCartRemove (product_id : string)
| PostCartClear
| PostCheckout (order : CheckoutRequest).

(** The server: what each request is answered with. *)
Record Network := {
  fetch_products : nat -> nat -> option string -> option string ->
                   Outcome ProductsPayload;
  fetch_cart : Outcome (list CartItem);
  post_cart_add : string -> Z -> Outcome MutationResult;
  post_cart_update : string -> Z -> Outcome MutationResult;
  post_cart_remove : string -> Outcome MutationResult;
  post_cart_clear : Outcome MutationResult;
  post_checkout : CheckoutRequest -> Outcome CheckoutResult
}.

(** ** The page

    The parts of the document the data layer writes to; the elements are
    taken to exist.  The cart view, the modals and the order dialog are
    not kept. *)

(** The message and state given to [setProductsLoadStatus]. *)
Inductive LoadStatus :=
| StatusLoading                          (* 'Loading products...', 'loading' *)
| StatusLoadingMore                      (* 'Loading more products...', 'loading' *)
| StatusShowing (shown : nat) (count : Z) (* 'Showing n of t products', 'ready' *)
| StatusEmpty                            (* 'No products found', 'empty' *)
| StatusDone (shown : nat)               (* 'Loaded all n products', 'done' *)
| StatusCached                           (* 'Loaded cached products (offline)', 'warning' *)
| StatusUnable                           (* 'Unable to load products', 'error' *)
| StatusNoMore.                          (* 'Could not load more products. Try search again.', 'error' *)

Definition status_state (st : LoadStatus) : string :=
  match st with
  | StatusLoading | StatusLoadingMore => "loading"
  | StatusShowing _ _ => "ready"
  | StatusEmpty => "empty"
  | StatusDone _ => "done"
  | StatusCached => "warning"
  | StatusUnable | StatusNoMore => "error"
  end.

Inductive Title :=
| TitleSearch (query : string) (count : Z)
| TitleCategory (category : string) (count : Z)
| TitleAll.

Inductive GridChild :=
| EmptyState
| Card (p : Product).

(** The text given to [showNotification]. *)
Inductive NoteText :=
| Msg (s : string)
| MsgAdded (qty : Z)                     (* `Added ${qty} item(s) to cart!` *)
| MsgServer (m : option string).         (* result.message *)

Record Notification := {
  note : NoteText;
  kind : string
}.

Record Dom := {
  loading : bool;
  load_status : option LoadStatus;
  grid : list GridChild;
  title : option Title;
  notification : option Notification
}.

(** [localStorage]: the two snapshots, as [JSON.parse] reads them back. *)
Record LocalStorage := {
  cached_products : option (list Product);
  stored_cart : option (list CartItem)
}.

Record Order := {
  o_order_id : string;
  o_subtotal : float;
  o_discount_amount : float;
  o_delivery_fee : float;
  o_total : float;
  o_items : list CartItem;
  o_customer_name : string;
  o_customer_phone : string;
  o_customer_address : string;
  o_payment_method : string;
  o_amount_received : float;
  o_change : float;
  o_date : string;
  o_invoice_number : string;
  o_print_size : string
}.

(** ** The state of a [POSSystem]

    The fields of the constructor that the data layer uses, the page,
    the local storage, and the number of [saveSnapshot] callbacks that
    [persistProductsToCache] has scheduled and that have not run yet. *)
Record POSSystem := {
  cart : list CartItem;
  products : list Product;
  catalogTotalCount : Z;
  currentQuery : string;
  currentCategory : string;
  nextOffset : nat;
  hasMoreProducts : bool;
  isFetchingProducts : bool;
  productPageSize : nat;
  lastOrder : option Order;
  dom : Dom;
  localStorage : LocalStorage;
  pendingSnapshots : nat
}.

Definition set_cart (v : list CartItem) (s : POSSystem) : POSSystem :=
  {| cart := v; products := products s;
     catalogTotalCount := catalogTotalCount s; currentQuery := currentQuery s;
     currentCategory := currentCategory s; nextOffset := nextOffset s;
     hasMoreProducts := hasMoreProducts s;
     isFetchingProducts := isFetchingProducts s;
     productPageSize := productPageSize s; lastOrder := lastOrder s;
     dom := dom s; localStorage := localStorage s;
     pendingSnapshots := pendingSnapshots s |}.

Definition set_products (v : list Product) (s : POSSystem) : POSSystem :=
  {| cart := cart s; products := v;
     catalogTotalCount := catalogTotalCount s; currentQuery := currentQuery s;
     currentCategory := currentCategory s; nextOffset := nextOffset s;
     hasMoreProducts := hasMoreProducts s;
     isFetchingProducts := isFetchingProducts s;
     productPageSize := productPageSize s; lastOrder := lastOrder s;
     dom := dom s; localStorage := localStorage s;
     pendingSnapshots := pendingSnapshots s |}.

Definition set_catalogTotalCount (v : Z) (s : POSSystem) : POSSystem :=
  {| cart := cart s; products := products s;
     catalogTotalCount := v; currentQuery := currentQuery s;
     currentCategory := currentCategory s; nextOffset := nextOffset s;
     hasMoreProducts := hasMoreProducts s;
     isFetchingProducts := isFetchingProducts s;
     productPageSize := productPageSize s; lastOrder := lastOrder s;
     dom := dom s; localStorage := localStorage s;
     pendingSnapshots := pendingSnapshots s |}.

Definition set_nextOffset (v : nat) (s : POSSystem) : POSSystem :=
  {| cart := cart s; products := products s;
     catalogTotalCount := catalogTotalCount s; currentQuery := currentQuery s;
     currentCategory := currentCategory s; nextOffset := v;
     hasMoreProducts := hasMoreProducts s;
     isFetchingProducts := isFetchingProducts s;
     productPageSize := productPageSize s; lastOrder := lastOrder s;
     dom := dom s; localStorage := localStorage s;
     pendingSnapshots := pendingSnapshots s |}.

Definition set_hasMoreProducts (v : bool) (s : POSSystem) : POSSystem :=
  {| cart := cart s; products := products s;
     catalogTotalCount := catalogTotalCount s; currentQuery := currentQuery s;
     currentCategory := currentCategory s; nextOffset := nextOffset s;
     hasMoreProducts := v;
     isFetchingProducts := isFetchingProducts s;
     productPageSize := productPageSize s; lastOrder := lastOrder s;
     dom := dom s; localStorage := localStorage s;
     pendingSnapshots := pendingSnapshots s |}.

Definition set_isFetchingProducts (v : bool) (s : POSSystem) : POSSystem :=
  {| cart := cart s; products := products s;
     catalogTotalCount := catalogTotalCount s; currentQuery := currentQuery s;
     currentCategory := currentCategory s; nextOffset := nextOffset s;
     hasMoreProducts := hasMoreProducts s;
     isFetchingProducts := v;
     productPageSize := productPageSize s; lastOrder := lastOrder s;
     dom := dom s; localStorage := localStorage s;
     pendingSnapshots := pendingSnapshots s |}.

Definition set_lastOrder (v : option Order) (s : POSSystem) : POSSystem :=
  {| cart := cart s; products := products s;
     catalogTotalCount := catalogTotalCount s; currentQuery := currentQuery s;
     currentCategory := currentCategory s; nextOffset := nextOffset s;
     hasMoreProducts := hasMoreProducts s;
     isFetchingProducts := isFetchingProducts s;
     productPageSize := productPageSize s; lastOrder := v;
     dom := dom s; localStorage := localStorage s;
     pendingSnapshots := pendingSnapshots s |}.

Definition set_dom (v : Dom) (s : POSSystem) : POSSystem :=
  {| cart := cart s; products := products s;
     catalogTotalCount := catalogTotalCount s; currentQuery := currentQuery s;
     currentCategory := currentCategory s; nextOffset := nextOffset s;
     hasMoreProducts := hasMoreProducts s;
     isFetchingProducts := isFetchingProducts s;
     productPageSize := productPageSize s; lastOrder := lastOrder s;
     dom := v; localStorage := localStorage s;
     pendingSnapshots := pendingSnapshots s |}.

Definition set_localStorage (v : LocalStorage) (s : POSSystem) : POSSystem :=
  {| cart := cart s; products := products s;
     catalogTotalCount := catalogTotalCount s; currentQuery := currentQuery s;
     currentCategory := currentCategory s; nextOffset := nextOffset s;
     hasMoreProducts := hasMoreProducts s;
     isFetchingProducts := isFetchingProducts s;
     productPageSize := productPageSize s; lastOrder := lastOrder s;
     dom := dom s; localStorage := v;
     pendingSnapshots := pendingSnapshots s |}.

Definition set_pendingSnapshots (v : nat) (s : POSSystem) : POSSystem :=
  {| cart := cart s; products := products s;
     catalogTotalCount := catalogTotalCount s; currentQuery := currentQuery s;
     currentCategory := currentCategory s; nextOffset := nextOffset s;
     hasMoreProducts := hasMoreProducts s;
     isFetchingProducts := isFetchingProducts s;
     productPageSize := productPageSize s; lastOrder := lastOrder s;
     dom := dom s; localStorage := localStorage s;
     pendingSnapshots := v |}.

(** The state the constructor builds, before [init] runs. *)
Definition initial (pageSize : nat) (ls : LocalStorage) : POSSystem :=
  {| cart := []; products := [];
     catalogTotalCount := 0; currentQuery := "";
     currentCategory := "all"; nextOffset := 0;
     hasMoreProducts := true;
     isFetchingProducts := false;
     productPageSize := pageSize; lastOrder := None;
     dom := {| loading := false; load_status := None; grid := [];
               title := None; notification := None |};
     localStorage := ls;
     pendingSnapshots := 0 |}.

(** ** Writing to the page *)

Definition showLoading (show : bool) (s : POSSystem) : POSSystem :=
  set_dom {| loading := show; load_status := load_status (dom s);
             grid := grid (dom s); title := title (dom s);
             notification := notification (dom s) |} s.

Definition setProductsLoadStatus (st : LoadStatus) (s : POSSystem) : POSSystem :=
  set_dom {| loading := loading (dom s); load_status := Some st;
             grid := grid (dom s); title := title (dom s);
             notification := notification (dom s) |} s.

Definition set_grid (g : list GridChild) (s : POSSystem) : POSSystem :=
  set_dom {| loading := loading (dom s); load_status := load_status (dom s);
             grid := g; title := title (dom s);
             notification := notification (dom s) |} s.

(** The notification replaces the one on the page. *)
Definition showNotification (m : NoteText) (type : string) (s : POSSystem)
  : POSSystem :=
  set_dom {| loading := loading (dom s); load_status := load_status (dom s);
             grid := grid (dom s); title := title (dom s);
             notification := Some {| note := m; kind := type |} |} s.

Definition renderProducts (ps : list Product) (reset : bool) (s : POSSystem)
  : POSSystem :=
  if (length ps =? 0)%nat && reset then set_grid [EmptyState] s
  else if reset then set_grid (map Card ps) s
  else set_grid (grid (dom s) ++ map Card ps) s.

Definition updateProductsTitle (totalCount : Z) (s : POSSystem) : POSSystem :=
  let t :=
    if negb (trim (currentQuery s) =? "") then
      TitleSearch (currentQuery s) totalCount
    else if negb (currentCategory s =? "") && negb (currentCategory s =? "all") then
      TitleCategory (currentCategory s) totalCount
    else TitleAll in
  set_dom {| loading := loading (dom s); load_status := load_status (dom s);
             grid := grid (dom s); title := Some t;
             notification := notification (dom s) |} s.

(** ** The product snapshot *)

(** [persistProductsToCache] only schedules [saveSnapshot]. *)
Definition persistProductsToCache (s : POSSystem) : POSSystem :=
  set_pendingSnapshots (S (pendingSnapshots s)) s.

(** One scheduled [saveSnapshot] runs: it stores the list of that
    moment. *)
Definition saveSnapshot (s : POSSystem) : POSSystem :=
  match pendingSnapshots s with
  | O => s
  | S n =>
      set_pendingSnapshots n
        (set_localStorage
           {| cached_products := Some (products s);
              stored_cart := stored_cart (localStorage s) |} s)
  end.

(** ** loadProducts *)

Record LoadOptions := {
  reset : bool;
  silent : bool
}.

(** The query string of the request, from the cursor and the filter. *)
Definition products_request (s : POSSystem) : ApiRequest :=
  GetProductsLazy (nextOffset s) (productPageSize s)
    (if negb (trim (currentQuery s) =? "") then Some (trim (currentQuery s))
     else None)
    (if negb (currentCategory s =? "") && negb (currentCategory s =? "all")
     then Some (currentCategory s) else None).

(** [loadProducts] up to its [await fetch(...)]: the state in which the
    call waits and the request it has sent, or the state unchanged and no
    request when it returns at once. *)
Definition loadProducts_begin (s : POSSystem) (o : LoadOptions)
  : POSSystem * option ApiRequest :=
  if isFetchingProducts s then (s, None)
  else if negb (reset o) && negb (hasMoreProducts s) then (s, None)
  else
    let s1 := set_isFetchingProducts true s in
    let s2 := if negb (silent o) then showLoading true s1 else s1 in
    let s3 :=
      if reset o then
        setProductsLoadStatus StatusLoading
          (set_grid []
             (set_products []
                (set_hasMoreProducts true (set_nextOffset 0 s2))))
      else setProductsLoadStatus StatusLoadingMore s2 in
    (s3, Some (products_request s3)).

(** The body of [try] after a page has arrived. *)
Definition loadProducts_success (o : LoadOptions) (payload : ProductsPayload)
    (incoming : list Product) (s : POSSystem) : POSSystem :=
  let s1 := set_catalogTotalCount (total payload) s in
  let s2 := set_hasMoreProducts (has_more payload) s1 in
  let s3 := set_nextOffset (nextOffset s2 + length incoming) s2 in
  let s4 := set_products
              (if reset o then incoming else products s3 ++ incoming) s3 in
  let s5 := renderProducts incoming (reset o) s4 in
  let s6 := updateProductsTitle (catalogTotalCount s5) s5 in
  let s7 := persistProductsToCache s6 in
  if hasMoreProducts s7 then
    setProductsLoadStatus
      (StatusShowing (length (products s7)) (catalogTotalCount s7)) s7
  else if (length (products s7) =? 0)%nat then
    setProductsLoadStatus StatusEmpty s7
  else setProductsLoadStatus (StatusDone (length (products s7))) s7.

(** The [catch] block. *)
Definition loadProducts_failure (o : LoadOptions) (s : POSSystem) : POSSystem :=
  if reset o then
    match cached_products (localStorage s) with
    | Some cached =>
        let s1 := set_products cached s in
        let s2 := set_catalogTotalCount (Z.of_nat (length (products s1))) s1 in
        let s3 := set_hasMoreProducts false s2 in
        let s4 := renderProducts (products s3) true s3 in
        let s5 := updateProductsTitle (catalogTotalCount s4) s4 in
        setProductsLoadStatus StatusCached s5
    | None =>
        setProductsLoadStatus StatusUnable
          (showNotification (Msg "Failed to load products") "error" s)
    end
  else
    setProductsLoadStatus StatusNoMore (set_hasMoreProducts false s).

(** [loadProducts] from the moment its request settles: [s] is the state
    of that moment. *)
Definition loadProducts_settle (o : LoadOptions)
    (out : Outcome ProductsPayload) (s : POSSystem) : POSSystem :=
  let s1 :=
    match out with
    | Resolved ok (Some payload) =>
        match items payload with
        | Some incoming =>
            if ok then loadProducts_success o payload incoming s
            else loadProducts_failure o s
        | None => loadProducts_failure o s
        end
    | _ => loadProducts_failure o s
    end in
  let s2 := set_isFetchingProducts false s1 in
  if negb (silent o) then showLoading false s2 else s2.

(** A call of [loadProducts] that nothing interleaves with, and the
    requests it sent. *)
Definition loadProducts (s : POSSystem) (o : LoadOptions) (net : Network)
  : POSSystem * list ApiRequest :=
  match loadProducts_begin s o with
  | (s1, Some (GetProductsLazy off lim q c as r)) =>
      (loadProducts_settle o (fetch_products net off lim q c) s1, [r])
  | (s1, _) => (s1, [])
  end.

(** The sentinel of the product list comes into view once per answer
    of the server: [loadProducts({reset: false, silent: true})] each
    time, the next call after the one before has settled.  A call that
    returns at once sends nothing and leaves its answer unused. *)
Definition load_more : LoadOptions := {| reset := false; silent := true |}.

Fixpoint load_more_each (outs : list (Outcome ProductsPayload)) (s : POSSystem)
  : POSSystem * list ApiRequest :=
  match outs with
  | [] => (s, [])
  | out :: rest =>
      match loadProducts_begin s load_more with
      | (s1, Some r) =>
          let '(s2, t) := load_more_each rest (loadProducts_settle load_more out s1) in
          (s2, r :: t)
      | (s1, None) => load_more_each rest s1
      end
  end.

(** ** The cart *)

Definition saveCartToStorage (s : POSSystem) : POSSystem :=
  set_localStorage
    {| cached_products := cached_products (localStorage s);
       stored_cart := Some (cart s) |} s.

(** The [catch] block of [loadCart]. *)
Definition loadCart_fallback (s : POSSystem) : POSSystem :=
  match stored_cart (localStorage s) with
  | Some cached => set_cart cached s
  | None => s
  end.

Definition loadCart (net : Network) (s : POSSystem)
  : POSSystem * list ApiRequest :=
  match fetch_cart net with
  | Resolved true (Some c) => (set_cart c s, [GetCart])
  | Resolved true None => (loadCart_fallback s, [GetCart])
  | Resolved false _ => (s, [GetCart])
  | Rejected => (loadCart_fallback s, [GetCart])
  end.

(** [result.message || fallback] *)
Definition message_or (m : option string) (fallback : string) : string :=
  match m with
  | Some x => if x =? "" then fallback else x
  | None => fallback
  end.

(** ** Rendering the cart

    The counter and the cart view are not kept; what matters to the
    data layer is whether [updateCartCount] and [renderCart] return or
    throw, since the mutations call them inside their [try]. *)
Context {lines : CartLine CartItem}.

(** [this.cart.reduce((sum, item) => sum + item.quantity, 0)] *)
Definition updateCartCount_returns (c : list CartItem) : bool :=
  forallb (fun item => negb (is_null item)) c.

(** The loop over the lines, and [total.toFixed(2)] after it. *)
Definition renderCart_returns (c : list CartItem) : bool :=
  forallb (fun item => negb (is_null item)) c
  && forallb (fun item => adds_as_number (total_price item)) c.

(** [qty] is the quantity the call has settled on,
    [quantity || (quantityInput ? parseInt(quantityInput.value) : 1)]. *)
Definition addToCart (s : POSSystem) (productId : string) (qty : Z)
    (net : Network) : POSSystem * list ApiRequest :=
  let r := PostCartAdd productId qty in
  match post_cart_add net productId qty with
  | Resolved _ (Some result) =>
      if success result then
        let '(s1, t) :=
          match result_cart result with
          | Some c => (set_cart c s, [])
          | None => loadCart net s
          end in
        if updateCartCount_returns (cart s1) then
          (showNotification (MsgAdded qty) "success" (saveCartToStorage s1),
           r :: t)
        else
          (showNotification (Msg "Failed to add product to cart") "error" s1,
           r :: t)
      else (showNotification (MsgServer (result_message result)) "error" s, [r])
  | _ => (showNotification (Msg "Failed to add product to cart") "error" s, [r])
  end.

Definition removeFromCart (s : POSSystem) (productId : string) (net : Network)
  : POSSystem * list ApiRequest :=
  let r := PostCartRemove productId in
  match post_cart_remove net productId with
  | Resolved ok (Some result) =>
      if negb ok || negb (success result) then
        (showNotification
           (Msg (message_or (result_message result) "Failed to remove item"))
           "error" s, [r])
      else
        let '(s1, t) :=
          match result_cart result with
          | Some c => (set_cart c s, [])
          | None => loadCart net s
          end in
        if updateCartCount_returns (cart s1) && renderCart_returns (cart s1)
        then
          (showNotification (Msg "Item removed from cart") "success"
             (saveCartToStorage s1), r :: t)
        else (showNotification (Msg "Error removing item") "error" s1, r :: t)
  | _ => (showNotification (Msg "Error removing item") "error" s, [r])
  end.

Definition updateCartQuantity (s : POSSystem) (productId : string)
    (newQuantity : Z) (net : Network) : POSSystem * list ApiRequest :=
  if (newQuantity <=? 0)%Z then removeFromCart s productId net
  else
    let r := PostCartUpdate productId newQuantity in
    match post_cart_update net productId newQuantity with
    | Resolved ok (Some result) =>
        if negb ok || negb (success result) then
          (showNotification
             (Msg (message_or (result_message result) "Failed to update cart"))
             "error" s, [r])
        else
          let '(s1, t) :=
            match result_cart result with
            | Some c => (set_cart c s, [])
            | None => loadCart net s
            end in
          if updateCartCount_returns (cart s1) && renderCart_returns (cart s1)
          then (saveCartToStorage s1, r :: t)
          else (showNotification (Msg "Error updating cart") "error" s1, r :: t)
    | _ => (showNotification (Msg "Error updating cart") "error" s, [r])
    end.

Definition clearCart (s : POSSystem) (net : Network)
  : POSSystem * list ApiRequest :=
  let r := PostCartClear in
  match post_cart_clear net with
  | Resolved ok (Some result) =>
      if negb ok || negb (success result) then
        (showNotification
           (Msg (message_or (result_message result) "Failed to clear cart"))
           "error" s, [r])
      else
        let s1 :=
          set_cart (match result_cart result with
                    | Some c => c
                    | None => []
                    end) s in
        if updateCartCount_returns (cart s1) && renderCart_returns (cart s1)
        then
          (showNotification (Msg "Cart cleared") "success"
             (saveCartToStorage s1), [r])
        else (showNotification (Msg "Error clearing cart") "error" s1, [r])
  | _ => (showNotification (Msg "Error clearing cart") "error" s, [r])
  end.

(** ** Checkout *)

(** The fields of the checkout form as the code reads them: the texts,
    and for the amounts what [parseFloat] makes of the text ([NaN] when
    it is not a number). *)
Record CheckoutForm := {
  customer_name : string;
  customer_phone : string;
  customer_address : string;
  discount_amount : float;
  delivery_fee : float;
  print_size : string;
  payment_method : string;
  amount_received : float;
  checkout_subtotal : float
}.

(** [Math.max(0, subtotal - discount + delivery)] of the form. *)
Definition finalTotal (f : CheckoutForm) : float :=
  Math_max 0%float
    (PrimFloat.add
       (PrimFloat.sub (or_zero (checkout_subtotal f)) (or_zero (discount_amount f)))
       (or_zero (delivery_fee f))).

(** What [updateTotals] shows: the numbers it hands to [toFixed(2)], and
    the change line. *)
Inductive ChangeDisplay :=
| ChangeBlank
| ChangePositive (change : float)        (* `Change: $${change.toFixed(2)}` *)
| ChangeRemaining (remaining : float).   (* `Remaining: $...` *)

Record TotalsView := {
  shown_discount : float;
  shown_delivery : float;
  shown_total : float;
  shown_change : ChangeDisplay
}.

(** [setCheckoutTotal(total)] formats [Number(total) || 0]. *)
Definition setCheckoutTotal (total : float) : float := or_zero total.

Definition updateTotals (f : CheckoutForm) : TotalsView :=
  let received := or_zero (amount_received f) in
  let change := PrimFloat.sub received (finalTotal f) in
  {| shown_discount := or_zero (discount_amount f);
     shown_delivery := or_zero (delivery_fee f);
     shown_total := setCheckoutTotal (finalTotal f);
     shown_change :=
       if PrimFloat.ltb 0%float received then
         if PrimFloat.leb 0%float change then ChangePositive change
         else ChangeRemaining (Math_abs change)
       else ChangeBlank |}.

(** [value.trim() || fallback] *)
Definition trimmed_or (value fallback : string) : string :=
  if trim value =? "" then fallback else trim value.

(** [`INV-${order_id.split('-').slice(-2).join('-')}`] *)
Definition invoice_number_of (order_id : string) : string :=
  "INV-" ++ String.concat "-" (slice_last 2 (split_on "-"%char order_id)).

(** [now] is [new Date().toISOString()] at the time of the answer. *)
Definition checkout (s : POSSystem) (f : CheckoutForm) (now : string)
    (net : Network) : POSSystem * list ApiRequest :=
  if (length (cart s) =? 0)%nat then
    (showNotification (Msg "Cart is empty") "error" s, [])
  else
    let customerName := trimmed_or (customer_name f) "Walk-in Customer" in
    let customerPhone := trimmed_or (customer_phone f) "" in
    let customerAddress := trimmed_or (customer_address f) "" in
    let discountAmount := or_zero (discount_amount f) in
    let deliveryFee := or_zero (delivery_fee f) in
    let printSize := print_size f in
    let paymentMethod := payment_method f in
    let amountReceived := or_zero (amount_received f) in
    let subtotal := or_zero (checkout_subtotal f) in
    let finalTotal :=
      Math_max 0%float
        (PrimFloat.add (PrimFloat.sub subtotal discountAmount) deliveryFee) in
    if (paymentMethod =? "Cash") && PrimFloat.ltb amountReceived finalTotal then
      (showNotification (Msg "Amount received is less than total") "error" s, [])
    else
      let order :=
        {| req_customer_name := customerName;
           req_customer_phone := customerPhone;
           req_customer_address := customerAddress;
           req_discount_amount := discountAmount;
           req_delivery_fee := deliveryFee;
           req_payment_method := paymentMethod;
           req_amount_received := amountReceived;
           req_print_size := printSize |} in
      match post_checkout net order with
      | Resolved _ (Some result) =>
          if checkout_success result then
            let s1 :=
              set_lastOrder
                (Some {| o_order_id := order_id result;
                         o_subtotal := subtotal;
                         o_discount_amount := discountAmount;
                         o_delivery_fee := deliveryFee;
                         o_total := finalTotal;
                         o_items := cart s;
                         o_customer_name := customerName;
                         o_customer_phone := customerPhone;
                         o_customer_address := customerAddress;
                         o_payment_method := paymentMethod;
                         o_amount_received := amountReceived;
                         o_change :=
                           if PrimFloat.ltb finalTotal amountReceived
                           then PrimFloat.sub amountReceived finalTotal
                           else 0%float;
                         o_date := now;
                         o_invoice_number := invoice_number_of (order_id result);
                         o_print_size := printSize |}) s in
            (saveCartToStorage (set_cart [] s1), [PostCheckout order])
          else
            (showNotification (MsgServer (checkout_message result)) "error" s,
             [PostCheckout order])
      | _ =>
          (showNotification (Msg "Checkout failed. Please try again.") "error" s,
           [PostCheckout order])
      end.

End Model.

Arguments EmptyState {Product}.
End POS.

(** * Names used by the statements and the examples *)

Module SWSpec.
Import SW.

(** The first candidate that is there, in the order of the list. *)
Fixpoint first_available (candidates : list (option Response))
    (otherwise : Response) : Response :=
  match candidates with
  | [] => otherwise
  | Some r :: _ => r
  | None :: rest => first_available rest otherwise
  end.

(** The names the activate listener keeps. *)
Definition is_current (name : string) : bool :=
  (name =? STATIC_CACHE) || (name =? RUNTIME_CACHE).

(** The navigation request of a page of the site, and the responses used
    in the examples. *)
Definition site : string := "https://pos.example".

Definition page (path : string) : Response :=
  {| status := 200; type := "basic"; contentType := Some "text/html";
     body := path |}.

Definition navigate (path : string) : Request :=
  {| method := "GET"; mode := "navigate"; url := local_url site path |}.

Definition get (path : string) : Request :=
  {| method := "GET"; mode := "cors"; url := local_url site path |}.

Definition offline : Network := fun _ => None.

(** A storage with the page, the root and the offline page. *)
Definition seeded : CacheStorage :=
  [ (STATIC_CACHE, [ (local_url site "/", page "/");
                     (local_url site OFFLINE_URL, page OFFLINE_URL) ]);
    (RUNTIME_CACHE, [ (local_url site "/orders", page "/orders") ]) ].

(** A network that answers every request with a page named after its
    path. *)
Definition online : Network :=
  fun request => Some (page (pathname (url request))).

End SWSpec.

Module POSSpec.
Import POS.

(** ** Words of the statement about escapeHtml *)

(** The character references that [escapeHtml] writes. *)
Definition entities : list string :=
  ["&amp;"; "&lt;"; "&gt;"; "&quot;"; "&#39;"].

(** The text starts with one of them. *)
Definition at_entity (t : string) : bool :=
  existsb (fun e => startsWith t e) entities.

(** The character occurs in the text. *)
Fixpoint contains_char (c : ascii) (s : string) : bool :=
  match s with
  | EmptyString => false
  | String a s' => Ascii.eqb a c || contains_char c s'
  end.

(** What one character of the input becomes. *)
Definition escape_char (a : ascii) : string :=
  if Ascii.eqb a "&"%char then "&amp;"
  else if Ascii.eqb a "<"%char then "&lt;"
  else if Ascii.eqb a ">"%char then "&gt;"
  else if Ascii.eqb a dquote then "&quot;"
  else if Ascii.eqb a "'"%char then "&#39;"
  else String a EmptyString.

Fixpoint escape_each (s : string) : string :=
  match s with
  | EmptyString => EmptyString
  | String a s' => escape_char a ++ escape_each s'
  end.

(** ** Words of the statements about the catalog *)

(** The items of a page that arrived: the answer is OK, its body parses
    and its [items] is an array.  [None] for every answer that sends
    [loadProducts] to its [catch] block. *)
Definition received {Product : Type} (out : Outcome (ProductsPayload Product))
  : option (list Product) :=
  match out with
  | Resolved true (Some payload) => items payload
  | _ => None
  end.

Definition page_items {Product : Type} (out : Outcome (ProductsPayload Product))
  : list Product :=
  match received out with
  | Some incoming => incoming
  | None => []
  end.

Definition more_after {Product : Type} (out : Outcome (ProductsPayload Product))
  : bool :=
  match out with
  | Resolved _ (Some payload) => has_more payload
  | _ => false
  end.

(** Every answer of the sequence is a page that arrived, and every one
    but the last says that there is more: each load of the sequence is
    sent and succeeds. *)
Fixpoint all_loaded {Product : Type}
    (outs : list (Outcome (ProductsPayload Product))) : bool :=
  match outs with
  | [] => true
  | out :: rest =>
      match received out with Some _ => true | None => false end
      && (match rest with [] => true | _ => more_after out end)
      && all_loaded rest
  end.

(** The offsets of successive requests that start at [start] and receive
    pages of these sizes. *)
Fixpoint offsets_from (start : nat) (counts : list nat) : list nat :=
  match counts with
  | [] => []
  | c :: rest => start :: offsets_from (start + c) rest
  end.

(** A page as the server sends it. *)
Definition page_of {Product : Type} (incoming : list Product) (t : Z)
    (more : bool) : Outcome (ProductsPayload Product) :=
  Resolved true
    (Some {| items := Some incoming; total := t; has_more := more;
             message := None |}).

(** ** Sample data: products and cart lines by their names *)

Definition no_storage : LocalStorage string string :=
  {| cached_products := None; stored_cart := None |}.

Definition eight_a : list string :=
  ["a1"; "a2"; "a3"; "a4"; "a5"; "a6"; "a7"; "a8"].

Definition eight_b : list string :=
  ["b1"; "b2"; "b3"; "b4"; "b5"; "b6"; "b7"; "b8"].

(** A phone-sized window: pages of 8. *)
Definition fresh : POSSystem string string :=
  initial (getProductPageSize 390) no_storage.

(** A server that cannot be reached. *)
Definition unreachable : Network string string :=
  {| fetch_products := fun _ _ _ _ => Rejected;
     fetch_cart := Rejected;
     post_cart_add := fun _ _ => Rejected;
     post_cart_update := fun _ _ => Rejected;
     post_cart_remove := fun _ => Rejected;
     post_cart_clear := Rejected;
     post_checkout := fun _ => Rejected |}.

(** A state that waits for the answer to a load. *)
Definition waiting : POSSystem string string :=
  fst (loadProducts_begin fresh {| reset := true; silent := false |}).

(** A state with a snapshot of two products in the local storage. *)
Definition with_snapshot : POSSystem string string :=
  initial 8 {| cached_products := Some ["serum"; "toner"]; stored_cart := None |}.

(** ** Words of the statement about the cart *)

Inductive Mutation :=
| Add (productId : string) (qty : Z)
| Update (productId : string) (newQuantity : Z)
| Remove (productId : string)
| Clear.

Definition mutate {Product CartItem : Type} {lines : CartLine CartItem}
    (s : POSSystem Product CartItem)
    (m : Mutation) (net : Network Product CartItem)
  : POSSystem Product CartItem * list ApiRequest :=
  match m with
  | Add productId qty => addToCart s productId qty net
  | Update productId newQuantity => updateCartQuantity s productId newQuantity net
  | Remove productId => removeFromCart s productId net
  | Clear => clearCart s net
  end.

(** The request a mutation sends: an update to a quantity that is not
    positive is sent as a removal. *)
Definition request_of (m : Mutation) : ApiRequest :=
  match m with
  | Add productId qty => PostCartAdd productId qty
  | Update productId newQuantity =>
      if (newQuantity <=? 0)%Z then PostCartRemove productId
      else PostCartUpdate productId newQuantity
  | Remove productId => PostCartRemove productId
  | Clear => PostCartClear
  end.

(** The answer of the server to that request. *)
Definition answer_to {Product CartItem : Type} (net : Network Product CartItem)
    (m : Mutation) : Outcome (MutationResult CartItem) :=
  match m with
  | Add productId qty => post_cart_add net productId qty
  | Update productId newQuantity =>
      if (newQuantity <=? 0)%Z then post_cart_remove net productId
      else post_cart_update net productId newQuantity
  | Remove productId => post_cart_remove net productId
  | Clear => post_cart_clear net
  end.

(** The answer reports success: its body parses and its [success] is
    truthy.  This is [Some] of the body then. *)
Definition reports_success {CartItem : Type}
    (out : Outcome (MutationResult CartItem)) : option (MutationResult CartItem) :=
  match out with
  | Resolved _ (Some result) => if success result then Some result else None
  | _ => None
  end.

(** The HTTP status of the answer is OK ([response.ok]). *)
Definition http_ok {T : Type} (out : Outcome T) : bool :=
  match out with
  | Resolved ok _ => ok
  | Rejected => false
  end.

(** Adding does not look at the HTTP status; the other three do. *)
Definition needs_http_ok (m : Mutation) : bool :=
  match m with
  | Add _ _ => false
  | _ => true
  end.

(** The page renders the cart: what a mutation calls between adopting
    the cart and mirroring it returns.  Adding calls [updateCartCount]
    only; the other three call [renderCart] as well. *)
Definition renders {CartItem : Type} {lines : CartLine CartItem}
    (m : Mutation) (c : list CartItem) : bool :=
  match m with
  | Add _ _ => updateCartCount_returns c
  | _ => updateCartCount_returns c && renderCart_returns c
  end.

(** ** Sample data: the server and the checkout form *)

(** The sample lines written as texts are objects whose [total_price]
    is a number. *)
#[export] Instance text_lines : CartLine string :=
  {| is_null := fun _ => false; total_price := fun _ => KNumber |}.

(** Sample lines that say what they are: [null], or an object with a
    [total_price] of that kind. *)
Inductive SampleLine :=
| NullLine
| Line (name : string) (price : JSKind).

#[export] Instance sample_lines : CartLine SampleLine :=
  {| is_null := fun l => match l with NullLine => true | Line _ _ => false end;
     total_price := fun l =>
       match l with NullLine => KUndefined | Line _ k => k end |}.

Definition done (c : option (list string)) : Outcome (MutationResult string) :=
  Resolved true
    (Some {| success := true; result_cart := c; result_message := None |}).

(** A server whose answers to mutations carry no cart, and whose cart
    holds one line. *)
Definition server_without_cart : Network string string :=
  {| fetch_products := fun _ _ _ _ => Rejected;
     fetch_cart := Resolved true (Some ["serum x1"]);
     post_cart_add := fun _ _ => done None;
     post_cart_update := fun _ _ => done None;
     post_cart_remove := fun _ => done None;
     post_cart_clear := done None;
     post_checkout := fun _ => Rejected |}.

Definition with_cart : POSSystem string string :=
  set_cart ["toner x2"] fresh.

(** Subtotal 50.00, discount 5.00, delivery 3.00, 40.00 in cash. *)
Definition cash_form : CheckoutForm :=
  {| customer_name := "";
     customer_phone := "";
     customer_address := "";
     discount_amount := 5%float;
     delivery_fee := 3%float;
     print_size := "80mm";
     payment_method := "Cash";
     amount_received := 40%float;
     checkout_subtotal := 50%float |}.

(** A page whose cart holds one well-formed line, in the local storage
    too, and a server that answers an update with a cart whose line has
    a text as [total_price]. *)
Definition one_line : POSSystem string SampleLine :=
  saveCartToStorage
    (set_cart [Line "toner" KNumber]
       (initial 8 {| cached_products := None; stored_cart := None |})).

Definition server_with_text_price : Network string SampleLine :=
  {| fetch_products := fun _ _ _ _ => Rejected;
     fetch_cart := Rejected;
     post_cart_add := fun _ _ => Rejected;
     post_cart_update := fun _ _ =>
       Resolved true
         (Some {| success := true;
                  result_cart := Some [Line "toner" KString];
                  result_message := None |});
     post_cart_remove := fun _ => Rejected;
     post_cart_clear := Rejected;
     post_checkout := fun _ => Rejected |}.

End POSSpec.

(** * More of the caching proxy and of the client *)

Module SWMore.
Import SW.

(** The partitions created before the one of that name: [caches.match]
    asks them first. *)
Fixpoint partitions_before (name : string) (cs : CacheStorage) : CacheStorage :=
  match cs with
  | [] => []
  | e :: rest =>
      if fst e =? name then [] else e :: partitions_before name rest
  end.

(** The request [cache.addAll] makes for a path of the manifest. *)
Definition precache_request (self_origin path : string) : Request :=
  {| method := "GET"; mode := "cors"; url := local_url self_origin path |}.

(** The fetch listener hands the request to [networkFirst]: none of the
    tests before it holds. *)
Definition default_route (self_origin : string) (request : Request) : bool :=
  (method request =? "GET")
  && (origin (url request) =? self_origin)
  && negb (mode request =? "navigate")
  && negb (startsWith (pathname (url request)) "/api/")
  && negb (startsWith (pathname (url request)) "/static/"
           || (pathname (url request) =? "/manifest.webmanifest")).

(** What a strategy can do to the storage: the storage after is the
    storage before, or it with the partition opened, or that with one
    entry put into the partition. *)
Definition touched (name : string) (cs cs' : CacheStorage) : Prop :=
  cs' = cs \/ cs' = caches_open cs name \/
  exists u r, cs' = handle_put (caches_open cs name) name u r.

End SWMore.

(** [Math.min(a, b)] *)
Definition Math_min (a b : float) : float :=
  if PrimFloat.is_nan a || PrimFloat.is_nan b then PrimFloat.nan
  else if PrimFloat.ltb a b then a
  else if PrimFloat.ltb b a then b
  else if PrimFloat.is_zero a && PrimFloat.get_sign a then a
  else b.

Module POSMore.
Import POS.

Set Implicit Arguments.

(** ** escapeJsString *)

Definition escapeJsString (value : Value) : string :=
  replace_all "'"%char "\'"
    (replace_all "\"%char "\\" (String_of value)).

(** ** changeQuantity

    [max] is what [Math.min] makes of [input.max], [currentValue] is
    [parseInt(input.value)]; the result is the number written back to
    the input. *)
Definition changeQuantity (max currentValue change : float) : float :=
  Math_max 1%float (Math_min max (PrimFloat.add currentValue change)).

(** ** The name of the downloaded invoice

    A text as its UTF-16 code units: the pattern replaces every code
    unit that is not in its class, whatever character it belongs to. *)
Definition CodeUnits := list N.

(** [[a-zA-Z0-9_-]] *)
Definition is_file_char (u : N) : bool :=
  ((97 <=? u) && (u <=? 122)
   || (65 <=? u) && (u <=? 90)
   || (48 <=? u) && (u <=? 57)
   || (u =? 95)
   || (u =? 45))%N.

(** ['invoice'] *)
Definition invoice_word : CodeUnits := [105; 110; 118; 111; 105; 99; 101]%N.

(** [String(invoice_number || 'invoice').replace(/[^a-zA-Z0-9_-]/g, '_')] *)
Definition safeInvoiceFile (invoice_number : CodeUnits) : CodeUnits :=
  map (fun u => if is_file_char u then u else 95%N)
      (match invoice_number with
       | [] => invoice_word
       | _ => invoice_number
       end).

(** ** The reload on a new worker

    The listener of [controllerchange] that [registerServiceWorker]
    installs: the flag after the event, and whether
    [window.location.reload()] was called. *)
Definition onControllerChange (reloadingForNewWorker : bool) : bool * bool :=
  if reloadingForNewWorker then (reloadingForNewWorker, false)
  else (true, true).

(** The number of calls of [reload] over that many events. *)
Fixpoint reloads (events : nat) (reloadingForNewWorker : bool) : nat :=
  match events with
  | O => 0
  | S n =>
      let '(flag, reloaded) := onControllerChange reloadingForNewWorker in
      (if reloaded then 1 else 0) + reloads n flag
  end.

Section Model.

Variables Product CartItem : Type.

Definition set_currentQuery (v : string) (s : POSSystem Product CartItem)
  : POSSystem Product CartItem :=
  {| cart := cart s; products := products s;
     catalogTotalCount := catalogTotalCount s; currentQuery := v;
     currentCategory := currentCategory s; nextOffset := nextOffset s;
     hasMoreProducts := hasMoreProducts s;
     isFetchingProducts := isFetchingProducts s;
     productPageSize := productPageSize s; lastOrder := lastOrder s;
     dom := dom s; localStorage := localStorage s;
     pendingSnapshots := pendingSnapshots s |}.

Definition set_currentCategory (v : string) (s : POSSystem Product CartItem)
  : POSSystem Product CartItem :=
  {| cart := cart s; products := products s;
     catalogTotalCount := catalogTotalCount s; currentQuery := currentQuery s;
     currentCategory := v; nextOffset := nextOffset s;
     hasMoreProducts := hasMoreProducts s;
     isFetchingProducts := isFetchingProducts s;
     productPageSize := productPageSize s; lastOrder := lastOrder s;
     dom := dom s; localStorage := localStorage s;
     pendingSnapshots := pendingSnapshots s |}.

(** ** Changing the filter

    The bottom navigation and the search field are not kept; [query] and
    [value] are the text of the search field. *)

Definition reload_silently : LoadOptions := {| reset := true; silent := true |}.

Definition searchProducts (s : POSSystem Product CartItem) (query : string)
    (net : Network Product CartItem)
  : POSSystem Product CartItem * list ApiRequest :=
  loadProducts (set_currentQuery (trim query) s) reload_silently net.

(** [String(category || 'all')], for the name of a category. *)
Definition filterByCategory (s : POSSystem Product CartItem) (category : string)
    (net : Network Product CartItem)
  : POSSystem Product CartItem * list ApiRequest :=
  loadProducts
    (set_currentCategory (if category =? "" then "all" else category) s)
    reload_silently net.

(** The click on "All Products" in [renderCategories]. *)
Definition showAllProducts (s : POSSystem Product CartItem)
    (net : Network Product CartItem)
  : POSSystem Product CartItem * list ApiRequest :=
  loadProducts (set_currentQuery "" (set_currentCategory "all" s))
    reload_silently net.

(** The input listener of the search field in [bindEvents], when its
    timer fires. *)
Definition onSearchInput (s : POSSystem Product CartItem) (value : string)
    (net : Network Product CartItem)
  : POSSystem Product CartItem * list ApiRequest :=
  if negb (trim value =? "") then searchProducts s value net
  else loadProducts (set_currentQuery "" s) reload_silently net.

(** Only the action home changes the state; cart opens the cart view,
    admin leaves the page. *)
Definition handleBottomNavAction (s : POSSystem Product CartItem)
    (action : string) (net : Network Product CartItem)
  : POSSystem Product CartItem * list ApiRequest :=
  if action =? "home" then
    if negb (currentQuery s =? "") || negb (currentCategory s =? "all") then
      loadProducts (set_currentCategory "all" (set_currentQuery "" s))
        reload_silently net
    else (s, [])
  else (s, []).

(** ** Sending the invoice *)

Record EmailForm := {
  email_address : string;
  email_subject : string;
  email_message : string
}.

Record EmailRequest := {
  req_email : string;
  req_subject : string;
  req_message : string;
  req_order_data : option (Order CartItem)
}.

Record EmailResult := {
  email_success : bool;
  email_result_message : option string
}.

(** The company data of the constructor go with every request and are
    left out. *)
Definition emailInvoice (s : POSSystem Product CartItem) (f : EmailForm)
    (send : EmailRequest -> Outcome EmailResult)
  : POSSystem Product CartItem * list EmailRequest :=
  let emailAddress := trim (email_address f) in
  let subject := trim (email_subject f) in
  let message := trim (email_message f) in
  if emailAddress =? "" then
    (showNotification (Msg "Email address is required") "error" s, [])
  else
    let r := {| req_email := emailAddress;
                req_subject := subject;
                req_message := message;
                req_order_data := lastOrder s |} in
    match send r with
    | Resolved _ (Some result) =>
        if email_success result then
          (showNotification (Msg "Invoice sent successfully!") "success" s, [r])
        else
          (showNotification
             (Msg (message_or (email_result_message result) "Failed to send email"))
             "error" s, [r])
    | _ => (showNotification (Msg "Failed to send email") "error" s, [r])
    end.

End Model.

End POSMore.

(** Words of the statements below. *)
Module POSMoreSpec.
Import POS POSSpec POSMore.

(** The ways the filter is changed. *)
Inductive FilterChange :=
| Search (query : string)
| Category (category : string)
| AllProducts
| SearchInput (value : string).

Definition change_filter {Product CartItem : Type} (s : POSSystem Product CartItem)
    (fc : FilterChange) (net : Network Product CartItem)
  : POSSystem Product CartItem * list ApiRequest :=
  match fc with
  | Search query => searchProducts s query net
  | Category category => filterByCategory s category net
  | AllProducts => showAllProducts s net
  | SearchInput value => onSearchInput s value net
  end.

(** The query and the category after the change. *)
Definition query_after {Product CartItem : Type} (s : POSSystem Product CartItem)
    (fc : FilterChange) : string :=
  match fc with
  | Search query => trim query
  | Category _ => currentQuery s
  | AllProducts => ""
  | SearchInput value => trim value
  end.

Definition category_after {Product CartItem : Type}
    (s : POSSystem Product CartItem) (fc : FilterChange) : string :=
  match fc with
  | Category category => if category =? "" then "all" else category
  | AllProducts => "all"
  | _ => currentCategory s
  end.

(** The parameters [q] and [category] of a request under a filter. *)
Definition q_of (query : string) : option string :=
  if query =? "" then None else Some query.

Definition category_of (category : string) : option string :=
  if (category =? "") || (category =? "all") then None else Some category.

(** The answer of the server does not report success. *)
Definition mutation_failed {CartItem : Type} (m : Mutation)
    (out : Outcome (MutationResult CartItem)) : bool :=
  match reports_success out with
  | Some _ => needs_http_ok m && negb (http_ok out)
  | None => true
  end.

(** The server confirms the order. *)
Definition checkout_confirmed (out : Outcome CheckoutResult) : bool :=
  match out with
  | Resolved _ (Some result) => checkout_success result
  | _ => false
  end.

(** The mail server reports that the message was sent. *)
Definition email_accepted (out : Outcome EmailResult) : bool :=
  match out with
  | Resolved _ (Some result) => email_success result
  | _ => false
  end.

(** What the cart operations own, and what the catalogue operations
    own. *)
Definition cart_side {Product CartItem : Type} (s : POSSystem Product CartItem)
  : list CartItem * option (Order CartItem) * option (list CartItem) :=
  (cart s, lastOrder s, stored_cart (localStorage s)).

Definition catalog_side {Product CartItem : Type} (s : POSSystem Product CartItem)
  : list Product * Z * (string * string) * (nat * bool * bool * nat)
    * (option (list Product) * nat) :=
  (products s, catalogTotalCount s, (currentQuery s, currentCategory s),
   (nextOffset s, hasMoreProducts s, isFetchingProducts s, productPageSize s),
   (cached_products (localStorage s), pendingSnapshots s)).

(** The text that the body of a single-quoted literal of the language
    denotes, for the bodies made of ordinary characters and of the two
    escapes [\\] and [\'].  [None] for every other body: an apostrophe
    that no backslash escapes ends the literal early, a line feed or a
    carriage return may not stand in a literal, a backslash at the end
    has nothing to escape, and the other escapes are not read here. *)
Definition line_terminator (c : ascii) : bool :=
  (nat_of_ascii c =? 10)%nat || (nat_of_ascii c =? 13)%nat.

Fixpoint literal_value (s : string) : option string :=
  match s with
  | EmptyString => Some EmptyString
  | String c s' =>
      if Ascii.eqb c "\"%char then
        match s' with
        | String e s'' =>
            if Ascii.eqb e "\"%char || Ascii.eqb e "'"%char
            then option_map (String e) (literal_value s'')
            else None
        | EmptyString => None
        end
      else if Ascii.eqb c "'"%char || line_terminator c then None
      else option_map (String c) (literal_value s')
  end.

Fixpoint has_line_terminator (s : string) : bool :=
  match s with
  | EmptyString => false
  | String c s' => line_terminator c || has_line_terminator s'
  end.

(** What one character becomes under [escapeJsString]. *)
Definition js_escape_char (a : ascii) : string :=
  if Ascii.eqb a "\"%char then "\\"
  else if Ascii.eqb a "'"%char then "\'"
  else String a EmptyString.

(** The text is white space only: nothing is left when the white space
    it starts with is removed. *)
Definition all_space (s : string) : bool := trimStart s =? "".

(** The products of the cards of the grid, in the order of the page. *)
Fixpoint cards_of {Product : Type} (g : list (GridChild Product))
  : list Product :=
  match g with
  | [] => []
  | Card p :: rest => p :: cards_of rest
  | EmptyState :: rest => cards_of rest
  end.

(** The page agrees with the list: the grid has one card for each
    loaded product, in order, and while more products are expected the
    cursor is the number of products loaded. *)
Definition page_consistent {Product CartItem : Type}
    (s : POSSystem Product CartItem) : Prop :=
  cards_of (grid (dom s)) = products s /\
  (hasMoreProducts s = true -> nextOffset s = length (products s)).

(** The quantity field shows a number in its range. *)
Definition in_range (max v : float) : Prop :=
  PrimFloat.leb 1%float v = true /\ PrimFloat.leb v max = true.

(** Sample data *)

(** A state in which the second page is on its way. *)
Definition scrolling : POSSystem string string :=
  fst (loadProducts_begin
         (fst (load_more_each [page_of eight_a 42 true] fresh)) load_more).

(** A server that confirms every order. *)
Definition confirming : Network string string :=
  {| fetch_products := fun _ _ _ _ => Rejected;
     fetch_cart := Rejected;
     post_cart_add := fun _ _ => Rejected;
     post_cart_update := fun _ _ => Rejected;
     post_cart_remove := fun _ => Rejected;
     post_cart_clear := Rejected;
     post_checkout := fun _ =>
       Resolved true
         (Some {| checkout_success := true;
                  order_id := "ORD-20260101-0007";
                  checkout_message := None |}) |}.

(** Subtotal 50.00, discount 5.00, delivery 3.00, 50.00 in cash. *)
Definition paid_form : CheckoutForm :=
  {| customer_name := "";
     customer_phone := "";
     customer_address := "";
     discount_amount := 5%float;
     delivery_fee := 3%float;
     print_size := "80mm";
     payment_method := "Cash";
     amount_received := 50%float;
     checkout_subtotal := 50%float |}.

(** A network behind the worker while the server cannot be reached:
    the requests of the page are answered with the status 503. *)
Definition answered_503 : Network string string :=
  {| fetch_products := fun _ _ _ _ => Resolved false None;
     fetch_cart := Resolved false None;
     post_cart_add := fun _ _ => Resolved false None;
     post_cart_update := fun _ _ => Resolved false None;
     post_cart_remove := fun _ => Resolved false None;
     post_cart_clear := Resolved false None;
     post_checkout := fun _ => Resolved false None |}.

(** The no-break space U+00A0 and the line separator U+2028. *)
Definition nbsp : string :=
  String (ascii_of_nat 194) (String (ascii_of_nat 160) EmptyString).

Definition line_separator : string :=
  String (ascii_of_nat 226)
    (String (ascii_of_nat 128) (String (ascii_of_nat 168) EmptyString)).

(** A mail server that accepts every message. *)
Definition accepting : EmailRequest string -> Outcome EmailResult :=
  fun _ => Resolved true
             (Some {| email_success := true; email_result_message := None |}).

End POSMoreSpec.

(** * Properties of the caching proxy *)

Module SWTheory.
Import SW SWSpec.

(** ** Lookup in the storage *)

Lemma caches_has_lookup (cs : CacheStorage) (name : string) :
  caches_has cs name = false -> caches_lookup cs name = None.
Proof.
  unfold caches_has, caches_lookup.
  induction cs as [|e cs IH]; simpl; [reflexivity|].
  destruct (fst e =? name); simpl; [discriminate|exact IH].
Qed.

Lemma caches_lookup_app (cs cs' : CacheStorage) (name : string) :
  caches_lookup (cs ++ cs') name =
  match caches_lookup cs name with
  | Some c => Some c
  | None => caches_lookup cs' name
  end.
Proof.
  unfold caches_lookup.
  induction cs as [|e cs IH]; simpl.
  - destruct (find _ cs'); reflexivity.
  - destruct (fst e =? name); [reflexivity|exact IH].
Qed.

Lemma entries_open (cs : CacheStorage) (name other : string) :
  entries (caches_open cs name) other = entries cs other.
Proof.
  unfold caches_open.
  destruct (caches_has cs name) eqn:E; [reflexivity|].
  unfold entries. rewrite caches_lookup_app.
  destruct (caches_lookup cs other) eqn:L; [reflexivity|].
  unfold caches_lookup; simpl.
  destruct (name =? other); reflexivity.
Qed.

Lemma handle_match_open (cs : CacheStorage) (name : string) (u : URL) :
  handle_match (caches_open cs name) name u = handle_match cs name u.
Proof.
  unfold caches_open.
  destruct (caches_has cs name) eqn:E; [reflexivity|].
  unfold handle_match. rewrite caches_lookup_app.
  rewrite (caches_has_lookup _ _ E).
  unfold caches_lookup; simpl. rewrite String.eqb_refl. reflexivity.
Qed.

Lemma caches_match_app (cs cs' : CacheStorage) (u : URL) :
  caches_match (cs ++ cs') u =
  match caches_match cs u with
  | Some r => Some r
  | None => caches_match cs' u
  end.
Proof.
  induction cs as [|[n c] cs IH]; simpl.
  - destruct (caches_match cs' u); reflexivity.
  - destruct (cache_match c u); [reflexivity|exact IH].
Qed.

Lemma caches_match_open (cs : CacheStorage) (name : string) (u : URL) :
  caches_match (caches_open cs name) u = caches_match cs u.
Proof.
  unfold caches_open.
  destruct (caches_has cs name); [reflexivity|].
  rewrite caches_match_app. simpl.
  destruct (caches_match cs u); reflexivity.
Qed.

(** A hit of [caches.match] is an entry of one of the caches. *)
Lemma caches_match_from_a_cache (cs : CacheStorage) (u : URL) (r : Response) :
  caches_match cs u = Some r ->
  exists e, In e cs /\ cache_match (snd e) u = Some r.
Proof.
  induction cs as [|[n c] cs IH]; simpl; [discriminate|].
  destruct (cache_match c u) eqn:E.
  - intros [= <-]. exists (n, c). split; [left; reflexivity|exact E].
  - intros H. destruct (IH H) as [e [He Hm]].
    exists e. split; [right; exact He|exact Hm].
Qed.

(** ** activate as a filter *)

Lemma filter_filter {A : Type} (f g : A -> bool) (l : list A) :
  filter f (filter g l) = filter (fun x => g x && f x) l.
Proof.
  induction l as [|x l IH]; simpl; [reflexivity|].
  destruct (g x); simpl; [destruct (f x)|]; rewrite ?IH; reflexivity.
Qed.

Lemma fold_caches_delete (names : list string) (cs : CacheStorage) :
  fold_left caches_delete names cs =
  filter (fun e => negb (existsb (String.eqb (fst e)) names)) cs.
Proof.
  revert cs.
  induction names as [|n names IH]; intros cs; simpl.
  - symmetry. apply forallb_filter_id. apply forallb_forall. reflexivity.
  - rewrite IH. unfold caches_delete. rewrite filter_filter.
    apply filter_ext. intros e. rewrite negb_orb. reflexivity.
Qed.

Lemma existsb_filter_mem (f : string -> bool) (l : list string) (x : string) :
  In x l -> existsb (String.eqb x) (filter f l) = f x.
Proof.
  intros Hin.
  destruct (f x) eqn:Fx.
  - apply existsb_exists. exists x. split.
    + apply filter_In. split; assumption.
    + apply String.eqb_refl.
  - destruct (existsb (String.eqb x) (filter f l)) eqn:E; [|reflexivity].
    apply existsb_exists in E. destruct E as [y [Hy Hxy]].
    apply String.eqb_eq in Hxy. subst y.
    apply filter_In in Hy. destruct Hy as [_ Hy]. congruence.
Qed.

Lemma activate_filter (cs : CacheStorage) :
  activate cs = filter (fun e => is_current (fst e)) cs.
Proof.
  unfold activate. rewrite fold_caches_delete.
  apply filter_ext_in. intros e He.
  rewrite existsb_filter_mem.
  - unfold is_current. rewrite negb_andb, !negb_involutive. reflexivity.
  - unfold caches_keys. apply in_map. exact He.
Qed.

Lemma caches_lookup_filter (f : string -> bool) (cs : CacheStorage)
    (name : string) :
  caches_lookup (filter (fun e => f (fst e)) cs) name =
  if f name then caches_lookup cs name else None.
Proof.
  unfold caches_lookup.
  induction cs as [|e cs IH]; simpl.
  - destruct (f name); reflexivity.
  - destruct (f (fst e)) eqn:Fe; simpl.
    + destruct (fst e =? name) eqn:En.
      * apply String.eqb_eq in En. rewrite <- En, Fe. reflexivity.
      * exact IH.
    + destruct (fst e =? name) eqn:En.
      * apply String.eqb_eq in En. rewrite <- En, Fe in *.
        rewrite IH. reflexivity.
      * exact IH.
Qed.

Lemma map_fst_filter (f : string -> bool) (cs : CacheStorage) :
  map fst (filter (fun e => f (fst e)) cs) = filter f (map fst cs).
Proof.
  induction cs as [|e cs IH]; simpl; [reflexivity|].
  destruct (f (fst e)); simpl; rewrite IH; reflexivity.
Qed.

(** ** What a put leaves in the cache *)

Lemma url_eqb_refl (u : URL) : url_eqb u u = true.
Proof. unfold url_eqb. rewrite !String.eqb_refl. reflexivity. Qed.

Lemma cache_match_put (c : Cache) (u : URL) (r : Response) :
  cache_match (cache_put c u r) u = Some r.
Proof.
  unfold cache_match, cache_put.
  induction c as [|e c IH]; simpl.
  - rewrite url_eqb_refl. reflexivity.
  - destruct (url_eqb (fst e) u) eqn:E; simpl; [exact IH|].
    rewrite E. exact IH.
Qed.

Lemma handle_match_put (cs : CacheStorage) (name : string) (u : URL)
    (r : Response) :
  caches_has cs name = true ->
  handle_match (handle_put cs name u r) name u = Some r.
Proof.
  unfold caches_has, handle_match, handle_put, caches_lookup.
  induction cs as [|e cs IH]; simpl; [discriminate|].
  destruct (fst e =? name) eqn:E; simpl.
  - intros _. rewrite E. simpl. apply cache_match_put.
  - intros H. rewrite E. apply IH. exact H.
Qed.

Lemma caches_has_open (cs : CacheStorage) (name : string) :
  caches_has (caches_open cs name) name = true.
Proof.
  unfold caches_open.
  destruct (caches_has cs name) eqn:E; [exact E|].
  unfold caches_has. rewrite existsb_app. simpl.
  rewrite String.eqb_refl, orb_true_r. reflexivity.
Qed.

(** A response that passes the test is in the partition afterwards. *)
Lemma cacheSuccessResponse_writes (cs : CacheStorage) (cacheName : string)
    (request : Request) (response : Response) :
  status response = 200%Z -> type response <> "error" ->
  handle_match (fst (cacheSuccessResponse cs cacheName request response))
    cacheName (url request) = Some response.
Proof.
  intros Hs Ht. unfold cacheSuccessResponse.
  rewrite Hs. apply String.eqb_neq in Ht. rewrite Ht. simpl.
  apply handle_match_put. apply caches_has_open.
Qed.

Lemma cacheSuccessResponse_skips (cs : CacheStorage) (cacheName : string)
    (request : Request) (response : Response) :
  status response <> 200%Z \/ type response = "error" ->
  cacheSuccessResponse cs cacheName request response = (cs, response).
Proof.
  intros H. unfold cacheSuccessResponse.
  destruct H as [H|H].
  - apply Z.eqb_neq in H. rewrite H. reflexivity.
  - rewrite H. rewrite orb_true_r. reflexivity.
Qed.

(** ** The properties of the design document *)

(** C1: when the fetch of a request rejects, the navigation handler
    returns the first that is there of: the cached copy of that request,
    the cached copy of the root, the cached offline page; and a network
    error response when none is.  The caches are left as they were.  The
    fetch listener answers a same-origin GET request of mode navigate
    with that response.  In particular, with all three in the cache the
    answer is the cached copy of the page itself. *)
Theorem navigation_fallback_order :
  forall (self_origin : string) (cs : CacheStorage) (net : Network)
         (request : Request),
    net request = None ->
    navigationHandler self_origin cs net request =
      (cs, first_available
             [ caches_match cs (url request);
               caches_match cs (local_url self_origin "/");
               caches_match cs (local_url self_origin OFFLINE_URL) ]
             Response_error) /\
    (method request = "GET" ->
     origin (url request) = self_origin ->
     mode request = "navigate" ->
     onfetch self_origin cs net request =
       (cs, RespondWith (Some
          (first_available
             [ caches_match cs (url request);
               caches_match cs (local_url self_origin "/");
               caches_match cs (local_url self_origin OFFLINE_URL) ]
             Response_error)))) /\
    (forall cachedPage homeFromCache offlinePage,
        caches_match cs (url request) = Some cachedPage ->
        caches_match cs (local_url self_origin "/") = Some homeFromCache ->
        caches_match cs (local_url self_origin OFFLINE_URL) = Some offlinePage ->
        navigationHandler self_origin cs net request = (cs, cachedPage)).
Proof.
  intros self_origin cs net request Hf.
  assert (Hnav : navigationHandler self_origin cs net request =
      (cs, first_available
             [ caches_match cs (url request);
               caches_match cs (local_url self_origin "/");
               caches_match cs (local_url self_origin OFFLINE_URL) ]
             Response_error)).
  { unfold navigationHandler. rewrite Hf. cbn [first_available].
    destruct (caches_match cs (url request)); [reflexivity|].
    destruct (caches_match cs (local_url self_origin "/")); [reflexivity|].
    destruct (caches_match cs (local_url self_origin OFFLINE_URL)); reflexivity. }
  split; [exact Hnav|]. split.
  - intros Hm Ho Hn. unfold onfetch.
    rewrite Hm, Ho, Hn, !String.eqb_refl. cbn [negb].
    rewrite Hnav. reflexivity.
  - intros cachedPage homeFromCache offlinePage Hp _ _.
    rewrite Hnav, Hp. reflexivity.
Qed.

Lemma navigation_fallback_order_witness :
  offline (navigate "/orders") = None /\
  caches_match seeded (local_url site "/") = Some (page "/") /\
  caches_match seeded (local_url site OFFLINE_URL) = Some (page OFFLINE_URL) /\
  navigationHandler site seeded offline (navigate "/orders") =
    (seeded, page "/orders").
Proof.
  split; [reflexivity|]. split; [reflexivity|]. split; [reflexivity|].
  exact (proj2 (proj2 (navigation_fallback_order site seeded offline
                         (navigate "/orders") eq_refl))
               (page "/orders") (page "/") (page OFFLINE_URL)
               eq_refl eq_refl eq_refl).
Defined.

(** The worker installs, takes over, and the network goes away: a page
    never seen is answered with the root that install put in the static
    partition. *)
Example navigation_after_install :
  snd (onfetch site (activate (fst (install site [] online))) offline
         (navigate "/unseen")) =
  RespondWith (Some (page "/")).
Proof. reflexivity. Qed.

(** The root when the page is not cached, the offline page when the root
    is not cached either, the error response when nothing is. *)
Example navigation_falls_back_to_root :
  snd (onfetch site seeded offline (navigate "/unseen")) =
  RespondWith (Some (page "/")).
Proof. reflexivity. Qed.

Example navigation_falls_back_to_offline_page :
  snd (onfetch site
         [(STATIC_CACHE, [(local_url site OFFLINE_URL, page OFFLINE_URL)])]
         offline (navigate "/unseen")) =
  RespondWith (Some (page OFFLINE_URL)).
Proof. reflexivity. Qed.

Example navigation_falls_back_to_error :
  snd (onfetch site [] offline (navigate "/unseen")) =
  RespondWith (Some Response_error).
Proof. reflexivity. Qed.

(** C4, as stated, fails: the listener tests the mode of the request
    before its path, so a navigation to a path under /api/ that cannot
    reach the network is answered from the cache. *)
Lemma api_path_alone_does_not_bypass_cache :
  ~ (forall (self_origin : string) (cs : CacheStorage) (net : Network)
            (request : Request),
        method request = "GET" ->
        origin (url request) = self_origin ->
        startsWith (pathname (url request)) "/api/" = true ->
        onfetch self_origin cs net request =
          (cs, RespondWith (Some
             match net request with
             | Some r => r
             | None => offlineJsonResponse "You are offline right now."
             end))).
Proof.
  intros H.
  specialize (H site seeded offline (navigate "/api/cart")
                eq_refl eq_refl eq_refl).
  vm_compute in H. discriminate H.
Qed.

(** The same request with the network up: the page it gets is stored in
    the runtime partition. *)
Example navigation_under_api_is_stored :
  handle_match
    (fst (onfetch site seeded (fun _ => Some (page "api")) (navigate "/api/cart")))
    RUNTIME_CACHE (local_url site "/api/cart") = Some (page "api").
Proof. reflexivity. Qed.

(** C4, amended: a same-origin GET request that is not a navigation and
    whose path starts with /api/ is answered with what the network
    answers, and with the synthesized 503 response when the fetch
    rejects; the answer does not depend on the caches and the caches are
    left as they were. *)
Theorem api_requests_bypass_cache :
  forall (self_origin : string) (cs : CacheStorage) (net : Network)
         (request : Request),
    method request = "GET" ->
    origin (url request) = self_origin ->
    mode request <> "navigate" ->
    startsWith (pathname (url request)) "/api/" = true ->
    onfetch self_origin cs net request =
      (cs, RespondWith (Some
         match net request with
         | Some r => r
         | None =>
             {| status := 503;
                type := "default";
                contentType := Some "application/json";
                body := with_dquotes
                  "{'success':false,'message':'You are offline right now.'}" |}
         end)).
Proof.
  intros self_origin cs net request Hm Ho Hn Hp.
  unfold onfetch. rewrite Hm, Ho, !String.eqb_refl. cbn [negb].
  apply String.eqb_neq in Hn. rewrite Hn, Hp.
  destruct (net request); reflexivity.
Qed.

Lemma api_requests_bypass_cache_witness :
  mode (get "/api/cart") <> "navigate" /\
  startsWith (pathname (url (get "/api/cart"))) "/api/" = true /\
  onfetch site seeded offline (get "/api/cart") =
    (seeded, RespondWith (Some
       {| status := 503;
          type := "default";
          contentType := Some "application/json";
          body := with_dquotes
            "{'success':false,'message':'You are offline right now.'}" |})).
Proof.
  assert (Hn : mode (get "/api/cart") <> "navigate") by discriminate.
  split; [exact Hn|]. split; [reflexivity|].
  exact (api_requests_bypass_cache site seeded offline (get "/api/cart")
           eq_refl eq_refl Hn eq_refl).
Defined.

(** C5: a response of the network that fails the test of
    [cacheSuccessResponse] (its status is not 200, or its type is error)
    is handed back by [cacheSuccessResponse] and written to no
    partition, whichever strategy captured it.  Network-first and the
    navigation handler return that response; stale-while-revalidate
    returns the cached copy when it has one and that response
    otherwise, and the only thing it does to the storage is to open the
    static partition. *)
Theorem unsuccessful_responses_are_not_written :
  forall (self_origin : string) (cs : CacheStorage) (net : Network)
         (request : Request) (response : Response),
    net request = Some response ->
    status response <> 200%Z \/ type response = "error" ->
    (forall cacheName,
        cacheSuccessResponse cs cacheName request response = (cs, response)) /\
    networkFirst self_origin cs net request = (cs, Some response) /\
    navigationHandler self_origin cs net request = (cs, response) /\
    staleWhileRevalidate cs net request =
      (caches_open cs STATIC_CACHE,
       match handle_match cs STATIC_CACHE (url request) with
       | Some cachedResponse => cachedResponse
       | None => response
       end) /\
    (forall name,
        entries (fst (staleWhileRevalidate cs net request)) name = entries cs name).
Proof.
  intros self_origin cs net request response Hf Hbad.
  assert (Hskip := fun c cacheName =>
            cacheSuccessResponse_skips c cacheName request response Hbad).
  assert (Hswr : staleWhileRevalidate cs net request =
      (caches_open cs STATIC_CACHE,
       match handle_match cs STATIC_CACHE (url request) with
       | Some cachedResponse => cachedResponse
       | None => response
       end)).
  { unfold staleWhileRevalidate. rewrite Hf, Hskip, handle_match_open.
    destruct (handle_match cs STATIC_CACHE (url request)); reflexivity. }
  split; [intros cacheName; apply Hskip|].
  split; [unfold networkFirst; rewrite Hf, Hskip; reflexivity|].
  split; [unfold navigationHandler; rewrite Hf, Hskip; reflexivity|].
  split; [exact Hswr|].
  intros name. rewrite Hswr. simpl. apply entries_open.
Qed.

Lemma unsuccessful_responses_are_not_written_witness :
  (status (mkResponse 404 "basic" None "missing") <> 200%Z \/
   type (mkResponse 404 "basic" None "missing") = "error") /\
  networkFirst site seeded
    (fun _ => Some (mkResponse 404 "basic" None "missing")) (get "/orders") =
    (seeded, Some (mkResponse 404 "basic" None "missing")).
Proof.
  assert (Hbad : status (mkResponse 404 "basic" None "missing") <> 200%Z \/
                 type (mkResponse 404 "basic" None "missing") = "error")
    by (left; discriminate).
  split; [exact Hbad|].
  exact (proj1 (proj2 (unsuccessful_responses_are_not_written site seeded
                         (fun _ => Some (mkResponse 404 "basic" None "missing"))
                         (get "/orders") _ eq_refl Hbad))).
Defined.

(** C6: after activate, the names of the storage are the former names
    that are the static or the runtime name, in their order; the
    partition of every other name is gone, and the partition of each of
    these two names is the one it was, entry for entry. *)
Theorem activate_keeps_current_partitions_only :
  forall (cs : CacheStorage),
    caches_keys (activate cs) =
      filter (fun name => (name =? STATIC_CACHE) || (name =? RUNTIME_CACHE))
             (caches_keys cs) /\
    (forall name,
        caches_lookup (activate cs) name =
        if (name =? STATIC_CACHE) || (name =? RUNTIME_CACHE)
        then caches_lookup cs name else None) /\
    (forall name,
        caches_has (activate cs) name =
        ((name =? STATIC_CACHE) || (name =? RUNTIME_CACHE)) && caches_has cs name).
Proof.
  intros cs. rewrite activate_filter.
  split; [apply (map_fst_filter is_current)|].
  split; [intros name; apply (caches_lookup_filter is_current)|].
  intros name. unfold caches_has.
  induction cs as [|e cs IH]; simpl.
  - rewrite andb_false_r. reflexivity.
  - fold (is_current name) in *. destruct (is_current (fst e)) eqn:Fe; simpl.
    + rewrite IH. destruct (fst e =? name) eqn:En; simpl.
      * apply String.eqb_eq in En. rewrite <- En, Fe. reflexivity.
      * reflexivity.
    + rewrite IH. destruct (fst e =? name) eqn:En; simpl.
      * apply String.eqb_eq in En. rewrite <- En, Fe. reflexivity.
      * reflexivity.
Qed.

Example activate_drops_old_version :
  activate (("bbs-pwa-v2-static", [(local_url site "/", page "old")])
            :: seeded ++ [("bbs-pwa-v2-runtime", [])]) = seeded.
Proof. reflexivity. Qed.

End SWTheory.

(** * Properties of the client data layer *)

Module POSTheory.
Import POS POSSpec.

(** ** escapeHtml, one character at a time *)

Lemma string_app_assoc (a b c : string) : ((a ++ b) ++ c = a ++ (b ++ c))%string.
Proof.
  induction a as [|x a IH]; simpl; [reflexivity|].
  rewrite IH. reflexivity.
Qed.

Lemma replace_all_app (c : ascii) (by_ s1 s2 : string) :
  replace_all c by_ (s1 ++ s2) = (replace_all c by_ s1 ++ replace_all c by_ s2)%string.
Proof.
  induction s1 as [|x s1 IH]; simpl; [reflexivity|].
  destruct (Ascii.eqb x c); rewrite IH.
  - rewrite string_app_assoc. reflexivity.
  - reflexivity.
Qed.

Lemma escapeHtml_cons (a : ascii) (s : string) :
  escapeHtml (Text (String a s)) = (escape_char a ++ escapeHtml (Text s))%string.
Proof.
  unfold escapeHtml, escape_char. cbn [String_of replace_all].
  destruct (Ascii.eqb a "&") eqn:E1.
  { rewrite !replace_all_app. reflexivity. }
  cbn [replace_all].
  destruct (Ascii.eqb a "<") eqn:E2.
  { rewrite !replace_all_app. reflexivity. }
  cbn [replace_all].
  destruct (Ascii.eqb a ">") eqn:E3.
  { rewrite !replace_all_app. reflexivity. }
  cbn [replace_all].
  destruct (Ascii.eqb a dquote) eqn:E4.
  { rewrite !replace_all_app. reflexivity. }
  cbn [replace_all].
  destruct (Ascii.eqb a "'") eqn:E5.
  { reflexivity. }
  reflexivity.
Qed.

Lemma escapeHtml_each (value : Value) :
  escapeHtml value = escape_each (String_of value).
Proof.
  destruct value as [|s]; [reflexivity|].
  cbn [String_of].
  induction s as [|a s IH]; [reflexivity|].
  rewrite escapeHtml_cons. cbn [escape_each]. rewrite <- IH. reflexivity.
Qed.

Lemma contains_char_app (c : ascii) (s1 s2 : string) :
  contains_char c (s1 ++ s2) = contains_char c s1 || contains_char c s2.
Proof.
  induction s1 as [|x s1 IH]; simpl; [reflexivity|].
  rewrite IH, orb_assoc. reflexivity.
Qed.

Lemma escape_char_clean (c a : ascii) :
  c = "<"%char \/ c = ">"%char \/ c = dquote \/ c = "'"%char ->
  contains_char c (escape_char a) = false.
Proof.
  intros Hc. unfold escape_char.
  destruct (Ascii.eqb a "&") eqn:E1;
    [destruct Hc as [->|[->|[->| ->]]]; reflexivity|].
  destruct (Ascii.eqb a "<") eqn:E2;
    [destruct Hc as [->|[->|[->| ->]]]; reflexivity|].
  destruct (Ascii.eqb a ">") eqn:E3;
    [destruct Hc as [->|[->|[->| ->]]]; reflexivity|].
  destruct (Ascii.eqb a dquote) eqn:E4;
    [destruct Hc as [->|[->|[->| ->]]]; reflexivity|].
  destruct (Ascii.eqb a "'") eqn:E5;
    [destruct Hc as [->|[->|[->| ->]]]; reflexivity|].
  cbn [contains_char]. rewrite orb_false_r.
  destruct Hc as [->|[->|[->| ->]]]; assumption.
Qed.

Lemma escape_each_clean (c : ascii) (s : string) :
  c = "<"%char \/ c = ">"%char \/ c = dquote \/ c = "'"%char ->
  contains_char c (escape_each s) = false.
Proof.
  intros Hc. induction s as [|a s IH]; [reflexivity|].
  cbn [escape_each]. rewrite contains_char_app, IH, escape_char_clean by exact Hc.
  reflexivity.
Qed.

(** Where an ampersand can be in a text that starts with a given
    character. *)
Lemma peel_other (c : ascii) (rest pre post : string) :
  c <> "&"%char ->
  String c rest = (pre ++ String "&" post)%string ->
  exists pre', pre = String c pre' /\ rest = (pre' ++ String "&" post)%string.
Proof.
  intros Hc H. destruct pre as [|p pre]; simpl in H.
  - injection H as Hcc _. contradiction.
  - injection H as -> H. exists pre. split; [reflexivity|exact H].
Qed.

Lemma peel_amp (rest pre post : string) :
  String "&" rest = (pre ++ String "&" post)%string ->
  (pre = EmptyString /\ post = rest) \/
  exists pre', pre = String "&" pre' /\ rest = (pre' ++ String "&" post)%string.
Proof.
  intros H. destruct pre as [|p pre]; simpl in H.
  - injection H as H. left. split; [reflexivity|symmetry; exact H].
  - injection H as <- H. right. exists pre. split; [reflexivity|exact H].
Qed.

Ltac peel_entity H :=
  repeat
    (apply peel_other in H; [|discriminate];
     let pre' := fresh "pre" in
     let E := fresh "E" in
     destruct H as [pre' [E H]]).

Lemma escape_each_ampersands (s : string) :
  forall pre post,
    escape_each s = (pre ++ String "&" post)%string ->
    at_entity (String "&" post) = true.
Proof.
  induction s as [|a s IH]; intros pre post H.
  - destruct pre; discriminate H.
  - cbn [escape_each] in H. unfold escape_char in H.
    destruct (Ascii.eqb a "&") eqn:E1.
    { cbn [append] in H. apply peel_amp in H.
      destruct H as [[_ ->]|[pre1 [_ H]]]; [reflexivity|].
      peel_entity H. exact (IH _ _ H). }
    destruct (Ascii.eqb a "<") eqn:E2.
    { cbn [append] in H. apply peel_amp in H.
      destruct H as [[_ ->]|[pre1 [_ H]]]; [reflexivity|].
      peel_entity H. exact (IH _ _ H). }
    destruct (Ascii.eqb a ">") eqn:E3.
    { cbn [append] in H. apply peel_amp in H.
      destruct H as [[_ ->]|[pre1 [_ H]]]; [reflexivity|].
      peel_entity H. exact (IH _ _ H). }
    destruct (Ascii.eqb a dquote) eqn:E4.
    { cbn [append] in H. apply peel_amp in H.
      destruct H as [[_ ->]|[pre1 [_ H]]]; [reflexivity|].
      peel_entity H. exact (IH _ _ H). }
    destruct (Ascii.eqb a "'") eqn:E5.
    { cbn [append] in H. apply peel_amp in H.
      destruct H as [[_ ->]|[pre1 [_ H]]]; [reflexivity|].
      peel_entity H. exact (IH _ _ H). }
    cbn [append] in H. apply peel_other in H.
    + destruct H as [pre1 [_ H]]. exact (IH _ _ H).
    + apply Ascii.eqb_neq. exact E1.
Qed.

(** C10: whatever value [escapeHtml] is given, its result contains none
    of the characters <, >, double quote and single quote, and at every
    place of the result where an ampersand stands, one of the five
    character references &amp; &lt; &gt; &quot; &#39; starts. *)
Theorem escapeHtml_result_has_no_markup :
  forall (value : Value),
    contains_char "<" (escapeHtml value) = false /\
    contains_char ">" (escapeHtml value) = false /\
    contains_char dquote (escapeHtml value) = false /\
    contains_char "'" (escapeHtml value) = false /\
    (forall pre post,
        escapeHtml value = (pre ++ String "&" post)%string ->
        at_entity (String "&" post) = true).
Proof.
  intros value. rewrite escapeHtml_each.
  repeat split; try (apply escape_each_clean; tauto).
  apply escape_each_ampersands.
Qed.

Example escapeHtml_of_a_tag :
  escapeHtml (Text (with_dquotes "<a href='x'>Q&A</a>")) =
  "&lt;a href=&quot;x&quot;&gt;Q&amp;A&lt;/a&gt;".
Proof. reflexivity. Qed.

Example escapeHtml_of_an_entity :
  escapeHtml (Text "&lt;") = "&amp;lt;".
Proof. reflexivity. Qed.

Example escapeHtml_of_undefined : escapeHtml Nullish = "".
Proof. reflexivity. Qed.

Section Catalog.

Context {Product CartItem : Type}.

Local Abbreviation State := (POSSystem Product CartItem).
Local Abbreviation Answer := (Outcome (ProductsPayload Product)).

(** ** Writing to the page leaves the data alone *)

Lemma renderProducts_dom (ps : list Product) (r : bool) (s : State) :
  renderProducts ps r s = set_dom (dom (renderProducts ps r s)) s.
Proof.
  unfold renderProducts.
  destruct ((length ps =? 0)%nat && r); [reflexivity|].
  destruct r; reflexivity.
Qed.

(** ** One incremental load *)

Lemma loadProducts_begin_sends (s : State) :
  isFetchingProducts s = false ->
  hasMoreProducts s = true ->
  loadProducts_begin s load_more =
    (setProductsLoadStatus StatusLoadingMore (set_isFetchingProducts true s),
     Some (products_request s)).
Proof.
  intros Hf Hm. unfold loadProducts_begin. rewrite Hf, Hm. reflexivity.
Qed.

Lemma loadProducts_settle_page (s : State) (out : Answer)
    (incoming : list Product) :
  received out = Some incoming ->
  let s' := loadProducts_settle load_more out s in
  nextOffset s' = nextOffset s + length incoming /\
  products s' = products s ++ incoming /\
  hasMoreProducts s' = more_after out /\
  isFetchingProducts s' = false /\
  productPageSize s' = productPageSize s /\
  currentQuery s' = currentQuery s /\
  currentCategory s' = currentCategory s.
Proof.
  intros Hr.
  destruct out as [|[|] [payload|]]; try discriminate Hr.
  simpl in Hr. unfold loadProducts_settle. rewrite Hr.
  unfold loadProducts_success. simpl.
  rewrite renderProducts_dom. simpl.
  destruct (has_more payload); [repeat split|].
  destruct (length (products s ++ incoming) =? 0)%nat; repeat split.
Qed.

Lemma products_request_ext (s s' : State) (off : nat) :
  productPageSize s' = productPageSize s ->
  currentQuery s' = currentQuery s ->
  currentCategory s' = currentCategory s ->
  products_request (set_nextOffset off s') =
  products_request (set_nextOffset off s).
Proof.
  intros Hp Hq Hc. unfold products_request. simpl.
  rewrite Hp, Hq, Hc. reflexivity.
Qed.

(** ** A sequence of incremental loads *)

Lemma load_more_each_pages (outs : list Answer) :
  forall (s : State),
    isFetchingProducts s = false ->
    hasMoreProducts s = true ->
    all_loaded outs = true ->
    nextOffset (fst (load_more_each outs s)) =
      nextOffset s + list_sum (map (fun out => length (page_items out)) outs) /\
    products (fst (load_more_each outs s)) =
      products s ++ concat (map page_items outs) /\
    snd (load_more_each outs s) =
      map (fun off => products_request (set_nextOffset off s))
          (offsets_from (nextOffset s)
             (map (fun out => length (page_items out)) outs)).
Proof.
  induction outs as [|out rest IH]; intros s Hf Hm Hall.
  - simpl. rewrite Nat.add_0_r, app_nil_r. repeat split.
  - simpl in Hall.
    apply andb_prop in Hall. destruct Hall as [Hall Hrest].
    apply andb_prop in Hall. destruct Hall as [Hout Hmore].
    destruct (received out) as [incoming|] eqn:Hr; [clear Hout|discriminate].
    cbn [load_more_each]. rewrite (loadProducts_begin_sends s Hf Hm).
    set (s0 := setProductsLoadStatus StatusLoadingMore
                 (set_isFetchingProducts true s)).
    pose proof (loadProducts_settle_page s0 out incoming Hr) as Hs.
    cbv zeta in Hs.
    set (s1 := loadProducts_settle load_more out s0) in *.
    destruct Hs as [Hn [Hp [Hh [Hi [Hz [Hq Hc]]]]]].
    change (nextOffset s0) with (nextOffset s) in Hn.
    change (products s0) with (products s) in Hp.
    change (productPageSize s0) with (productPageSize s) in Hz.
    change (currentQuery s0) with (currentQuery s) in Hq.
    change (currentCategory s0) with (currentCategory s) in Hc.
    assert (Hitems : page_items out = incoming)
      by (unfold page_items; rewrite Hr; reflexivity).
    destruct rest as [|out' rest'].
    + cbn [load_more_each fst snd map list_sum fold_right concat offsets_from].
      rewrite Hitems, Hn, Hp, Nat.add_0_r, app_nil_r. repeat split.
    + rewrite Hmore in Hh.
      remember (out' :: rest') as rest eqn:Erest. clear Erest.
      destruct (IH s1 Hi Hh Hrest) as [IHn [IHp IHt]].
      destruct (load_more_each rest s1) as [s2 t] eqn:E.
      cbn [fst snd] in *.
      cbn [map concat offsets_from].
      rewrite Hitems.
      split; [rewrite IHn, Hn; unfold list_sum; cbn [fold_right]; lia|].
      split; [rewrite IHp, Hp, <- app_assoc; reflexivity|].
      change (products_request s)
        with (products_request (set_nextOffset (nextOffset s) s)).
      apply (f_equal (cons _)).
      rewrite IHt, Hn.
      apply map_ext. intros off. apply products_request_ext; assumption.
Qed.

(** ** The load in flight *)

Lemma loadProducts_settle_clears_flag (o : LoadOptions) (out : Answer)
    (s : State) :
  isFetchingProducts (loadProducts_settle o out s) = false.
Proof.
  unfold loadProducts_settle.
  destruct (negb (silent o)); reflexivity.
Qed.

(** A call that is not dropped sets the flag and sends one request. *)
Lemma loadProducts_begin_sets_flag (s s1 : State) (o : LoadOptions)
    (r : ApiRequest) :
  loadProducts_begin s o = (s1, Some r) ->
  isFetchingProducts s = false /\ isFetchingProducts s1 = true.
Proof.
  unfold loadProducts_begin.
  destruct (isFetchingProducts s); [discriminate|].
  destruct (negb (reset o) && negb (hasMoreProducts s)); [discriminate|].
  intros [= <- _]. split; [reflexivity|].
  destruct (negb (silent o)), (reset o); reflexivity.
Qed.

(** ** A load that fails *)

Lemma loadProducts_settle_failed (o : LoadOptions) (out : Answer) (s : State) :
  received out = None ->
  loadProducts_settle o out s =
  (if negb (silent o) then showLoading false else fun x => x)
    (set_isFetchingProducts false (loadProducts_failure o s)).
Proof.
  intros Hr. unfold loadProducts_settle.
  destruct out as [|[|] [payload|]]; simpl in *;
    try destruct (items payload); try discriminate Hr;
    destruct (negb (silent o)); reflexivity.
Qed.


(** C3: while a load is in flight, a call of [loadProducts], whatever
    its arguments, returns at once: it sends no request and the state
    after it is the state before it.  This lasts until the load in
    flight settles, which clears the flag. *)
Theorem loadProducts_is_dropped_while_fetching :
  forall (s : State) (o : LoadOptions),
    isFetchingProducts s = true ->
    loadProducts_begin s o = (s, None) /\
    (forall net, loadProducts s o net = (s, [])) /\
    (forall o' out, isFetchingProducts (loadProducts_settle o' out s) = false).
Proof.
  intros s o Hf.
  assert (Hb : loadProducts_begin s o = (s, None))
    by (unfold loadProducts_begin; rewrite Hf; reflexivity).
  split; [exact Hb|].
  split; [intros net; unfold loadProducts; rewrite Hb; reflexivity|].
  intros o' out. apply loadProducts_settle_clears_flag.
Qed.

(** C9: a reset load whose request fails (the fetch rejects, the answer
    is not OK, or its body has no array of items).  With a snapshot in
    the local storage at that moment the product list becomes the
    snapshot, the total count its length, [hasMoreProducts] false, and
    the page shows the snapshot with the offline status; with no
    snapshot the list is left as it is (empty, after the reset) and the
    page shows the error notification and the error status.  The flag is
    clear again afterwards.  This holds for the state [s] in which the
    failure arrives, and so for a whole call from an idle state, which
    sends one request first. *)
Theorem reset_failure_falls_back_to_snapshot :
  forall (s : State) (o : LoadOptions),
    reset o = true ->
    (forall (out : Answer),
        received out = None ->
        let s' := loadProducts_settle o out s in
        match cached_products (localStorage s) with
        | Some snapshot =>
            products s' = snapshot /\
            catalogTotalCount s' = Z.of_nat (length snapshot) /\
            hasMoreProducts s' = false /\
            load_status (dom s') = Some StatusCached /\
            grid (dom s') = match snapshot with
                            | [] => [EmptyState]
                            | _ => map (@Card Product) snapshot
                            end
        | None =>
            products s' = products s /\
            notification (dom s') =
              Some {| note := Msg "Failed to load products"; kind := "error" |} /\
            load_status (dom s') = Some StatusUnable /\
            status_state StatusUnable = "error"
        end /\
        isFetchingProducts s' = false) /\
    (forall (net : Network Product CartItem),
        isFetchingProducts s = false ->
        (forall off lim q c, received (fetch_products net off lim q c) = None) ->
        let s' := fst (loadProducts s o net) in
        match cached_products (localStorage s) with
        | Some snapshot =>
            products s' = snapshot /\
            catalogTotalCount s' = Z.of_nat (length snapshot) /\
            hasMoreProducts s' = false
        | None =>
            products s' = [] /\
            notification (dom s') =
              Some {| note := Msg "Failed to load products"; kind := "error" |} /\
            load_status (dom s') = Some StatusUnable
        end /\
        length (snd (loadProducts s o net)) = 1).
Proof.
  intros s o Hr.
  assert (Hsettle : forall (x : State) (out : Answer),
    received out = None ->
    let s' := loadProducts_settle o out x in
    match cached_products (localStorage x) with
    | Some snapshot =>
        products s' = snapshot /\
        catalogTotalCount s' = Z.of_nat (length snapshot) /\
        hasMoreProducts s' = false /\
        load_status (dom s') = Some StatusCached /\
        grid (dom s') = match snapshot with
                        | [] => [EmptyState]
                        | _ => map (@Card Product) snapshot
                        end
    | None =>
        products s' = products x /\
        notification (dom s') =
          Some {| note := Msg "Failed to load products"; kind := "error" |} /\
        load_status (dom s') = Some StatusUnable /\
        status_state StatusUnable = "error"
    end /\
    isFetchingProducts s' = false).
  { intros x out Hout. cbv zeta.
    rewrite loadProducts_settle_failed by exact Hout.
    unfold loadProducts_failure. rewrite Hr.
    destruct (cached_products (localStorage x)) as [snapshot|].
    - unfold renderProducts.
      destruct (silent o), snapshot; simpl; repeat split.
    - destruct (silent o); simpl; repeat split. }
  split; [exact (Hsettle s)|].
  intros net Hf Hnet. cbv zeta.
  unfold loadProducts, loadProducts_begin.
  rewrite Hf, Hr. cbn [negb andb]. cbv zeta.
  unfold products_request. cbn [fst snd length].
  split; [|reflexivity].
  match goal with
  | |- context [loadProducts_settle o ?out ?x] =>
      pose proof (Hsettle x out (Hnet _ _ _ _)) as Hx;
      cbv zeta in Hx;
      assert (Hls : localStorage x = localStorage s)
        by (destruct (negb (silent o)); reflexivity);
      assert (Hps : products x = [])
        by (destruct (negb (silent o)); reflexivity);
      rewrite Hls, Hps in Hx
  end.
  destruct (cached_products (localStorage s)) as [snapshot|].
  - destruct Hx as [[Hp [Hc [Hm _]]] _]. repeat split; assumption.
  - destruct Hx as [[Hp [Hn [Hl _]]] _]. repeat split; assumption.
Qed.

(** ** A reset load and the incremental loads after it *)

Lemma loadProducts_reset_page (s : State) (o : LoadOptions) (out : Answer)
    (incoming : list Product) :
  isFetchingProducts s = false ->
  reset o = true ->
  received out = Some incoming ->
  let s' := loadProducts_settle o out (fst (loadProducts_begin s o)) in
  snd (loadProducts_begin s o) = Some (products_request (set_nextOffset 0 s)) /\
  nextOffset s' = length incoming /\
  products s' = incoming /\
  hasMoreProducts s' = more_after out /\
  isFetchingProducts s' = false.
Proof.
  intros Hf Hr Hout. cbv zeta.
  unfold loadProducts_begin. rewrite Hf, Hr. cbn [negb andb fst snd].
  split; [destruct (negb (silent o)); reflexivity|].
  destruct out as [|[|] [payload|]]; try discriminate Hout.
  simpl in Hout. unfold loadProducts_settle. rewrite Hout.
  unfold loadProducts_success. rewrite Hr. rewrite renderProducts_dom.
  destruct (silent o); simpl;
    (destruct (has_more payload); [repeat split|]);
    destruct (length incoming =? 0)%nat; repeat split.
Qed.

End Catalog.

(** ** Amounts *)

(** A number above zero is not zero. *)
Lemma positive_is_not_zero (y : float) :
  PrimFloat.ltb 0%float y = true -> PrimFloat.eqb y 0%float = false.
Proof.
  rewrite ltb_spec, FloatAxioms.eqb_spec.
  change (Prim2SF 0%float) with (S754_zero false).
  destruct (Prim2SF y) as [sg|sg| |sg m e]; try destruct sg; cbn; congruence.
Qed.

(** [Math.max(0, y)] that is a number is shown as it is: it is not
    [-0], and [x || 0] changes nothing else. *)
Lemma or_zero_Math_max (y : float) :
  PrimFloat.is_nan (Math_max 0%float y) = false ->
  or_zero (Math_max 0%float y) = Math_max 0%float y.
Proof.
  unfold Math_max.
  change (PrimFloat.is_nan 0%float) with false.
  change (PrimFloat.is_zero 0%float && PrimFloat.get_sign 0%float) with false.
  cbn [orb].
  destruct (PrimFloat.is_nan y) eqn:Ey.
  - intros H. vm_compute in H. discriminate H.
  - intros _.
    destruct (PrimFloat.ltb 0%float y) eqn:El.
    + unfold or_zero. rewrite Ey, (positive_is_not_zero y El). reflexivity.
    + destruct (PrimFloat.ltb y 0%float); reflexivity.
Qed.

Section Cart.

Context {Product CartItem : Type} {lines : CartLine CartItem}.

Local Abbreviation State := (POSSystem Product CartItem).

(** C7: when [Math.max(0, subtotal - discount + delivery)] is a number,
    it is the total that [updateTotals] shows; and a checkout paid in
    cash with less received than that total ends before any request is
    sent, with an error notification and nothing else changed (with an
    empty cart the notification is the one of the empty cart). *)
Theorem checkout_total_and_cash_guard :
  forall (f : CheckoutForm),
    PrimFloat.is_nan (finalTotal f) = false ->
    shown_total (updateTotals f) =
      Math_max 0%float
        (PrimFloat.add
           (PrimFloat.sub (or_zero (checkout_subtotal f))
                          (or_zero (discount_amount f)))
           (or_zero (delivery_fee f))) /\
    (forall (s : State) (now : string) (net : Network Product CartItem),
        payment_method f = "Cash" ->
        PrimFloat.ltb (or_zero (amount_received f)) (finalTotal f) = true ->
        checkout s f now net =
          (showNotification
             (Msg (if (length (cart s) =? 0)%nat then "Cart is empty"
                   else "Amount received is less than total"))
             "error" s,
           [])).
Proof.
  intros f Hnan. split.
  - unfold updateTotals. cbn [shown_total]. unfold setCheckoutTotal.
    apply or_zero_Math_max. exact Hnan.
  - intros s now net Hcash Hlt. unfold checkout.
    destruct (length (cart s) =? 0)%nat; [reflexivity|].
    cbv zeta. rewrite Hcash, String.eqb_refl.
    unfold finalTotal in Hlt. rewrite Hlt. reflexivity.
Qed.

(** ** Cart mutations *)

Lemma loadCart_requests (net : Network Product CartItem) (s : State) :
  snd (loadCart net s) = [GetCart].
Proof.
  unfold loadCart.
  destruct (fetch_cart net) as [|[|] [c|]]; reflexivity.
Qed.


Example clearCart_without_cart_array :
  cart (fst (clearCart with_cart server_without_cart)) = [] /\
  snd (clearCart with_cart server_without_cart) = [PostCartClear] /\
  cart (fst (loadCart server_without_cart with_cart)) = ["serum x1"].
Proof. vm_compute. repeat split. Qed.

(** A cart that [renderCart] cannot render: the line's [total_price] is
    a text, the sum becomes a text and [toFixed] throws.  The new cart
    stays, the local storage keeps the cart of before, and the
    notification is the one of the [catch] block. *)
Example update_that_cannot_be_rendered :
  updateCartQuantity one_line "p-1" 3 server_with_text_price =
    (showNotification (Msg "Error updating cart") "error"
       (set_cart [Line "toner" KString] one_line),
     [PostCartUpdate "p-1" 3]) /\
  stored_cart (localStorage
                 (fst (updateCartQuantity one_line "p-1" 3
                         server_with_text_price))) =
    Some [Line "toner" KNumber].
Proof. vm_compute. split; reflexivity. Qed.

(** ** A mutation that the server confirms, one case at a time *)

Ltac confirmed_mutation Hs Hok :=
  cbn [mutate request_of answer_to needs_http_ok renders] in *;
  unfold updateCartQuantity, addToCart, removeFromCart, clearCart;
  try match goal with
      | |- context [(?q <=? 0)%Z] => destruct (q <=? 0)%Z
      end;
  match goal with
  | |- context [match ?out with Rejected => _ | Resolved _ _ => _ end] =>
      destruct out as [|ok [r|]]
  end;
  try discriminate Hs;
  cbn [reports_success http_ok] in *;
  match goal with
  | res : MutationResult _ |- _ => destruct (success res)
  end;
  try discriminate Hs;
  injection Hs as ->;
  try rewrite (Hok eq_refl);
  cbn [negb orb].


End Cart.


Lemma loadProducts_is_dropped_while_fetching_witness :
  isFetchingProducts waiting = true /\
  loadProducts waiting {| reset := true; silent := true |} unreachable
    = (waiting, []).
Proof.
  split; [reflexivity|].
  exact (proj1 (proj2 (loadProducts_is_dropped_while_fetching waiting
                         {| reset := true; silent := true |} eq_refl))
               unreachable).
Defined.

Lemma reset_failure_falls_back_to_snapshot_witness :
  products (fst (loadProducts with_snapshot {| reset := true; silent := false |}
                   unreachable)) = ["serum"; "toner"] /\
  catalogTotalCount
    (fst (loadProducts with_snapshot {| reset := true; silent := false |}
            unreachable)) = 2%Z /\
  hasMoreProducts
    (fst (loadProducts with_snapshot {| reset := true; silent := false |}
            unreachable)) = false.
Proof.
  destruct (proj2 (reset_failure_falls_back_to_snapshot with_snapshot
                     {| reset := true; silent := false |} eq_refl)
                  unreachable eq_refl (fun _ _ _ _ => eq_refl))
    as [[Hp [Hc Hm]] _].
  split; [exact Hp|]. split; [exact Hc|exact Hm].
Defined.

(** A first page of 8 and a last page of 3: the cursor stands at 11, not
    at twice the page size, and a third call sends nothing. *)
Example partial_last_page :
  let pages := [page_of eight_a 11 true; page_of ["c1"; "c2"; "c3"] 11 false;
                page_of eight_b 11 true] in
  nextOffset (fst (load_more_each pages fresh)) = 11 /\
  length (products (fst (load_more_each pages fresh))) = 11 /\
  hasMoreProducts (fst (load_more_each pages fresh)) = false /\
  snd (load_more_each pages fresh) =
    [GetProductsLazy 0 8 None None; GetProductsLazy 8 8 None None].
Proof. vm_compute. repeat split. Qed.

(** The first load of [init] is a reset load; the sentinel then asks for
    the next page at offset 8. *)
Example reset_then_more :
  let first := loadProducts_settle {| reset := true; silent := false |}
                 (page_of eight_a 42 true)
                 (fst (loadProducts_begin fresh {| reset := true; silent := false |})) in
  nextOffset first = 8 /\
  loadProducts_begin first load_more =
    (setProductsLoadStatus StatusLoadingMore (set_isFetchingProducts true first),
     Some (GetProductsLazy 8 8 None None)) /\
  nextOffset (fst (load_more_each [page_of eight_b 42 true] first)) = 16 /\
  products (fst (load_more_each [page_of eight_b 42 true] first)) =
    (eight_a ++ eight_b)%list.
Proof. vm_compute. repeat split. Qed.

(** The snapshot is written by the scheduled callback, with the list of
    the moment it runs. *)
Example snapshot_after_a_page :
  cached_products (localStorage (saveSnapshot
    (fst (load_more_each [page_of eight_a 8 false] fresh)))) = Some eight_a.
Proof. reflexivity. Qed.

(** With nothing in the local storage the same load ends in the error
    state. *)
Example reset_failure_without_snapshot :
  dom (fst (loadProducts fresh {| reset := true; silent := true |} unreachable)) =
  {| loading := false;
     load_status := Some StatusUnable;
     grid := [];
     title := None;
     notification :=
       Some {| note := Msg "Failed to load products"; kind := "error" |} |}.
Proof. reflexivity. Qed.

(** A discount above the subtotal: the total stops at zero. *)
Example total_is_floored_at_zero :
  shown_total (updateTotals
    {| customer_name := ""; customer_phone := ""; customer_address := "";
       discount_amount := 60%float; delivery_fee := 3%float;
       print_size := "80mm"; payment_method := "Card";
       amount_received := PrimFloat.nan; checkout_subtotal := 50%float |})
  = 0%float.
Proof. reflexivity. Qed.

(** With enough cash the order goes to the server; its answer empties
    the cart and leaves the order for the invoice. *)
Example checkout_with_enough_cash :
  let form :=
    {| customer_name := "  "; customer_phone := ""; customer_address := "";
       discount_amount := 5%float; delivery_fee := 3%float;
       print_size := "80mm"; payment_method := "Cash";
       amount_received := 50%float; checkout_subtotal := 50%float |} in
  let server :=
    {| fetch_products := fun _ _ _ _ => Rejected;
       fetch_cart := Rejected;
       post_cart_add := fun _ _ => Rejected;
       post_cart_update := fun _ _ => Rejected;
       post_cart_remove := fun _ => Rejected;
       post_cart_clear := Rejected;
       post_checkout := fun _ =>
         Resolved true
           (Some {| checkout_success := true;
                    order_id := "ORD-20260101-0007";
                    checkout_message := None |}) |} in
  let after := fst (checkout with_cart form "2026-01-01T00:00:00.000Z" server) in
  cart after = [] /\
  stored_cart (localStorage after) = Some [] /\
  option_map (fun o => (o_customer_name o, o_invoice_number o, o_items o))
             (lastOrder after) =
    Some ("Walk-in Customer", "INV-20260101-0007", ["toner x2"]) /\
  option_map (fun o => (o_total o, o_change o)) (lastOrder after) =
    Some (48%float, 2%float).
Proof. vm_compute. repeat split. Qed.

(** The scenario of the design document: 50.00 - 5.00 + 3.00 is 48.00,
    and 40.00 in cash is refused. *)
Lemma checkout_total_and_cash_guard_witness :
  PrimFloat.is_nan (finalTotal cash_form) = false /\
  shown_total (updateTotals cash_form) = 48%float /\
  checkout with_cart cash_form "2026-01-01T00:00:00.000Z" unreachable =
    (showNotification (Msg "Amount received is less than total") "error"
       with_cart, []).
Proof.
  destruct (checkout_total_and_cash_guard (Product := string)
              (CartItem := string) cash_form eq_refl) as [Ht Hc].
  split; [reflexivity|].
  split; [exact Ht|].
  exact (Hc with_cart "2026-01-01T00:00:00.000Z" unreachable eq_refl eq_refl).
Defined.


End POSTheory.

(** * More properties of the caching proxy *)

Module SWExtra.
Import SW SWSpec SWMore SWTheory.

(** ** Equality of URLs and entries of one cache *)

Lemma url_eqb_eq (a b : URL) : url_eqb a b = true <-> a = b.
Proof.
  split.
  - unfold url_eqb. intros H.
    apply andb_prop in H. destruct H as [H Hs].
    apply andb_prop in H. destruct H as [Ho Hp].
    apply String.eqb_eq in Ho, Hp, Hs.
    destruct a, b; simpl in *; congruence.
  - intros ->. apply url_eqb_refl.
Qed.

Lemma cache_match_put_other (c : Cache) (u v : URL) (r : Response) :
  url_eqb u v = false ->
  cache_match (cache_put c u r) v = cache_match c v.
Proof.
  intros Huv. unfold cache_match, cache_put.
  induction c as [|e c IH]; simpl.
  - rewrite Huv. reflexivity.
  - destruct (url_eqb (fst e) u) eqn:Eu; simpl.
    + apply url_eqb_eq in Eu. rewrite Eu, Huv. exact IH.
    + destruct (url_eqb (fst e) v); [reflexivity|exact IH].
Qed.

(** ** Partitions of the storage under open and put *)

Lemma caches_lookup_open_other (cs : CacheStorage) (name other : string) :
  other <> name ->
  caches_lookup (caches_open cs name) other = caches_lookup cs other.
Proof.
  intros Hn. unfold caches_open.
  destruct (caches_has cs name); [reflexivity|].
  rewrite caches_lookup_app.
  destruct (caches_lookup cs other); [reflexivity|].
  unfold caches_lookup. simpl.
  destruct (name =? other) eqn:E; [|reflexivity].
  apply String.eqb_eq in E. congruence.
Qed.

Lemma caches_lookup_put (cs : CacheStorage) (name other : string) (u : URL)
    (r : Response) :
  caches_lookup (handle_put cs name u r) other =
  if other =? name
  then option_map (fun c => cache_put c u r) (caches_lookup cs name)
  else caches_lookup cs other.
Proof.
  unfold caches_lookup, handle_put.
  induction cs as [|e cs IH]; simpl.
  - destruct (other =? name); reflexivity.
  - destruct (fst e =? name) eqn:En; simpl.
    + destruct (fst e =? other) eqn:Eo.
      * apply String.eqb_eq in En, Eo. subst.
        rewrite String.eqb_refl. reflexivity.
      * rewrite IH. destruct (other =? name) eqn:E; [|reflexivity].
        apply String.eqb_eq in En, E. subst.
        rewrite String.eqb_refl in Eo. discriminate Eo.
    + destruct (fst e =? other) eqn:Eo.
      * apply String.eqb_eq in Eo. subst other. rewrite En. reflexivity.
      * exact IH.
Qed.

Lemma caches_has_put (cs : CacheStorage) (name other : string) (u : URL)
    (r : Response) :
  caches_has (handle_put cs name u r) other = caches_has cs other.
Proof.
  unfold caches_has, handle_put.
  induction cs as [|e cs IH]; simpl; [reflexivity|].
  rewrite IH. destruct (fst e =? name); reflexivity.
Qed.

Lemma caches_open_has (cs : CacheStorage) (name : string) :
  caches_has cs name = true -> caches_open cs name = cs.
Proof. intros H. unfold caches_open. rewrite H. reflexivity. Qed.

Lemma caches_open_open (cs : CacheStorage) (name : string) :
  caches_open (caches_open cs name) name = caches_open cs name.
Proof. apply caches_open_has. apply caches_has_open. Qed.

Lemma caches_match_put_other (cs : CacheStorage) (name : string) (u v : URL)
    (r : Response) :
  url_eqb u v = false ->
  caches_match (handle_put cs name u r) v = caches_match cs v.
Proof.
  intros Huv. unfold handle_put.
  induction cs as [|[n c] cs IH]; simpl; [reflexivity|].
  destruct (n =? name); simpl.
  - rewrite cache_match_put_other by exact Huv.
    destruct (cache_match c v); [reflexivity|exact IH].
  - destruct (cache_match c v); [reflexivity|exact IH].
Qed.

Lemma caches_match_put_same (cs : CacheStorage) (name : string) (u : URL)
    (r : Response) :
  caches_has cs name = true ->
  caches_match (handle_put cs name u r) u =
  match caches_match (partitions_before name cs) u with
  | Some older => Some older
  | None => Some r
  end.
Proof.
  unfold caches_has, handle_put.
  induction cs as [|[n c] cs IH]; simpl; [discriminate|].
  destruct (n =? name); simpl.
  - intros _. rewrite cache_match_put. reflexivity.
  - intros H. destruct (cache_match c u); [reflexivity|exact (IH H)].
Qed.

Lemma partitions_before_absent (cs : CacheStorage) (name : string) :
  caches_has cs name = false -> partitions_before name cs = cs.
Proof.
  unfold caches_has.
  induction cs as [|e cs IH]; simpl; [reflexivity|].
  destruct (fst e =? name); simpl; [discriminate|].
  intros H. rewrite (IH H). reflexivity.
Qed.

Lemma partitions_before_app (cs cs' : CacheStorage) (name : string) :
  caches_has cs name = false ->
  partitions_before name (cs ++ cs') = cs ++ partitions_before name cs'.
Proof.
  unfold caches_has.
  induction cs as [|e cs IH]; simpl; [reflexivity|].
  destruct (fst e =? name); simpl; [discriminate|].
  intros H. rewrite (IH H). reflexivity.
Qed.

Lemma partitions_before_open (cs : CacheStorage) (name : string) :
  partitions_before name (caches_open cs name) = partitions_before name cs.
Proof.
  unfold caches_open.
  destruct (caches_has cs name) eqn:E; [reflexivity|].
  rewrite partitions_before_app by exact E.
  rewrite (partitions_before_absent _ _ E).
  simpl. rewrite String.eqb_refl. apply app_nil_r.
Qed.

Lemma handle_match_caches_match (cs : CacheStorage) (name : string) (u : URL)
    (r : Response) :
  handle_match cs name u = Some r -> exists r', caches_match cs u = Some r'.
Proof.
  unfold handle_match, caches_lookup.
  induction cs as [|[n c] cs IH]; simpl; [discriminate|].
  destruct (n =? name); simpl.
  - intros H. rewrite H. exists r. reflexivity.
  - intros H. destruct (cache_match c u) as [x|]; [exists x; reflexivity|].
    exact (IH H).
Qed.

(** ** What a strategy does to the storage *)

Lemma cacheSuccessResponse_touched (cs : CacheStorage) (name : string)
    (request : Request) (response : Response) :
  touched name cs (fst (cacheSuccessResponse cs name request response)).
Proof.
  unfold cacheSuccessResponse.
  destruct (negb (status response =? 200)%Z || (type response =? "error")).
  - left. reflexivity.
  - right. right. exists (url request), response. reflexivity.
Qed.

Lemma staleWhileRevalidate_touched (cs : CacheStorage) (net : Network)
    (request : Request) :
  touched STATIC_CACHE cs (fst (staleWhileRevalidate cs net request)).
Proof.
  unfold staleWhileRevalidate.
  destruct (net request) as [response|].
  - pose proof (cacheSuccessResponse_touched (caches_open cs STATIC_CACHE)
                  STATIC_CACHE request response) as H.
    destruct (cacheSuccessResponse (caches_open cs STATIC_CACHE) STATIC_CACHE
                request response) as [cs' r].
    cbn [fst] in H.
    assert (Hfst : touched STATIC_CACHE cs cs').
    { destruct H as [->|[->|[u [x ->]]]].
      - right. left. reflexivity.
      - right. left. apply caches_open_open.
      - right. right. exists u, x. rewrite caches_open_open. reflexivity. }
    destruct (handle_match (caches_open cs STATIC_CACHE) STATIC_CACHE (url request));
      exact Hfst.
  - destruct (handle_match (caches_open cs STATIC_CACHE) STATIC_CACHE (url request));
      right; left; reflexivity.
Qed.

Lemma networkFirst_touched (self_origin : string) (cs : CacheStorage)
    (net : Network) (request : Request) :
  touched RUNTIME_CACHE cs (fst (networkFirst self_origin cs net request)).
Proof.
  unfold networkFirst.
  destruct (net request) as [response|].
  - pose proof (cacheSuccessResponse_touched cs RUNTIME_CACHE request response) as H.
    destruct (cacheSuccessResponse cs RUNTIME_CACHE request response) as [cs' r].
    exact H.
  - destruct (handle_match (caches_open cs RUNTIME_CACHE) RUNTIME_CACHE (url request));
      right; left; reflexivity.
Qed.

Lemma navigationHandler_touched (self_origin : string) (cs : CacheStorage)
    (net : Network) (request : Request) :
  touched RUNTIME_CACHE cs (fst (navigationHandler self_origin cs net request)).
Proof.
  unfold navigationHandler.
  destruct (net request) as [response|].
  - pose proof (cacheSuccessResponse_touched cs RUNTIME_CACHE request response) as H.
    destruct (cacheSuccessResponse cs RUNTIME_CACHE request response) as [cs' r].
    exact H.
  - destruct (caches_match cs (url request)); [left; reflexivity|].
    destruct (caches_match cs (local_url self_origin "/")); [left; reflexivity|].
    destruct (caches_match cs (local_url self_origin OFFLINE_URL));
      left; reflexivity.
Qed.

Lemma onfetch_touched (self_origin : string) (cs : CacheStorage) (net : Network)
    (request : Request) :
  touched STATIC_CACHE cs (fst (onfetch self_origin cs net request)) \/
  touched RUNTIME_CACHE cs (fst (onfetch self_origin cs net request)).
Proof.
  unfold onfetch.
  destruct (negb (method request =? "GET")); [left; left; reflexivity|].
  destruct (negb (origin (url request) =? self_origin));
    [left; left; reflexivity|].
  destruct (mode request =? "navigate").
  { right. pose proof (navigationHandler_touched self_origin cs net request) as H.
    destruct (navigationHandler self_origin cs net request). exact H. }
  destruct (startsWith (pathname (url request)) "/api/");
    [left; left; reflexivity|].
  destruct (startsWith (pathname (url request)) "/static/"
            || (pathname (url request) =? "/manifest.webmanifest")).
  { left. pose proof (staleWhileRevalidate_touched cs net request) as H.
    destruct (staleWhileRevalidate cs net request). exact H. }
  right. pose proof (networkFirst_touched self_origin cs net request) as H.
  destruct (networkFirst self_origin cs net request). exact H.
Qed.

Lemma touched_other_partition (name other : string) (cs cs' : CacheStorage) :
  touched name cs cs' -> other <> name ->
  caches_lookup cs' other = caches_lookup cs other.
Proof.
  intros [->|[->|[u [r ->]]]] Hn.
  - reflexivity.
  - apply caches_lookup_open_other. exact Hn.
  - rewrite caches_lookup_put.
    apply String.eqb_neq in Hn. rewrite Hn.
    apply caches_lookup_open_other. apply String.eqb_neq. exact Hn.
Qed.

Lemma touched_keeps_hits (name : string) (cs cs' : CacheStorage) (v : URL)
    (r0 : Response) :
  touched name cs cs' -> caches_match cs v = Some r0 ->
  exists r1, caches_match cs' v = Some r1.
Proof.
  intros [->|[->|[u [r ->]]]] Hv.
  - exists r0. exact Hv.
  - exists r0. rewrite caches_match_open. exact Hv.
  - destruct (url_eqb u v) eqn:E.
    + apply url_eqb_eq in E. subst v.
      rewrite caches_match_put_same by apply caches_has_open.
      destruct (caches_match (partitions_before name (caches_open cs name)) u)
        as [older|]; [exists older|exists r]; reflexivity.
    + exists r0. rewrite caches_match_put_other by exact E.
      rewrite caches_match_open. exact Hv.
Qed.

(** ** Single entries after the strategies *)

Lemma staleWhileRevalidate_storage (cs : CacheStorage) (net : Network)
    (request : Request) (response : Response) :
  net request = Some response ->
  fst (staleWhileRevalidate cs net request) =
  fst (cacheSuccessResponse (caches_open cs STATIC_CACHE) STATIC_CACHE
         request response).
Proof.
  intros Hf. unfold staleWhileRevalidate. rewrite Hf.
  destruct (cacheSuccessResponse (caches_open cs STATIC_CACHE) STATIC_CACHE
              request response) as [cs' r].
  destruct (handle_match (caches_open cs STATIC_CACHE) STATIC_CACHE (url request));
    reflexivity.
Qed.

Lemma cacheSuccessResponse_storage (cs : CacheStorage) (name : string)
    (request : Request) (response : Response) :
  status response = 200%Z -> type response <> "error" ->
  fst (cacheSuccessResponse cs name request response) =
  handle_put (caches_open cs name) name (url request) response.
Proof.
  intros Hs Ht. unfold cacheSuccessResponse.
  rewrite Hs. apply String.eqb_neq in Ht. rewrite Ht. reflexivity.
Qed.

(** ** install *)

Lemma fold_put_has (l : list (URL * Response)) :
  forall (cs : CacheStorage) (name other : string),
    caches_has
      (fold_left (fun acc e => handle_put acc name (fst e) (snd e)) l cs) other =
    caches_has cs other.
Proof.
  induction l as [|e l IH]; intros cs name other; simpl; [reflexivity|].
  rewrite IH. apply caches_has_put.
Qed.

Lemma handle_match_put_other (cs : CacheStorage) (name : string) (u v : URL)
    (r : Response) :
  url_eqb u v = false ->
  handle_match (handle_put cs name u r) name v = handle_match cs name v.
Proof.
  intros Huv. unfold handle_match. rewrite caches_lookup_put, String.eqb_refl.
  destruct (caches_lookup cs name) as [c|]; simpl; [|reflexivity].
  apply cache_match_put_other. exact Huv.
Qed.

Lemma fold_put_other (l : list (URL * Response)) :
  forall (cs : CacheStorage) (name : string) (v : URL),
    ~ In v (map fst l) ->
    handle_match
      (fold_left (fun acc e => handle_put acc name (fst e) (snd e)) l cs) name v =
    handle_match cs name v.
Proof.
  induction l as [|e l IH]; intros cs name v Hv; simpl; [reflexivity|].
  rewrite IH by (intros H; apply Hv; right; exact H).
  apply handle_match_put_other.
  destruct (url_eqb (fst e) v) eqn:E; [|reflexivity].
  apply url_eqb_eq in E. exfalso. apply Hv. left. exact E.
Qed.

Lemma fold_put_match (l : list (URL * Response)) :
  forall (cs : CacheStorage) (name : string) (u : URL) (r : Response),
    caches_has cs name = true ->
    NoDup (map fst l) ->
    In (u, r) l ->
    handle_match
      (fold_left (fun acc e => handle_put acc name (fst e) (snd e)) l cs) name u =
    Some r.
Proof.
  induction l as [|e l IH]; intros cs name u r Hhas Hnd Hin; [contradiction|].
  simpl in *. inversion Hnd as [|x xs Hx Hnd']; subst.
  destruct Hin as [->|Hin].
  - simpl in *. rewrite fold_put_other by exact Hx.
    apply handle_match_put. exact Hhas.
  - apply IH; [rewrite caches_has_put; exact Hhas|exact Hnd'|exact Hin].
Qed.

Lemma fetch_all_urls (self_origin : string) (net : Network) (paths : list string) :
  forall l, fetch_all self_origin net paths = Some l ->
            map fst l = map (local_url self_origin) paths.
Proof.
  induction paths as [|p paths IH]; intros l H; simpl in H.
  - injection H as <-. reflexivity.
  - destruct (net _) as [r|]; [|discriminate].
    destruct (ok r && negb (status r =? 206)%Z); [|discriminate].
    destruct (fetch_all self_origin net paths) as [l'|]; [|discriminate].
    injection H as <-. simpl. rewrite (IH l' eq_refl). reflexivity.
Qed.

Lemma fetch_all_answers (self_origin : string) (net : Network)
    (paths : list string) :
  forall l p, fetch_all self_origin net paths = Some l -> In p paths ->
    exists r, net (precache_request self_origin p) = Some r /\
              ok r = true /\ In (local_url self_origin p, r) l.
Proof.
  induction paths as [|q paths IH]; intros l p H Hin; [contradiction|].
  simpl in H.
  destruct (net {| method := "GET"; mode := "cors";
                   url := local_url self_origin q |}) as [r|] eqn:Hq;
    [|discriminate].
  destruct (ok r) eqn:Hok; [|discriminate].
  destruct (negb (status r =? 206)%Z); [|discriminate].
  cbn [andb] in H.
  destruct (fetch_all self_origin net paths) as [l'|]; [|discriminate].
  injection H as <-.
  destruct Hin as [->|Hin].
  - exists r. split; [exact Hq|]. split; [exact Hok|left; reflexivity].
  - destruct (IH l' p eq_refl Hin) as [x [Hx [Hxok Hxin]]].
    exists x. split; [exact Hx|]. split; [exact Hxok|right; exact Hxin].
Qed.

Lemma local_url_injective (self_origin p q : string) :
  local_url self_origin p = local_url self_origin q -> p = q.
Proof. intros H. injection H as H. exact H. Qed.

Lemma NoDup_map_local_url (self_origin : string) (paths : list string) :
  NoDup paths -> NoDup (map (local_url self_origin) paths).
Proof.
  induction 1 as [|p paths Hp Hnd IH]; simpl; constructor; [|exact IH].
  intros Hin. apply in_map_iff in Hin. destruct Hin as [q [Hq Hin]].
  apply local_url_injective in Hq. subst q. exact (Hp Hin).
Qed.

Lemma NoDup_PRECACHE_URLS : NoDup PRECACHE_URLS.
Proof.
  unfold PRECACHE_URLS, OFFLINE_URL.
  repeat (constructor; [simpl; intuition discriminate|]). constructor.
Qed.

Lemma install_precached (self_origin : string) (cs : CacheStorage)
    (net : Network) (p : string) :
  snd (install self_origin cs net) = true ->
  In p PRECACHE_URLS ->
  exists r,
    net (precache_request self_origin p) = Some r /\ ok r = true /\
    handle_match (fst (install self_origin cs net)) STATIC_CACHE
      (local_url self_origin p) = Some r.
Proof.
  unfold install. intros Hok Hin.
  destruct (fetch_all self_origin net PRECACHE_URLS) as [l|] eqn:Hl;
    [|discriminate Hok].
  destruct (fetch_all_answers self_origin net PRECACHE_URLS l p Hl Hin)
    as [r [Hr [Hrok Hrin]]].
  exists r. split; [exact Hr|]. split; [exact Hrok|].
  cbn [fst]. apply fold_put_match.
  - apply caches_has_open.
  - rewrite (fetch_all_urls self_origin net PRECACHE_URLS l Hl).
    apply NoDup_map_local_url. exact NoDup_PRECACHE_URLS.
  - exact Hrin.
Qed.

(** ** The properties *)

(** X1: answering a request, the fetch listener changes no partition
    but the static and the runtime one: any other partition, of an
    older version say, is neither created, nor written, nor removed. *)
Theorem onfetch_leaves_other_partitions :
  forall (self_origin : string) (cs : CacheStorage) (net : Network)
         (request : Request) (name : string),
    name <> STATIC_CACHE ->
    name <> RUNTIME_CACHE ->
    caches_lookup (fst (onfetch self_origin cs net request)) name =
    caches_lookup cs name.
Proof.
  intros self_origin cs net request name Hs Hr.
  destruct (onfetch_touched self_origin cs net request) as [H|H].
  - exact (touched_other_partition _ _ _ _ H Hs).
  - exact (touched_other_partition _ _ _ _ H Hr).
Qed.

Lemma onfetch_leaves_other_partitions_witness :
  "bbs-pwa-v2-static" <> STATIC_CACHE /\
  "bbs-pwa-v2-static" <> RUNTIME_CACHE /\
  caches_lookup
    (fst (onfetch site (("bbs-pwa-v2-static", [(local_url site "/", page "old")])
                        :: seeded)
            online (navigate "/orders")))
    "bbs-pwa-v2-static" = Some [(local_url site "/", page "old")].
Proof.
  assert (H1 : "bbs-pwa-v2-static" <> STATIC_CACHE) by discriminate.
  assert (H2 : "bbs-pwa-v2-static" <> RUNTIME_CACHE) by discriminate.
  split; [exact H1|]. split; [exact H2|].
  exact (onfetch_leaves_other_partitions site
           (("bbs-pwa-v2-static", [(local_url site "/", page "old")]) :: seeded)
           online (navigate "/orders") "bbs-pwa-v2-static" H1 H2).
Defined.

(** X2: the fetch listener never makes a cached URL unavailable: a URL
    that [caches.match] finds before the request is handled is found
    afterwards, whatever the request and whatever the network answers. *)
Theorem onfetch_keeps_cached_urls :
  forall (self_origin : string) (cs : CacheStorage) (net : Network)
         (request : Request) (u : URL) (r0 : Response),
    caches_match cs u = Some r0 ->
    exists r1, caches_match (fst (onfetch self_origin cs net request)) u = Some r1.
Proof.
  intros self_origin cs net request u r0 Hu.
  destruct (onfetch_touched self_origin cs net request) as [H|H];
    exact (touched_keeps_hits _ _ _ _ _ H Hu).
Qed.

Lemma onfetch_keeps_cached_urls_witness :
  caches_match seeded (local_url site "/orders") = Some (page "/orders") /\
  exists r1,
    caches_match
      (fst (onfetch site seeded (fun _ => Some (page "new")) (navigate "/orders")))
      (local_url site "/orders") = Some r1.
Proof.
  split; [reflexivity|].
  exact (onfetch_keeps_cached_urls site seeded (fun _ => Some (page "new"))
           (navigate "/orders") (local_url site "/orders") (page "/orders")
           eq_refl).
Defined.

(** X3: stale-while-revalidate after a 200 answer: the static partition
    holds that answer under the URL of the request, and the next call
    for the same request returns it, whatever the network does then
    (down, or up with a newer answer). *)
Theorem staleWhileRevalidate_serves_what_it_stored :
  forall (cs : CacheStorage) (net : Network) (request : Request)
         (response : Response),
    net request = Some response ->
    status response = 200%Z ->
    type response <> "error" ->
    handle_match (fst (staleWhileRevalidate cs net request)) STATIC_CACHE
      (url request) = Some response /\
    (forall net',
        snd (staleWhileRevalidate (fst (staleWhileRevalidate cs net request))
               net' request) = response).
Proof.
  intros cs net request response Hf Hs Ht.
  rewrite (staleWhileRevalidate_storage cs net request response Hf).
  rewrite (cacheSuccessResponse_storage _ _ request response Hs Ht).
  rewrite caches_open_open.
  set (cs1 := handle_put (caches_open cs STATIC_CACHE) STATIC_CACHE
                (url request) response).
  assert (Hhas : caches_has cs1 STATIC_CACHE = true)
    by (unfold cs1; rewrite caches_has_put; apply caches_has_open).
  assert (Hm : handle_match cs1 STATIC_CACHE (url request) = Some response)
    by (apply handle_match_put; apply caches_has_open).
  split; [exact Hm|].
  intros net'. unfold staleWhileRevalidate.
  rewrite (caches_open_has _ _ Hhas), Hm.
  destruct (net' request) as [newer|]; [|reflexivity].
  destruct (cacheSuccessResponse cs1 STATIC_CACHE request newer). reflexivity.
Qed.

Lemma staleWhileRevalidate_serves_what_it_stored_witness :
  type (page "css") <> "error" /\
  snd (staleWhileRevalidate
         (fst (staleWhileRevalidate [] (fun _ => Some (page "css"))
                 (get "/static/style.css")))
         offline (get "/static/style.css")) = page "css".
Proof.
  assert (Ht : type (page "css") <> "error") by discriminate.
  split; [exact Ht|].
  exact (proj2 (staleWhileRevalidate_serves_what_it_stored []
                  (fun _ => Some (page "css")) (get "/static/style.css")
                  (page "css") eq_refl eq_refl Ht) offline).
Defined.

(** X4: network-first after a 200 answer stores it in the runtime
    partition, and when the network is down at the next call for the
    same request that stored answer is returned. *)
Theorem networkFirst_falls_back_to_what_it_stored :
  forall (self_origin : string) (cs : CacheStorage) (net net' : Network)
         (request : Request) (response : Response),
    net request = Some response ->
    status response = 200%Z ->
    type response <> "error" ->
    net' request = None ->
    snd (networkFirst self_origin
           (fst (networkFirst self_origin cs net request)) net' request) =
    Some response.
Proof.
  intros self_origin cs net net' request response Hf Hs Ht Hf'.
  assert (H1 : fst (networkFirst self_origin cs net request) =
               handle_put (caches_open cs RUNTIME_CACHE) RUNTIME_CACHE
                 (url request) response).
  { unfold networkFirst. rewrite Hf.
    rewrite <- (cacheSuccessResponse_storage cs RUNTIME_CACHE request response Hs Ht).
    destruct (cacheSuccessResponse cs RUNTIME_CACHE request response).
    reflexivity. }
  rewrite H1. unfold networkFirst. rewrite Hf'.
  rewrite handle_match_open.
  rewrite handle_match_put by apply caches_has_open.
  reflexivity.
Qed.

Lemma networkFirst_falls_back_to_what_it_stored_witness :
  type (page "report") <> "error" /\
  snd (networkFirst site
         (fst (networkFirst site [] (fun _ => Some (page "report"))
                 (get "/report")))
         offline (get "/report")) = Some (page "report").
Proof.
  assert (Ht : type (page "report") <> "error") by discriminate.
  split; [exact Ht|].
  exact (networkFirst_falls_back_to_what_it_stored site []
           (fun _ => Some (page "report")) offline (get "/report")
           (page "report") eq_refl eq_refl Ht eq_refl).
Defined.

(** X5: a navigation that got a 200 answer, then the same navigation
    with the network down.  The second one is answered with a copy of
    that URL held by a partition created before the runtime partition
    when there is one, and with the answer of the first navigation
    otherwise: the copy that install put into the static partition wins
    over the page seen last. *)
Theorem navigation_offline_after_online :
  forall (self_origin : string) (cs : CacheStorage) (net net' : Network)
         (request : Request) (response : Response),
    net request = Some response ->
    status response = 200%Z ->
    type response <> "error" ->
    net' request = None ->
    snd (navigationHandler self_origin
           (fst (navigationHandler self_origin cs net request)) net' request) =
    match caches_match (partitions_before RUNTIME_CACHE cs) (url request) with
    | Some older => older
    | None => response
    end.
Proof.
  intros self_origin cs net net' request response Hf Hs Ht Hf'.
  assert (H1 : fst (navigationHandler self_origin cs net request) =
               handle_put (caches_open cs RUNTIME_CACHE) RUNTIME_CACHE
                 (url request) response).
  { unfold navigationHandler. rewrite Hf.
    rewrite <- (cacheSuccessResponse_storage cs RUNTIME_CACHE request response Hs Ht).
    destruct (cacheSuccessResponse cs RUNTIME_CACHE request response).
    reflexivity. }
  rewrite H1. unfold navigationHandler. rewrite Hf'.
  rewrite caches_match_put_same by apply caches_has_open.
  rewrite partitions_before_open.
  destruct (caches_match (partitions_before RUNTIME_CACHE cs) (url request));
    reflexivity.
Qed.

Lemma navigation_offline_after_online_witness :
  type (page "home of today") <> "error" /\
  snd (navigationHandler site
         (fst (navigationHandler site seeded
                 (fun _ => Some (page "home of today")) (navigate "/")))
         offline (navigate "/")) = page "/".
Proof.
  assert (Ht : type (page "home of today") <> "error") by discriminate.
  split; [exact Ht|].
  exact (navigation_offline_after_online site seeded
           (fun _ => Some (page "home of today")) offline (navigate "/")
           (page "home of today") eq_refl eq_refl Ht eq_refl).
Defined.

(** X6: an install that succeeds leaves every URL of the manifest in the
    static partition, with the answer the network gave for it, and that
    answer is OK. *)
Theorem install_precaches_the_manifest :
  forall (self_origin : string) (cs : CacheStorage) (net : Network) (p : string),
    snd (install self_origin cs net) = true ->
    In p PRECACHE_URLS ->
    exists r,
      net (precache_request self_origin p) = Some r /\
      ok r = true /\
      handle_match (fst (install self_origin cs net)) STATIC_CACHE
        (local_url self_origin p) = Some r.
Proof.
  intros self_origin cs net p. apply install_precached.
Qed.

Lemma install_precaches_the_manifest_witness :
  snd (install site [] online) = true /\
  In OFFLINE_URL PRECACHE_URLS /\
  exists r,
    online (precache_request site OFFLINE_URL) = Some r /\
    ok r = true /\
    handle_match (fst (install site [] online)) STATIC_CACHE
      (local_url site OFFLINE_URL) = Some r.
Proof.
  assert (Hin : In OFFLINE_URL PRECACHE_URLS) by (right; left; reflexivity).
  split; [reflexivity|]. split; [exact Hin|].
  exact (install_precaches_the_manifest site [] online OFFLINE_URL eq_refl Hin).
Defined.

(** X7: an install that fails (one URL of the manifest cannot be
    fetched, or is answered with a status that is not OK) writes
    nothing: every partition has the entries it had, the static one is
    at most created empty. *)
Theorem failed_install_writes_nothing :
  forall (self_origin : string) (cs : CacheStorage) (net : Network)
         (name : string),
    snd (install self_origin cs net) = false ->
    fst (install self_origin cs net) = caches_open cs STATIC_CACHE /\
    entries (fst (install self_origin cs net)) name = entries cs name.
Proof.
  intros self_origin cs net name. unfold install.
  destruct (fetch_all self_origin net PRECACHE_URLS); [discriminate|].
  intros _. split; [reflexivity|apply entries_open].
Qed.

Lemma failed_install_writes_nothing_witness :
  snd (install site seeded offline) = false /\
  fst (install site seeded offline) = caches_open seeded STATIC_CACHE /\
  entries (fst (install site seeded offline)) STATIC_CACHE =
  entries seeded STATIC_CACHE.
Proof.
  split; [reflexivity|].
  exact (failed_install_writes_nothing site seeded offline STATIC_CACHE eq_refl).
Defined.

(** X8: once the worker has installed and activated, a navigation with
    the network down is answered with the cached copy of the page, and
    with the cached root when the page is not cached: the offline page
    and the error response are not reached. *)
Theorem installed_worker_answers_navigation :
  forall (self_origin : string) (cs : CacheStorage) (net net' : Network)
         (request : Request),
    snd (install self_origin cs net) = true ->
    net' request = None ->
    exists home,
      caches_match (activate (fst (install self_origin cs net)))
        (local_url self_origin "/") = Some home /\
      navigationHandler self_origin
        (activate (fst (install self_origin cs net))) net' request =
      (activate (fst (install self_origin cs net)),
       match caches_match (activate (fst (install self_origin cs net)))
               (url request) with
       | Some cachedPage => cachedPage
       | None => home
       end).
Proof.
  intros self_origin cs net net' request Hok Hf.
  destruct (install_precached self_origin cs net "/" Hok (or_introl eq_refl))
    as [r [_ [_ Hr]]].
  set (cs1 := fst (install self_origin cs net)) in *.
  assert (Hact : handle_match (activate cs1) STATIC_CACHE
                   (local_url self_origin "/") = Some r).
  { unfold handle_match in *. rewrite activate_filter.
    rewrite (caches_lookup_filter is_current). exact Hr. }
  destruct (handle_match_caches_match _ _ _ _ Hact) as [home Hhome].
  exists home. split; [exact Hhome|].
  unfold navigationHandler. rewrite Hf, Hhome.
  destruct (caches_match (activate cs1) (url request)); reflexivity.
Qed.

Lemma installed_worker_answers_navigation_witness :
  snd (install site [] online) = true /\
  exists home,
    caches_match (activate (fst (install site [] online)))
      (local_url site "/") = Some home /\
    navigationHandler site (activate (fst (install site [] online))) offline
      (navigate "/unseen") =
    (activate (fst (install site [] online)),
     match caches_match (activate (fst (install site [] online)))
             (url (navigate "/unseen")) with
     | Some cachedPage => cachedPage
     | None => home
     end).
Proof.
  split; [reflexivity|].
  exact (installed_worker_answers_navigation site [] online offline
           (navigate "/unseen") eq_refl eq_refl).
Defined.

(** X9: the fetch listener answers with [undefined] in one case only: a
    request of the default route (same origin, GET, no navigation, not
    under /api/ or /static/, not the manifest) whose fetch rejects, with
    no copy in the runtime partition and no offline page in any
    partition.  Every other request it takes gets a response. *)
Theorem onfetch_answers_undefined_only_when :
  forall (self_origin : string) (cs : CacheStorage) (net : Network)
         (request : Request),
    snd (onfetch self_origin cs net request) = RespondWith None <->
    default_route self_origin request = true /\
    net request = None /\
    handle_match cs RUNTIME_CACHE (url request) = None /\
    caches_match cs (local_url self_origin OFFLINE_URL) = None.
Proof.
  intros self_origin cs net request.
  unfold onfetch, default_route.
  destruct (method request =? "GET"); cbn [negb andb];
    [|split; [discriminate|intros [H _]; discriminate H]].
  destruct (origin (url request) =? self_origin); cbn [negb andb];
    [|split; [discriminate|intros [H _]; discriminate H]].
  destruct (mode request =? "navigate"); cbn [negb andb].
  { destruct (navigationHandler self_origin cs net request).
    split; [discriminate|intros [H _]; discriminate H]. }
  destruct (startsWith (pathname (url request)) "/api/"); cbn [negb andb];
    [split; [discriminate|intros [H _]; discriminate H]|].
  destruct (startsWith (pathname (url request)) "/static/"
            || (pathname (url request) =? "/manifest.webmanifest"));
    cbn [negb andb].
  { destruct (staleWhileRevalidate cs net request).
    split; [discriminate|intros [H _]; discriminate H]. }
  unfold networkFirst.
  destruct (net request) as [response|].
  { destruct (cacheSuccessResponse cs RUNTIME_CACHE request response).
    split; [discriminate|intros [_ [H _]]; discriminate H]. }
  rewrite handle_match_open, caches_match_open.
  destruct (handle_match cs RUNTIME_CACHE (url request)) as [c|]; cbn [snd].
  { split; [discriminate|intros [_ [_ [H _]]]; discriminate H]. }
  destruct (caches_match cs (local_url self_origin OFFLINE_URL)) as [o|].
  { split; [discriminate|intros [_ [_ [_ H]]]; discriminate H]. }
  split; [intros _; repeat split|reflexivity].
Qed.

(** X10: after activate, whatever [caches.match] finds is an entry of a
    partition that carries the static or the runtime name: no response
    of an older version is served from the cache any more. *)
Theorem activate_leaves_current_copies_only :
  forall (cs : CacheStorage) (u : URL) (r : Response),
    caches_match (activate cs) u = Some r ->
    exists name c,
      In (name, c) cs /\
      (name = STATIC_CACHE \/ name = RUNTIME_CACHE) /\
      cache_match c u = Some r.
Proof.
  intros cs u r H. rewrite activate_filter in H.
  destruct (caches_match_from_a_cache _ _ _ H) as [[name c] [Hin Hm]].
  apply filter_In in Hin. destruct Hin as [Hin Hcur].
  exists name, c. split; [exact Hin|]. split; [|exact Hm].
  unfold is_current in Hcur. cbn [fst] in Hcur.
  apply orb_prop in Hcur.
  destruct Hcur as [E|E]; apply String.eqb_eq in E; [left|right]; exact E.
Qed.

Lemma activate_leaves_current_copies_only_witness :
  caches_match
    (activate (("bbs-pwa-v2-static", [(local_url site "/old", page "old")])
               :: seeded))
    (local_url site "/orders") = Some (page "/orders") /\
  exists name c,
    In (name, c)
       (("bbs-pwa-v2-static", [(local_url site "/old", page "old")]) :: seeded) /\
    (name = STATIC_CACHE \/ name = RUNTIME_CACHE) /\
    cache_match c (local_url site "/orders") = Some (page "/orders").
Proof.
  split; [reflexivity|].
  exact (activate_leaves_current_copies_only
           (("bbs-pwa-v2-static", [(local_url site "/old", page "old")]) :: seeded)
           (local_url site "/orders") (page "/orders") eq_refl).
Defined.

(** An answer with the status 206 makes [cache.addAll] reject: the
    worker is not installed and nothing is written. *)
Example install_rejects_partial_content :
  install site []
    (fun _ => Some {| status := 206; type := "basic";
                      contentType := Some "text/html"; body := "part" |}) =
  ([(STATIC_CACHE, [])], false).
Proof. reflexivity. Qed.

End SWExtra.

(** * More properties of the client data layer *)

Module POSExtra.
Import POS POSSpec POSMore POSMoreSpec POSTheory.

Section Catalog.

Context {Product CartItem : Type}.

Local Abbreviation State := (POSSystem Product CartItem).
Local Abbreviation Answer := (Outcome (ProductsPayload Product)).

(** ** Calls of loadProducts that send a request *)

Lemma loadProducts_more (s : State) (net : Network Product CartItem) :
  isFetchingProducts s = false ->
  hasMoreProducts s = true ->
  loadProducts s load_more net =
  (loadProducts_settle load_more
     (fetch_products net (nextOffset s) (productPageSize s)
        (if negb (trim (currentQuery s) =? "") then Some (trim (currentQuery s))
         else None)
        (if negb (currentCategory s =? "") && negb (currentCategory s =? "all")
         then Some (currentCategory s) else None))
     (setProductsLoadStatus StatusLoadingMore (set_isFetchingProducts true s)),
   [products_request s]).
Proof.
  intros Hf Hm. unfold loadProducts.
  rewrite (loadProducts_begin_sends s Hf Hm).
  unfold products_request. reflexivity.
Qed.

Lemma loadProducts_reset (s : State) (o : LoadOptions)
    (net : Network Product CartItem) :
  isFetchingProducts s = false ->
  reset o = true ->
  loadProducts s o net =
  (loadProducts_settle o
     (fetch_products net 0 (productPageSize s)
        (if negb (trim (currentQuery s) =? "") then Some (trim (currentQuery s))
         else None)
        (if negb (currentCategory s =? "") && negb (currentCategory s =? "all")
         then Some (currentCategory s) else None))
     (fst (loadProducts_begin s o)),
   [products_request (set_nextOffset 0 s)]).
Proof.
  intros Hf Hr. unfold loadProducts, loadProducts_begin.
  rewrite Hf, Hr. cbn [negb andb]. cbv zeta.
  unfold products_request.
  destruct (silent o); reflexivity.
Qed.

Lemma load_more_each_exhausted (outs : list Answer) :
  forall (s : State),
    hasMoreProducts s = false ->
    load_more_each outs s = (s, []).
Proof.
  induction outs as [|out outs IH]; intros s Hm; [reflexivity|].
  cbn [load_more_each]. unfold loadProducts_begin.
  rewrite Hm. cbn [reset load_more negb andb].
  destruct (isFetchingProducts s); apply IH; exact Hm.
Qed.

(** ** The loading indicator *)

Lemma loading_renderProducts (ps : list Product) (r : bool) (s : State) :
  loading (dom (renderProducts ps r s)) = loading (dom s).
Proof.
  unfold renderProducts.
  destruct ((length ps =? 0)%nat && r); [reflexivity|].
  destruct r; reflexivity.
Qed.

Lemma loading_success (o : LoadOptions) (payload : ProductsPayload Product)
    (incoming : list Product) (s : State) :
  loading (dom (loadProducts_success o payload incoming s)) = loading (dom s).
Proof.
  unfold loadProducts_success.
  cbn [hasMoreProducts persistProductsToCache set_pendingSnapshots
       updateProductsTitle set_dom].
  match goal with
  | |- context [renderProducts ?ps ?r ?x] =>
      pose proof (loading_renderProducts ps r x) as Hl;
      rewrite (renderProducts_dom ps r x) in *
  end.
  cbn in *.
  destruct (has_more payload); [exact Hl|].
  match goal with
  | |- context [if ?b then _ else _] => destruct b; exact Hl
  end.
Qed.

Lemma loading_failure (o : LoadOptions) (s : State) :
  loading (dom (loadProducts_failure o s)) = loading (dom s).
Proof.
  unfold loadProducts_failure.
  destruct (reset o); [|reflexivity].
  destruct (cached_products (localStorage s)) as [cached|]; [|reflexivity].
  cbn. rewrite loading_renderProducts. reflexivity.
Qed.

(** ** The parameters of a request *)

Lemma products_request_params (s : State) :
  products_request s =
  GetProductsLazy (nextOffset s) (productPageSize s)
    (q_of (trim (currentQuery s))) (category_of (currentCategory s)).
Proof.
  unfold products_request, q_of, category_of.
  destruct (trim (currentQuery s) =? "");
    destruct (currentCategory s =? ""), (currentCategory s =? "all");
    reflexivity.
Qed.

Lemma fetch_products_params (s : State) (net : Network Product CartItem)
    (off : nat) :
  fetch_products net off (productPageSize s)
    (if negb (trim (currentQuery s) =? "") then Some (trim (currentQuery s))
     else None)
    (if negb (currentCategory s =? "") && negb (currentCategory s =? "all")
     then Some (currentCategory s) else None) =
  fetch_products net off (productPageSize s)
    (q_of (trim (currentQuery s))) (category_of (currentCategory s)).
Proof.
  unfold q_of, category_of.
  destruct (trim (currentQuery s) =? "");
    destruct (currentCategory s =? ""), (currentCategory s =? "all");
    reflexivity.
Qed.

(** A reset load from an idle state, whatever the filter and the cursor
    are. *)
Lemma reload_from_zero (s : State) (net : Network Product CartItem) :
  isFetchingProducts s = false ->
  snd (loadProducts s reload_silently net) =
    [GetProductsLazy 0 (productPageSize s)
       (q_of (trim (currentQuery s))) (category_of (currentCategory s))] /\
  (forall incoming,
      received (fetch_products net 0 (productPageSize s)
                  (q_of (trim (currentQuery s)))
                  (category_of (currentCategory s))) = Some incoming ->
      products (fst (loadProducts s reload_silently net)) = incoming /\
      nextOffset (fst (loadProducts s reload_silently net)) = length incoming).
Proof.
  intros Hf.
  rewrite (loadProducts_reset s reload_silently net Hf eq_refl).
  cbn [fst snd]. rewrite fetch_products_params.
  split; [rewrite (products_request_params (set_nextOffset 0 s)); reflexivity|].
  intros incoming Hin.
  destruct (loadProducts_reset_page s reload_silently _ incoming Hf eq_refl Hin)
    as [_ [Hn [Hp _]]].
  split; assumption.
Qed.

(** X11: an incremental load that fails keeps what is loaded: the
    product list and the cursor are as before, [hasMoreProducts] is
    false and the page shows the error status; and from then on
    incremental loads send nothing, whatever the network would answer. *)
Theorem failed_load_more_keeps_the_list :
  forall (s : State) (net : Network Product CartItem),
    isFetchingProducts s = false ->
    hasMoreProducts s = true ->
    (forall off lim q c, received (fetch_products net off lim q c) = None) ->
    products (fst (loadProducts s load_more net)) = products s /\
    nextOffset (fst (loadProducts s load_more net)) = nextOffset s /\
    hasMoreProducts (fst (loadProducts s load_more net)) = false /\
    isFetchingProducts (fst (loadProducts s load_more net)) = false /\
    load_status (dom (fst (loadProducts s load_more net))) = Some StatusNoMore /\
    (forall net',
        loadProducts (fst (loadProducts s load_more net)) load_more net' =
        (fst (loadProducts s load_more net), [])).
Proof.
  intros s net Hf Hm Hnet.
  rewrite (loadProducts_more s net Hf Hm). cbn [fst].
  rewrite loadProducts_settle_failed by apply Hnet.
  cbn. repeat split.
Qed.

(** X12: after a page that says there is no more, incremental loads
    send nothing: however often the sentinel comes into view, the state
    stays as that page left it. *)
Theorem no_request_after_the_last_page :
  forall (s : State) (out : Answer) (incoming : list Product)
         (outs : list Answer),
    isFetchingProducts s = false ->
    hasMoreProducts s = true ->
    received out = Some incoming ->
    more_after out = false ->
    snd (load_more_each [out] s) = [products_request s] /\
    products (fst (load_more_each [out] s)) = products s ++ incoming /\
    load_more_each outs (fst (load_more_each [out] s)) =
      (fst (load_more_each [out] s), []).
Proof.
  intros s out incoming outs Hf Hm Hr Hlast.
  cbn [load_more_each]. rewrite (loadProducts_begin_sends s Hf Hm).
  cbn [fst snd].
  destruct (loadProducts_settle_page
              (setProductsLoadStatus StatusLoadingMore
                 (set_isFetchingProducts true s)) out incoming Hr)
    as [_ [Hp [Hh _]]].
  split; [reflexivity|]. split; [exact Hp|].
  apply load_more_each_exhausted. rewrite Hh. exact Hlast.
Qed.

(** X13: a call of [loadProducts] that starts with nothing in flight
    and the loading indicator off ends the same way, whatever its
    arguments and whatever the network does: no failure leaves the flag
    set or the indicator on. *)
Theorem loadProducts_ends_idle :
  forall (s : State) (o : LoadOptions) (net : Network Product CartItem),
    isFetchingProducts s = false ->
    loading (dom s) = false ->
    isFetchingProducts (fst (loadProducts s o net)) = false /\
    loading (dom (fst (loadProducts s o net))) = false.
Proof.
  intros s o net Hf Hl. unfold loadProducts, loadProducts_begin.
  rewrite Hf.
  destruct (negb (reset o) && negb (hasMoreProducts s));
    [split; assumption|].
  cbv zeta. unfold products_request. cbn [fst snd].
  split; [apply loadProducts_settle_clears_flag|].
  unfold loadProducts_settle.
  destruct (silent o) eqn:Hs; cbn [negb]; [|reflexivity].
  cbn [set_isFetchingProducts dom].
  match goal with
  | |- loading (dom (match ?out with _ => _ end)) = _ =>
      destruct out as [|ok [payload|]];
      [|destruct (items payload); [destruct ok|]|]
  end;
    rewrite ?loading_success, ?loading_failure;
    destruct (reset o); exact Hl.
Qed.


(** X15: changing the filter while a load is in flight changes the
    filter only: no request is sent and the list and the cursor stay;
    and when the load in flight, an incremental one, then brings its
    page, the page is appended to the list of the former filter. *)
Theorem filter_change_in_flight_does_not_reload :
  forall (s : State) (fc : FilterChange) (net : Network Product CartItem),
    isFetchingProducts s = true ->
    snd (change_filter s fc net) = [] /\
    currentQuery (fst (change_filter s fc net)) = query_after s fc /\
    currentCategory (fst (change_filter s fc net)) = category_after s fc /\
    products (fst (change_filter s fc net)) = products s /\
    nextOffset (fst (change_filter s fc net)) = nextOffset s /\
    (forall out incoming,
        received out = Some incoming ->
        products (loadProducts_settle load_more out (fst (change_filter s fc net)))
          = products s ++ incoming /\
        currentQuery (loadProducts_settle load_more out
                        (fst (change_filter s fc net))) = query_after s fc).
Proof.
  intros s fc net Hf.
  assert (Hdrop : forall x : State,
             isFetchingProducts x = true ->
             loadProducts x reload_silently net = (x, [])).
  { intros x Hx. unfold loadProducts, loadProducts_begin. rewrite Hx.
    reflexivity. }
  assert (Hsettle : forall (x : State) out incoming,
             received out = Some incoming ->
             products (loadProducts_settle load_more out x) =
               products x ++ incoming /\
             currentQuery (loadProducts_settle load_more out x) = currentQuery x).
  { intros x out incoming Hr.
    destruct (loadProducts_settle_page x out incoming Hr)
      as [_ [Hp [_ [_ [_ [Hq _]]]]]].
    split; assumption. }
  destruct fc as [query|category| |value];
    cbn [change_filter query_after category_after];
    unfold searchProducts, filterByCategory, showAllProducts, onSearchInput.
  - rewrite Hdrop by exact Hf. cbn [fst snd].
    repeat (split; [reflexivity|]).
    intros out incoming Hr. exact (Hsettle _ out incoming Hr).
  - rewrite Hdrop by exact Hf. cbn [fst snd].
    repeat (split; [reflexivity|]).
    intros out incoming Hr. exact (Hsettle _ out incoming Hr).
  - rewrite Hdrop by exact Hf. cbn [fst snd].
    repeat (split; [reflexivity|]).
    intros out incoming Hr. exact (Hsettle _ out incoming Hr).
  - unfold searchProducts.
    destruct (trim value =? "") eqn:E; cbn [negb];
      rewrite Hdrop by exact Hf; cbn [fst snd].
    + apply String.eqb_eq in E. rewrite E.
      repeat (split; [reflexivity|]).
      intros out incoming Hr. exact (Hsettle _ out incoming Hr).
    + repeat (split; [reflexivity|]).
      intros out incoming Hr. exact (Hsettle _ out incoming Hr).
Qed.

(** X16: the snapshot round trip.  Once the callback that
    [persistProductsToCache] scheduled has run, a reset load that fails
    brings back the product list of that moment, with its length as the
    total count and nothing more to load. *)
Theorem snapshot_restores_the_list :
  forall (s : State) (o : LoadOptions) (net : Network Product CartItem),
    isFetchingProducts s = false ->
    reset o = true ->
    (forall off lim q c, received (fetch_products net off lim q c) = None) ->
    products (fst (loadProducts (saveSnapshot (persistProductsToCache s)) o net))
      = products s /\
    catalogTotalCount
      (fst (loadProducts (saveSnapshot (persistProductsToCache s)) o net))
      = Z.of_nat (length (products s)) /\
    hasMoreProducts
      (fst (loadProducts (saveSnapshot (persistProductsToCache s)) o net))
      = false.
Proof.
  intros s o net Hf Hr Hnet.
  rewrite loadProducts_reset by (try exact Hr; exact Hf).
  cbn [fst].
  rewrite loadProducts_settle_failed by apply Hnet.
  unfold loadProducts_failure, loadProducts_begin. rewrite Hr.
  cbn [saveSnapshot persistProductsToCache set_pendingSnapshots
       pendingSnapshots isFetchingProducts set_localStorage].
  rewrite Hf. cbn [negb andb fst].
  destruct (silent o); cbn; rewrite renderProducts_dom; cbn; repeat split.
Qed.

(** ** The page and the list *)

Lemma cards_of_app (g1 g2 : list (GridChild Product)) :
  cards_of (g1 ++ g2) = cards_of g1 ++ cards_of g2.
Proof.
  induction g1 as [|[|p] g1 IH]; cbn [cards_of app]; [reflexivity|exact IH|].
  rewrite IH. reflexivity.
Qed.

Lemma cards_of_map_Card (ps : list Product) :
  cards_of (map (@Card Product) ps) = ps.
Proof.
  induction ps as [|p ps IH]; cbn [cards_of map]; [reflexivity|].
  rewrite IH. reflexivity.
Qed.

Lemma cards_of_renderProducts (ps : list Product) (r : bool) (s : State) :
  cards_of (grid (dom (renderProducts ps r s))) =
  if r then ps else cards_of (grid (dom s)) ++ ps.
Proof.
  unfold renderProducts.
  destruct ps as [|p ps]; destruct r; cbn [length Nat.eqb andb];
    cbn [set_grid set_dom dom grid];
    rewrite ?cards_of_app, ?cards_of_map_Card; reflexivity.
Qed.

Lemma renderProducts_list (ps : list Product) (r : bool) (s : State) :
  products (renderProducts ps r s) = products s /\
  nextOffset (renderProducts ps r s) = nextOffset s /\
  hasMoreProducts (renderProducts ps r s) = hasMoreProducts s.
Proof.
  rewrite renderProducts_dom. repeat split.
Qed.

Lemma success_page (o : LoadOptions) (payload : ProductsPayload Product)
    (incoming : list Product) (s : State) :
  products (loadProducts_success o payload incoming s) =
    (if reset o then incoming else products s ++ incoming) /\
  nextOffset (loadProducts_success o payload incoming s) =
    nextOffset s + length incoming /\
  hasMoreProducts (loadProducts_success o payload incoming s) =
    has_more payload /\
  cards_of (grid (dom (loadProducts_success o payload incoming s))) =
    (if reset o then incoming else cards_of (grid (dom s)) ++ incoming).
Proof.
  unfold loadProducts_success. cbv zeta.
  match goal with
  | |- context [if hasMoreProducts ?x then _ else _] =>
      destruct (hasMoreProducts x)
  end;
    [|match goal with
      | |- context [if (length ?l =? 0)%nat then _ else _] =>
          destruct (length l =? 0)%nat
      end];
    cbn [products nextOffset hasMoreProducts dom grid setProductsLoadStatus
         set_dom persistProductsToCache set_pendingSnapshots
         updateProductsTitle];
    rewrite cards_of_renderProducts;
    match goal with
    | |- context [renderProducts ?ps ?r ?x] =>
        destruct (renderProducts_list ps r x) as [Hp [Hn Hm]];
        rewrite Hp, Hn, Hm
    end;
    repeat split.
Qed.

Lemma failure_page (o : LoadOptions) (s : State) :
  page_consistent s -> page_consistent (loadProducts_failure o s).
Proof.
  intros [Hg Hn]. unfold loadProducts_failure, page_consistent.
  destruct (reset o).
  - destruct (cached_products (localStorage s)) as [cached|].
    + cbv zeta.
      cbn [setProductsLoadStatus updateProductsTitle set_dom dom grid
           products hasMoreProducts nextOffset].
      rewrite cards_of_renderProducts.
      match goal with
      | |- context [renderProducts ?ps ?r ?x] =>
          destruct (renderProducts_list ps r x) as [Hp' [_ Hm']];
          rewrite Hp', Hm'
      end.
      split; [reflexivity|discriminate].
    + split; [exact Hg|exact Hn].
  - split; [exact Hg|]. cbn. discriminate.
Qed.

(** The state in which a call waits agrees with the list; a reset has
    emptied both, and a call that asks for more has seen that more is
    expected. *)
Lemma begin_page (s : State) (o : LoadOptions) (r : ApiRequest) :
  page_consistent s ->
  snd (loadProducts_begin s o) = Some r ->
  page_consistent (fst (loadProducts_begin s o)) /\
  (if reset o
   then products (fst (loadProducts_begin s o)) = [] /\
        nextOffset (fst (loadProducts_begin s o)) = 0
   else hasMoreProducts (fst (loadProducts_begin s o)) = true).
Proof.
  intros [Hg Hn]. unfold loadProducts_begin, page_consistent.
  destruct (isFetchingProducts s); [discriminate|].
  destruct (reset o) eqn:Hr; cbn [negb andb].
  - intros _. cbv zeta. destruct (silent o); cbn; repeat split.
  - destruct (hasMoreProducts s) eqn:Hm; cbn [negb]; [|discriminate].
    intros _. cbv zeta.
    destruct (silent o); cbn; rewrite Hm;
      (split; [split; [exact Hg|exact Hn]|reflexivity]).
Qed.

Lemma settle_page (o : LoadOptions) (out : Answer) (s : State) :
  page_consistent s ->
  (if reset o then products s = [] /\ nextOffset s = 0
   else hasMoreProducts s = true) ->
  page_consistent (loadProducts_settle o out s).
Proof.
  intros Hs Hb.
  assert (Hok : forall payload incoming,
             page_consistent (loadProducts_success o payload incoming s)).
  { intros payload incoming.
    destruct (success_page o payload incoming s) as [Hp [Hn [_ Hg]]].
    destruct Hs as [Hsg Hsn]. unfold page_consistent.
    rewrite Hp, Hn, Hg.
    destruct (reset o).
    - destruct Hb as [_ Hz]. rewrite Hz. split; [reflexivity|].
      intros _. reflexivity.
    - rewrite Hsg, length_app, (Hsn Hb). split; [reflexivity|].
      intros _. reflexivity. }
  pose proof (failure_page o s Hs) as Hfail.
  unfold loadProducts_settle.
  destruct out as [|ok [payload|]];
    [|destruct (items payload) as [incoming|]; [destruct ok|]|];
    destruct (negb (silent o)); try exact Hfail; apply Hok.
Qed.

Lemma loadProducts_page (s : State) (o : LoadOptions)
    (net : Network Product CartItem) :
  page_consistent s -> page_consistent (fst (loadProducts s o net)).
Proof.
  intros Hs. unfold loadProducts.
  destruct (loadProducts_begin s o) as [s1 [r|]] eqn:Hb.
  - destruct (begin_page s o r Hs) as [H1 H2]; [rewrite Hb; reflexivity|].
    rewrite Hb in H1, H2. cbn [fst] in H1, H2.
    destruct r; cbn [fst]; try exact H1.
    apply settle_page; assumption.
  - cbn [fst].
    unfold loadProducts_begin in Hb.
    destruct (isFetchingProducts s);
      [injection Hb as <-; exact Hs|].
    destruct (negb (reset o) && negb (hasMoreProducts s));
      [injection Hb as <-; exact Hs|discriminate Hb].
Qed.

Lemma load_more_each_page (outs : list Answer) :
  forall (s : State),
    page_consistent s -> page_consistent (fst (load_more_each outs s)).
Proof.
  induction outs as [|out outs IH]; intros s Hs; [exact Hs|].
  cbn [load_more_each].
  destruct (loadProducts_begin s load_more) as [s1 [r|]] eqn:Hb.
  - destruct (begin_page s load_more r Hs) as [H1 H2]; [rewrite Hb; reflexivity|].
    rewrite Hb in H1, H2. cbn [fst reset load_more] in H1, H2.
    specialize (IH (loadProducts_settle load_more out s1)
                  (settle_page load_more out s1 H1 H2)).
    destruct (load_more_each outs (loadProducts_settle load_more out s1)).
    exact IH.
  - apply IH.
    unfold loadProducts_begin in Hb.
    destruct (isFetchingProducts s);
      [injection Hb as <-; exact Hs|].
    destruct (negb (reset load_more) && negb (hasMoreProducts s));
      [injection Hb as <-; exact Hs|discriminate Hb].
Qed.


End Catalog.

Section Cart.

Context {Product CartItem : Type} {lines : CartLine CartItem}.

Local Abbreviation State := (POSSystem Product CartItem).

(** ** Cart mutations, one case at a time *)

Ltac mutation_cases m net s :=
  destruct m as [productId qty|productId newQuantity|productId|];
  cbn [mutate request_of answer_to needs_http_ok] in *;
  unfold updateCartQuantity, addToCart, removeFromCart, clearCart;
  try destruct (newQuantity <=? 0)%Z;
  match goal with
  | |- context [match ?out with Rejected => _ | Resolved _ _ => _ end] =>
      destruct out as [|[|] [r|]]
  end;
  cbn [reports_success http_ok mutation_failed needs_http_ok andb negb orb] in *;
  try discriminate;
  try match goal with
      | res : MutationResult _ |- _ =>
          destruct (success res); cbn [andb negb orb] in *; try discriminate
      end.

Lemma loadCart_localStorage (net : Network Product CartItem) (s : State) :
  localStorage (fst (loadCart net s)) = localStorage s.
Proof.
  unfold loadCart, loadCart_fallback.
  destruct (fetch_cart net) as [|[|] [c|]];
    try destruct (stored_cart (localStorage s)); reflexivity.
Qed.

(** A mutation that the server confirms: the state after it, by whether
    the page renders the new cart. *)
Lemma confirmed_mutation_state (s : State) (m : Mutation)
    (net : Network Product CartItem) (result : MutationResult CartItem) :
  reports_success (answer_to net m) = Some result ->
  (needs_http_ok m = true -> http_ok (answer_to net m) = true) ->
  exists s1 : State,
    catalog_side s1 = catalog_side s /\
    lastOrder s1 = lastOrder s /\
    localStorage s1 = localStorage s /\
    cart (fst (mutate s m net)) = cart s1 /\
    catalog_side (fst (mutate s m net)) = catalog_side s1 /\
    lastOrder (fst (mutate s m net)) = lastOrder s1 /\
    (if renders m (cart s1)
     then localStorage (fst (mutate s m net)) =
          {| cached_products := cached_products (localStorage s1);
             stored_cart := Some (cart s1) |}
     else localStorage (fst (mutate s m net)) = localStorage s1).
Proof.
  intros Hs Hok.
  assert (Hload : catalog_side (fst (loadCart net s)) = catalog_side s /\
                  lastOrder (fst (loadCart net s)) = lastOrder s /\
                  localStorage (fst (loadCart net s)) = localStorage s).
  { split; [|split; [|apply loadCart_localStorage]];
      unfold loadCart, loadCart_fallback;
      destruct (fetch_cart net) as [|[|] [c|]];
      try destruct (stored_cart (localStorage s)); reflexivity. }
  destruct Hload as [Hl1 [Hl2 Hl3]].
  destruct m as [productId qty|productId newQuantity|productId|];
    cbn [mutate request_of answer_to needs_http_ok renders] in *;
    unfold updateCartQuantity, addToCart, removeFromCart, clearCart;
    try destruct (newQuantity <=? 0)%Z;
    match goal with
    | |- context [match ?out with Rejected => _ | Resolved _ _ => _ end] =>
        destruct out as [|ok [r|]]
    end;
    try discriminate Hs;
    cbn [reports_success http_ok] in *;
    match goal with
    | res : MutationResult _ |- _ => destruct (success res)
    end;
    try discriminate Hs;
    injection Hs as ->;
    try rewrite (Hok eq_refl);
    cbn [negb orb];
    destruct (result_cart result) as [c|];
    try (destruct (loadCart net s) as [s1 t]; cbn [fst snd] in *);
    match goal with
    | |- context [fst (if updateCartCount_returns (cart ?x) then _ else _)] =>
        exists x; destruct (updateCartCount_returns (cart x))
    | |- context [fst (if updateCartCount_returns (cart ?x) && ?b
                       then _ else _)] =>
        exists x; destruct (updateCartCount_returns (cart x) && b)
    end;
    repeat (split; [first [reflexivity|assumption]|]);
    first [reflexivity|assumption].
Qed.

Lemma mutation_is_mirrored (s : State) (m : Mutation)
    (net : Network Product CartItem) (result : MutationResult CartItem) :
  reports_success (answer_to net m) = Some result ->
  (needs_http_ok m = true -> http_ok (answer_to net m) = true) ->
  renders m (cart (fst (mutate s m net))) = true ->
  stored_cart (localStorage (fst (mutate s m net))) =
  Some (cart (fst (mutate s m net))).
Proof.
  intros Hs Hok Hr.
  destruct (confirmed_mutation_state s m net result Hs Hok)
    as [s1 [_ [_ [_ [Hc [_ [_ Hst]]]]]]].
  rewrite Hc in *. rewrite Hr in Hst. rewrite Hst. reflexivity.
Qed.

Lemma mutation_fails (s : State) (m : Mutation)
    (net : Network Product CartItem) :
  mutation_failed m (answer_to net m) = true ->
  exists text,
    mutate s m net = (showNotification text "error" s, [request_of m]).
Proof.
  intros H. unfold mutation_failed in H.
  mutation_cases m net s; eexists; reflexivity.
Qed.

(** X17: a cart mutation whose answer does not report success (the
    fetch rejects, the body does not parse, [success] is false, or, for
    update, remove and clear, the status is not OK) changes nothing but
    the notification, which is an error: the cart and the local storage
    are as before, and one request was sent. *)
Theorem failed_mutation_changes_nothing :
  forall (s : State) (m : Mutation) (net : Network Product CartItem),
    mutation_failed m (answer_to net m) = true ->
    exists text,
      mutate s m net = (showNotification text "error" s, [request_of m]).
Proof.
  intros s m net H. unfold mutation_failed in H.
  mutation_cases m net s; eexists; reflexivity.
Qed.



(** X20: a checkout that the server does not confirm (a fetch that
    rejects, a body that does not parse, [success] false), and just so a
    checkout that is refused before it is sent, changes nothing but the
    notification, which is an error: the cart, the order kept for the
    invoice and the local storage are as before, and at most one
    request was sent. *)
Theorem unconfirmed_checkout_changes_nothing :
  forall (s : State) (f : CheckoutForm) (now : string)
         (net : Network Product CartItem),
    (forall order, checkout_confirmed (post_checkout net order) = false) ->
    (exists text,
        fst (checkout s f now net) = showNotification text "error" s) /\
    length (snd (checkout s f now net)) <= 1.
Proof.
  intros s f now net Hnet. unfold checkout.
  destruct (length (cart s) =? 0)%nat;
    [split; [eexists; reflexivity|cbn; lia]|].
  cbv zeta.
  match goal with
  | |- context [if ?g then _ else _] =>
      destruct g; [split; [eexists; reflexivity|cbn; lia]|]
  end.
  match goal with
  | |- context [post_checkout net ?order] =>
      specialize (Hnet order); destruct (post_checkout net order) as [|ok [r|]]
  end;
    cbn [checkout_confirmed] in Hnet; try rewrite Hnet;
    (split; [eexists; reflexivity|cbn; lia]).
Qed.

(** ** What the two halves of the state leave to each other *)

Lemma loadProducts_settle_frame (o : LoadOptions)
    (out : Outcome (ProductsPayload Product)) (s : State) :
  cart (loadProducts_settle o out s) = cart s /\
  lastOrder (loadProducts_settle o out s) = lastOrder s /\
  localStorage (loadProducts_settle o out s) = localStorage s.
Proof.
  assert (Hfail : cart (loadProducts_failure o s) = cart s /\
                  lastOrder (loadProducts_failure o s) = lastOrder s /\
                  localStorage (loadProducts_failure o s) = localStorage s).
  { unfold loadProducts_failure.
    destruct (reset o); [|repeat split].
    destruct (cached_products (localStorage s)) as [cached|]; [|repeat split].
    rewrite renderProducts_dom. repeat split. }
  assert (Hok : forall payload incoming,
             cart (loadProducts_success o payload incoming s) = cart s /\
             lastOrder (loadProducts_success o payload incoming s) = lastOrder s /\
             localStorage (loadProducts_success o payload incoming s) =
             localStorage s).
  { intros payload incoming. unfold loadProducts_success.
    rewrite renderProducts_dom. cbn.
    destruct (has_more payload); [repeat split|].
    match goal with
    | |- context [if ?b then _ else _] => destruct b; repeat split
    end. }
  unfold loadProducts_settle.
  destruct out as [|ok [payload|]].
  - destruct (negb (silent o)); exact Hfail.
  - destruct (items payload) as [incoming|]; [destruct ok|];
      destruct (negb (silent o)); try exact Hfail; apply Hok.
  - destruct (negb (silent o)); exact Hfail.
Qed.

Lemma loadCart_frame (net : Network Product CartItem) (s : State) :
  catalog_side (fst (loadCart net s)) = catalog_side s /\
  lastOrder (fst (loadCart net s)) = lastOrder s.
Proof.
  unfold loadCart, loadCart_fallback.
  destruct (fetch_cart net) as [|[|] [c|]];
    try destruct (stored_cart (localStorage s)); split; reflexivity.
Qed.

(** X21: the catalogue and the cart do not reach into each other.  A
    call of [loadProducts] leaves the cart, the order kept for the
    invoice and the whole local storage as they are (the snapshot is
    written by the scheduled callback only); a cart mutation leaves the
    product list, the total count, the filter, the cursor, the flags,
    the snapshot and the order kept for the invoice as they are. *)
Theorem catalogue_and_cart_are_independent :
  forall (s : State) (net : Network Product CartItem),
    (forall o,
        cart_side (fst (loadProducts s o net)) = cart_side s /\
        localStorage (fst (loadProducts s o net)) = localStorage s) /\
    (forall m,
        catalog_side (fst (mutate s m net)) = catalog_side s /\
        lastOrder (fst (mutate s m net)) = lastOrder s).
Proof.
  intros s net. split.
  - intros o. unfold loadProducts, loadProducts_begin.
    destruct (isFetchingProducts s); [split; reflexivity|].
    destruct (negb (reset o) && negb (hasMoreProducts s));
      [split; reflexivity|].
    cbv zeta. unfold products_request. cbn [fst].
    match goal with
    | |- context [loadProducts_settle o ?out ?x] =>
        destruct (loadProducts_settle_frame o out x) as [Hc [Ho Hl]];
        assert (Hx : cart x = cart s /\ lastOrder x = lastOrder s /\
                     localStorage x = localStorage s)
          by (destruct (silent o), (reset o); repeat split);
        destruct Hx as [Hxc [Hxo Hxl]]
    end.
    unfold cart_side. rewrite Hc, Ho, Hl, Hxc, Hxo, Hxl. split; reflexivity.
  - intros m.
    destruct (reports_success (answer_to net m)) as [result|] eqn:Hs.
    + destruct (needs_http_ok m && negb (http_ok (answer_to net m))) eqn:Hok.
      * assert (Hf : mutation_failed m (answer_to net m) = true)
          by (unfold mutation_failed; rewrite Hs; exact Hok).
        destruct (mutation_fails s m net Hf) as [text ->].
        split; reflexivity.
      * assert (Hok' : needs_http_ok m = true ->
                       http_ok (answer_to net m) = true).
        { intros Hn. rewrite Hn in Hok. cbn [andb] in Hok.
          apply negb_false_iff in Hok. exact Hok. }
        destruct (confirmed_mutation_state s m net result Hs Hok')
          as [s1 [H1 [H2 [_ [_ [H3 [H4 _]]]]]]].
        rewrite H3, H4, H1, H2. split; reflexivity.
    + assert (Hf : mutation_failed m (answer_to net m) = true)
        by (unfold mutation_failed; rewrite Hs; reflexivity).
      destruct (mutation_fails s m net Hf) as [text ->].
      split; reflexivity.
Qed.

(** ** Sending the invoice *)

Lemma trimStart_idempotent (n : nat) :
  forall t : string, String.length t <= n -> trimStart (trimStart t) = trimStart t.
Proof.
  induction n as [|n IH]; intros t Hn.
  - destruct t; [reflexivity|cbn [String.length] in Hn; lia].
  - destruct t as [|c [|d [|e t3]]]; [reflexivity| | |].
    + cbn [trimStart]. destruct (is_space c) eqn:Ec; [reflexivity|].
      cbn [trimStart]. rewrite Ec. reflexivity.
    + cbn [trimStart]. destruct (is_space c) eqn:Ec.
      { destruct (is_space d) eqn:Ed; [reflexivity|].
        cbn [trimStart]. rewrite Ed. reflexivity. }
      destruct (is_space2 c d) eqn:E2; [reflexivity|].
      cbn [trimStart]. rewrite Ec, E2. reflexivity.
    + cbn [String.length] in Hn.
      change (trimStart (String c (String d (String e t3)))) with
        (if is_space c then trimStart (String d (String e t3))
         else if is_space2 c d then trimStart (String e t3)
         else if is_space3 c d e then trimStart t3
         else String c (String d (String e t3))).
      destruct (is_space c) eqn:Ec;
        [apply IH; cbn [String.length]; lia|].
      destruct (is_space2 c d) eqn:E2;
        [apply IH; cbn [String.length]; lia|].
      destruct (is_space3 c d e) eqn:E3; [apply IH; lia|].
      cbn [trimStart]. rewrite Ec, E2, E3. reflexivity.
Qed.

Lemma trim_empty (t : string) : (trim t =? "") = all_space t.
Proof.
  unfold trim, all_space.
  pose proof (trimStart_idempotent (String.length t) t (le_n _)) as Hi.
  destruct (trimStart t) as [|c u]; [reflexivity|].
  cbn [trimEnd]. rewrite Hi. reflexivity.
Qed.

(** X23: sending the invoice by mail.  An address of white space only
    (the empty one too; the white space is that of the language, the
    no-break space and the like included) sends nothing and gives the
    error that an address is required.  Any other address sends one request, with the
    address, the subject and the message trimmed and with the order
    kept for the invoice; the notification is a success when the server
    reports that the message was sent, and an error otherwise.  Nothing
    but the notification changes. *)
Theorem emailInvoice_sends_one_trimmed_request :
  forall (s : State) (f : EmailForm)
         (send : EmailRequest CartItem -> Outcome EmailResult),
    (all_space (email_address f) = true ->
     emailInvoice s f send =
       (showNotification (Msg "Email address is required") "error" s, [])) /\
    (all_space (email_address f) = false ->
     exists text,
       emailInvoice s f send =
       (showNotification text
          (if email_accepted
                (send {| req_email := trim (email_address f);
                         req_subject := trim (email_subject f);
                         req_message := trim (email_message f);
                         req_order_data := lastOrder s |})
           then "success" else "error") s,
        [{| req_email := trim (email_address f);
            req_subject := trim (email_subject f);
            req_message := trim (email_message f);
            req_order_data := lastOrder s |}])).
Proof.
  intros s f send. unfold emailInvoice. cbv zeta.
  rewrite trim_empty.
  split; intros Ha; rewrite Ha; [reflexivity|].
  match goal with
  | |- context [send ?r] => destruct (send r) as [|ok [result|]]
  end; cbn [email_accepted]; try (eexists; reflexivity).
  destruct (email_success result); eexists; reflexivity.
Qed.

End Cart.

(** An address that is a no-break space: nothing is sent. *)
Example emailInvoice_with_a_blank_address :
  emailInvoice with_cart
    {| email_address := nbsp; email_subject := "Invoice";
       email_message := "" |} accepting =
  (showNotification (Msg "Email address is required") "error" with_cart, []).
Proof. reflexivity. Qed.

Example trim_knows_the_white_space_of_the_language :
  trim (nbsp ++ " serum" ++ line_separator ++ nbsp) = "serum" /\
  trim (String (ascii_of_nat 195) (String (ascii_of_nat 160) " ")) =
    String (ascii_of_nat 195) (String (ascii_of_nat 160) "").
Proof. split; reflexivity. Qed.

Lemma failed_load_more_keeps_the_list_witness :
  hasMoreProducts (fst (load_more_each [page_of eight_a 42 true] fresh)) = true /\
  products (fst (loadProducts
                   (fst (load_more_each [page_of eight_a 42 true] fresh))
                   load_more unreachable)) = eight_a /\
  nextOffset (fst (loadProducts
                     (fst (load_more_each [page_of eight_a 42 true] fresh))
                     load_more unreachable)) = 8.
Proof.
  destruct (failed_load_more_keeps_the_list
              (fst (load_more_each [page_of eight_a 42 true] fresh)) unreachable
              eq_refl eq_refl (fun _ _ _ _ => eq_refl)) as [Hp [Hn _]].
  split; [reflexivity|]. split; [exact Hp|exact Hn].
Defined.

Lemma no_request_after_the_last_page_witness :
  more_after (page_of eight_a 8 false) = false /\
  load_more_each [page_of eight_b 8 true; page_of eight_b 8 true]
    (fst (load_more_each [page_of eight_a 8 false] fresh)) =
  (fst (load_more_each [page_of eight_a 8 false] fresh), []).
Proof.
  split; [reflexivity|].
  exact (proj2 (proj2 (no_request_after_the_last_page fresh
                         (page_of eight_a 8 false) eight_a
                         [page_of eight_b 8 true; page_of eight_b 8 true]
                         eq_refl eq_refl eq_refl eq_refl))).
Defined.

Lemma loadProducts_ends_idle_witness :
  loading (dom fresh) = false /\
  isFetchingProducts
    (fst (loadProducts fresh {| reset := true; silent := false |} unreachable))
    = false /\
  loading (dom
    (fst (loadProducts fresh {| reset := true; silent := false |} unreachable)))
    = false.
Proof.
  split; [reflexivity|].
  exact (loadProducts_ends_idle fresh {| reset := true; silent := false |}
           unreachable eq_refl eq_refl).
Defined.


(** A search field that holds a no-break space only, while the second
    page is on its way: the query becomes empty, nothing is sent, and
    the page that arrives is appended. *)
Lemma filter_change_in_flight_does_not_reload_witness :
  isFetchingProducts scrolling = true /\
  snd (change_filter scrolling (SearchInput nbsp) unreachable) = [] /\
  currentQuery (fst (change_filter scrolling (SearchInput nbsp) unreachable))
    = "" /\
  products (loadProducts_settle load_more (page_of eight_b 42 true)
              (fst (change_filter scrolling (SearchInput nbsp) unreachable)))
    = (eight_a ++ eight_b)%list.
Proof.
  destruct (filter_change_in_flight_does_not_reload scrolling (SearchInput nbsp)
              unreachable eq_refl) as [Ht [Hc [_ [_ [_ Hs]]]]].
  split; [reflexivity|]. split; [exact Ht|]. split; [exact Hc|].
  exact (proj1 (Hs (page_of eight_b 42 true) eight_b eq_refl)).
Defined.

Lemma snapshot_restores_the_list_witness :
  products (fst (loadProducts
    (saveSnapshot (persistProductsToCache
       (fst (load_more_each [page_of eight_a 42 true] fresh))))
    {| reset := true; silent := true |} unreachable)) = eight_a.
Proof.
  exact (proj1 (snapshot_restores_the_list
                  (fst (load_more_each [page_of eight_a 42 true] fresh))
                  {| reset := true; silent := true |} unreachable
                  eq_refl eq_refl (fun _ _ _ _ => eq_refl))).
Defined.

Lemma failed_mutation_changes_nothing_witness :
  mutation_failed (Update "p-1" 3) (answer_to unreachable (Update "p-1" 3))
    = true /\
  exists text,
    mutate with_cart (Update "p-1" 3) unreachable =
    (showNotification text "error" with_cart, [PostCartUpdate "p-1" 3]).
Proof.
  split; [reflexivity|].
  exact (failed_mutation_changes_nothing with_cart (Update "p-1" 3)
           unreachable eq_refl).
Defined.



Lemma unconfirmed_checkout_changes_nothing_witness :
  (forall order,
      checkout_confirmed (post_checkout unreachable order) = false) /\
  (exists text,
      fst (checkout with_cart paid_form "2026-01-01T00:00:00.000Z" unreachable)
      = showNotification text "error" with_cart) /\
  length (snd (checkout with_cart paid_form "2026-01-01T00:00:00.000Z"
                 unreachable)) <= 1.
Proof.
  split; [intros order; reflexivity|].
  exact (unconfirmed_checkout_changes_nothing with_cart paid_form
           "2026-01-01T00:00:00.000Z" unreachable (fun _ => eq_refl)).
Defined.


End POSExtra.

(** * Properties of the helpers of the client *)

Module POSHelpers.
Import POS POSSpec POSMore POSMoreSpec POSTheory.

(** ** Comparisons of binary64 numbers *)

Lemma SFcompare_antisym (x y : spec_float) :
  SFcompare y x = option_map CompOpp (SFcompare x y).
Proof.
  destruct x as [sx|sx| |sx mx ex], y as [sy|sy| |sy my ey];
    try destruct sx; try destruct sy; try reflexivity; cbn;
    rewrite (Z.compare_antisym ex ey); destruct (ex ?= ey)%Z; cbn;
    try reflexivity;
    change Eq with (CompOpp Eq) at 1;
    rewrite <- Pos.compare_cont_antisym; cbn;
    try rewrite CompOpp_involutive; reflexivity.
Qed.

Lemma is_nan_Prim2SF (x : float) :
  PrimFloat.is_nan x = true <-> Prim2SF x = S754_nan.
Proof.
  unfold PrimFloat.is_nan. rewrite negb_true_iff, FloatAxioms.eqb_spec.
  unfold SFeqb. split.
  - destruct (Prim2SF x) as [s|s| |s m e]; try destruct s; cbn;
      try discriminate; try reflexivity;
      rewrite Z.compare_refl, Pos.compare_cont_refl; discriminate.
  - intros ->. reflexivity.
Qed.

Lemma compare_self (x : float) :
  PrimFloat.is_nan x = false ->
  SFcompare (Prim2SF x) (Prim2SF x) = Some Eq.
Proof.
  unfold PrimFloat.is_nan. intros H. apply negb_false_iff in H.
  rewrite FloatAxioms.eqb_spec in H. unfold SFeqb in H.
  destruct (SFcompare (Prim2SF x) (Prim2SF x)) as [[]|]; congruence.
Qed.

Lemma compare_defined (x y : float) :
  PrimFloat.is_nan x = false -> PrimFloat.is_nan y = false ->
  exists c, SFcompare (Prim2SF x) (Prim2SF y) = Some c.
Proof.
  intros Hx Hy. apply compare_self in Hx, Hy.
  destruct (Prim2SF x) as [sx|sx| |sx mx ex], (Prim2SF y) as [sy|sy| |sy my ey];
    try discriminate; cbn; eexists; reflexivity.
Qed.

Lemma leb_of_ltb (x y : float) :
  PrimFloat.ltb x y = true -> PrimFloat.leb x y = true.
Proof.
  rewrite ltb_spec, leb_spec. unfold SFltb, SFleb.
  destruct (SFcompare (Prim2SF x) (Prim2SF y)) as [[]|]; congruence.
Qed.

Lemma leb_refl (x : float) :
  PrimFloat.is_nan x = false -> PrimFloat.leb x x = true.
Proof.
  intros H. rewrite leb_spec. unfold SFleb.
  rewrite (compare_self x H). reflexivity.
Qed.

Lemma leb_of_not_ltb (x y : float) :
  PrimFloat.is_nan x = false -> PrimFloat.is_nan y = false ->
  PrimFloat.ltb x y = false -> PrimFloat.leb y x = true.
Proof.
  intros Hx Hy. destruct (compare_defined x y Hx Hy) as [c Hc].
  rewrite ltb_spec, leb_spec. unfold SFltb, SFleb.
  rewrite (SFcompare_antisym (Prim2SF x) (Prim2SF y)), Hc.
  destruct c; cbn; congruence.
Qed.

(** ** Math.max and Math.min *)

Lemma Math_max_cases (a b : float) :
  PrimFloat.is_nan a = false -> PrimFloat.is_nan b = false ->
  (Math_max a b = a \/ Math_max a b = b) /\
  PrimFloat.leb a (Math_max a b) = true /\
  PrimFloat.leb b (Math_max a b) = true.
Proof.
  intros Ha Hb. unfold Math_max. rewrite Ha, Hb. cbn [orb].
  destruct (PrimFloat.ltb a b) eqn:E1.
  { split; [right; reflexivity|].
    split; [apply leb_of_ltb; exact E1|apply leb_refl; exact Hb]. }
  destruct (PrimFloat.ltb b a) eqn:E2.
  { split; [left; reflexivity|].
    split; [apply leb_refl; exact Ha|apply leb_of_ltb; exact E2]. }
  destruct (PrimFloat.is_zero a && PrimFloat.get_sign a).
  - split; [right; reflexivity|].
    split; [apply (leb_of_not_ltb b a Hb Ha E2)|apply leb_refl; exact Hb].
  - split; [left; reflexivity|].
    split; [apply leb_refl; exact Ha|apply (leb_of_not_ltb a b Ha Hb E1)].
Qed.

Lemma Math_min_cases (a b : float) :
  PrimFloat.is_nan a = false -> PrimFloat.is_nan b = false ->
  (Math_min a b = a \/ Math_min a b = b) /\
  PrimFloat.leb (Math_min a b) a = true /\
  PrimFloat.leb (Math_min a b) b = true.
Proof.
  intros Ha Hb. unfold Math_min. rewrite Ha, Hb. cbn [orb].
  destruct (PrimFloat.ltb a b) eqn:E1.
  { split; [left; reflexivity|].
    split; [apply leb_refl; exact Ha|apply leb_of_ltb; exact E1]. }
  destruct (PrimFloat.ltb b a) eqn:E2.
  { split; [right; reflexivity|].
    split; [apply leb_of_ltb; exact E2|apply leb_refl; exact Hb]. }
  destruct (PrimFloat.is_zero a && PrimFloat.get_sign a).
  - split; [left; reflexivity|].
    split; [apply leb_refl; exact Ha|apply (leb_of_not_ltb b a Hb Ha E2)].
  - split; [right; reflexivity|].
    split; [apply (leb_of_not_ltb a b Ha Hb E1)|apply leb_refl; exact Hb].
Qed.

Lemma Math_max_nan (a b : float) :
  PrimFloat.is_nan (Math_max a b) = PrimFloat.is_nan a || PrimFloat.is_nan b.
Proof.
  destruct (PrimFloat.is_nan a) eqn:Ha;
    [unfold Math_max; rewrite Ha; reflexivity|].
  destruct (PrimFloat.is_nan b) eqn:Hb;
    [unfold Math_max; rewrite Ha, Hb; reflexivity|].
  destruct (Math_max_cases a b Ha Hb) as [[-> | ->] _]; cbn [orb]; assumption.
Qed.

Lemma Math_min_nan (a b : float) :
  PrimFloat.is_nan (Math_min a b) = PrimFloat.is_nan a || PrimFloat.is_nan b.
Proof.
  destruct (PrimFloat.is_nan a) eqn:Ha;
    [unfold Math_min; rewrite Ha; reflexivity|].
  destruct (PrimFloat.is_nan b) eqn:Hb;
    [unfold Math_min; rewrite Ha, Hb; reflexivity|].
  destruct (Math_min_cases a b Ha Hb) as [[-> | ->] _]; cbn [orb]; assumption.
Qed.

Lemma add_nan (x y : float) :
  PrimFloat.is_nan x = true -> PrimFloat.is_nan (PrimFloat.add x y) = true.
Proof.
  intros Hx. apply is_nan_Prim2SF. apply is_nan_Prim2SF in Hx.
  rewrite add_spec, Hx. reflexivity.
Qed.

(** X24: the buttons of the quantity field.  When the maximum of the
    field and the sum of its value and the step are numbers, the number
    written back is at least 1, and it is at most the maximum when the
    maximum is at least 1. *)
Theorem changeQuantity_stays_in_range :
  forall (max currentValue change : float),
    PrimFloat.is_nan max = false ->
    PrimFloat.is_nan (PrimFloat.add currentValue change) = false ->
    PrimFloat.leb 1%float (changeQuantity max currentValue change) = true /\
    (PrimFloat.leb 1%float max = true ->
     in_range max (changeQuantity max currentValue change)).
Proof.
  intros max currentValue change Hm Hs. unfold changeQuantity.
  set (sum := PrimFloat.add currentValue change) in *.
  assert (Hmin : PrimFloat.is_nan (Math_min max sum) = false)
    by (rewrite Math_min_nan, Hm, Hs; reflexivity).
  destruct (Math_max_cases 1%float (Math_min max sum) eq_refl Hmin)
    as [Hc [Hl _]].
  split; [exact Hl|].
  intros H1. split; [exact Hl|].
  destruct Hc as [-> | ->]; [exact H1|].
  apply (Math_min_cases max sum Hm Hs).
Qed.

(** X25: a quantity field whose text is not a number.  [parseInt] gives
    [NaN] then, and [NaN] is what is written back to the field: the
    limits 1 and [max] do not repair it. *)
Theorem changeQuantity_keeps_NaN :
  forall (max currentValue change : float),
    PrimFloat.is_nan currentValue = true ->
    PrimFloat.is_nan (changeQuantity max currentValue change) = true.
Proof.
  intros max currentValue change H. unfold changeQuantity.
  rewrite Math_max_nan, Math_min_nan, (add_nan currentValue change H).
  rewrite orb_true_r. reflexivity.
Qed.

(** X26: the total on the checkout form.  Whatever the three fields
    hold (text that is not a number, infinities, a discount above the
    subtotal), the total that [updateTotals] hands to be shown is a
    number and is not below zero. *)
Theorem shown_total_is_a_number_not_below_zero :
  forall (f : CheckoutForm),
    PrimFloat.is_nan (shown_total (updateTotals f)) = false /\
    PrimFloat.leb 0%float (shown_total (updateTotals f)) = true.
Proof.
  intros f. unfold updateTotals. cbn [shown_total].
  unfold setCheckoutTotal, finalTotal.
  match goal with
  | |- context [Math_max 0%float ?x] => set (y := x)
  end.
  unfold or_zero.
  destruct (PrimFloat.is_nan (Math_max 0%float y)) eqn:En; cbn [orb];
    [split; reflexivity|].
  destruct (PrimFloat.eqb (Math_max 0%float y) 0%float);
    [split; reflexivity|].
  split; [exact En|].
  rewrite Math_max_nan in En. cbn [orb] in En.
  change (PrimFloat.is_nan 0%float) with false in En. cbn [orb] in En.
  apply (Math_max_cases 0%float y eq_refl En).
Qed.

(** ** escapeJsString *)

Lemma escapeJsString_cons (a : ascii) (s : string) :
  escapeJsString (Text (String a s)) =
  (js_escape_char a ++ escapeJsString (Text s))%string.
Proof.
  unfold escapeJsString, js_escape_char. cbn [String_of replace_all].
  destruct (Ascii.eqb a "\") eqn:E1.
  { rewrite replace_all_app. reflexivity. }
  cbn [replace_all].
  destruct (Ascii.eqb a "'"); reflexivity.
Qed.

Lemma literal_value_escape (a : ascii) (rest : string) :
  line_terminator a = false ->
  literal_value (js_escape_char a ++ rest) =
  option_map (String a) (literal_value rest).
Proof.
  intros Hl. unfold js_escape_char.
  destruct (Ascii.eqb a "\") eqn:E1.
  { apply Ascii.eqb_eq in E1. subst a. reflexivity. }
  destruct (Ascii.eqb a "'") eqn:E2.
  { apply Ascii.eqb_eq in E2. subst a. reflexivity. }
  cbn [append literal_value]. rewrite E1, E2, Hl. reflexivity.
Qed.

(** X27: [escapeJsString] and the reading of a literal are a round
    trip.  For a value without line feed and carriage return, the
    result, put between apostrophes, is read back as the text of the
    value: no apostrophe of the value ends the literal, and no
    backslash of the value takes the character after it. *)
Theorem escapeJsString_is_read_back :
  forall (value : Value),
    has_line_terminator (String_of value) = false ->
    literal_value (escapeJsString value) = Some (String_of value).
Proof.
  intros [|s]; [reflexivity|].
  cbn [String_of].
  induction s as [|a s IH]; [reflexivity|].
  cbn [has_line_terminator]. intros H.
  apply orb_false_iff in H. destruct H as [Ha Hs].
  rewrite escapeJsString_cons, (literal_value_escape _ _ Ha), (IH Hs).
  reflexivity.
Qed.

(** ** The name of the downloaded invoice *)

Lemma safe_unit (u : N) :
  is_file_char (if is_file_char u then u else 95%N) = true.
Proof. destruct (is_file_char u) eqn:E; [exact E|reflexivity]. Qed.

Lemma safe_unit_fixed (u : N) :
  is_file_char u = true -> (if is_file_char u then u else 95%N) = u.
Proof. intros ->. reflexivity. Qed.

(** X28: the file name of the downloaded invoice.  Every code unit of
    [safeInvoiceFile] is a letter, a digit, [_] or [-]; the name is
    never empty; a name that is safe already is left as it is (the
    function applied twice gives what it gives once); and an invoice
    number that is not empty keeps its length. *)
Theorem safeInvoiceFile_is_safe :
  forall (invoice_number : CodeUnits),
    forallb is_file_char (safeInvoiceFile invoice_number) = true /\
    safeInvoiceFile invoice_number <> [] /\
    safeInvoiceFile (safeInvoiceFile invoice_number) =
      safeInvoiceFile invoice_number /\
    (invoice_number <> [] ->
     length (safeInvoiceFile invoice_number) = length invoice_number).
Proof.
  intros n.
  assert (Hall : forall l,
             forallb is_file_char
               (map (fun u => if is_file_char u then u else 95%N) l) = true).
  { induction l as [|u l IH]; [reflexivity|].
    cbn [map forallb]. rewrite safe_unit, IH. reflexivity. }
  assert (Hfix : forall l,
             forallb is_file_char l = true ->
             map (fun u => if is_file_char u then u else 95%N) l = l).
  { induction l as [|u l IH]; [reflexivity|].
    cbn [map forallb]. intros H. apply andb_true_iff in H.
    destruct H as [Hu Hl]. rewrite (safe_unit_fixed u Hu), (IH Hl).
    reflexivity. }
  split; [apply Hall|].
  split; [destruct n; discriminate|].
  split.
  - unfold safeInvoiceFile at 1.
    assert (Hne : safeInvoiceFile n <> []) by (destruct n; discriminate).
    destruct (safeInvoiceFile n) as [|u l] eqn:E; [contradiction|].
    apply Hfix. rewrite <- E. apply Hall.
  - intros Hn. destruct n as [|u l]; [contradiction|].
    unfold safeInvoiceFile. apply length_map.
Qed.

(** ** The reload on a new worker *)

Lemma reloads_after_the_first (events : nat) : reloads events true = 0.
Proof.
  induction events as [|n IH]; [reflexivity|].
  cbn [reloads onControllerChange]. exact IH.
Qed.

(** X29: the page reloads once for a new worker.  However many
    [controllerchange] events arrive, [window.location.reload] is
    called at the first of them and at no other. *)
Theorem one_reload_for_a_new_worker :
  forall (events : nat),
    reloads events false = Nat.min events 1 /\
    reloads events true = 0.
Proof.
  intros events. split; [|apply reloads_after_the_first].
  destruct events as [|n]; [reflexivity|].
  cbn [reloads onControllerChange]. rewrite reloads_after_the_first.
  destruct n; reflexivity.
Qed.

(** ** The invoice number *)

Lemma split_on_plain (c : ascii) (b : string) :
  contains_char c b = false -> split_on c b = [b].
Proof.
  induction b as [|a b IH]; [reflexivity|].
  cbn [contains_char split_on]. intros H.
  apply orb_false_iff in H. destruct H as [Ha Hb].
  rewrite Ha, (IH Hb). reflexivity.
Qed.

Lemma split_on_parts (c : ascii) (p : string) :
  exists h t, split_on c p = h :: t.
Proof.
  induction p as [|a p [h [t IH]]]; [eexists; eexists; reflexivity|].
  cbn [split_on]. destruct (Ascii.eqb a c); [eexists; eexists; reflexivity|].
  rewrite IH. eexists; eexists; reflexivity.
Qed.

Lemma split_on_app (c : ascii) (p rest : string) :
  split_on c (p ++ String c rest) = split_on c p ++ split_on c rest.
Proof.
  induction p as [|a p IH].
  - cbn [append split_on app]. rewrite Ascii.eqb_refl. reflexivity.
  - cbn [append split_on]. destruct (Ascii.eqb a c).
    + rewrite IH. reflexivity.
    + rewrite IH. destruct (split_on_parts c p) as [h [t ->]]. reflexivity.
Qed.

Lemma slice_last_two {A : Type} (l : list A) (x y : A) :
  slice_last 2 (l ++ [x; y]) = [x; y].
Proof.
  unfold slice_last. rewrite length_app. cbn [length].
  replace (length l + 2 - 2) with (length l + 0) by lia.
  rewrite skipn_app, Nat.add_0_r, skipn_all.
  replace (length l - length l) with 0 by lia. reflexivity.
Qed.

(** X30: the invoice number is [INV-] and the last two of the parts
    that the dashes of the order id separate: an id without a dash and
    an id with one dash are kept whole, and of a longer id everything
    before the last two parts is dropped. *)
Theorem invoice_number_keeps_the_last_two_parts :
  forall (b c : string),
    contains_char "-" b = false ->
    contains_char "-" c = false ->
    invoice_number_of b = ("INV-" ++ b)%string /\
    invoice_number_of (b ++ "-" ++ c) = ("INV-" ++ b ++ "-" ++ c)%string /\
    (forall p : string,
        invoice_number_of (p ++ "-" ++ b ++ "-" ++ c) =
        ("INV-" ++ b ++ "-" ++ c)%string).
Proof.
  intros b c Hb Hc. unfold invoice_number_of.
  split; [|split].
  - rewrite (split_on_plain _ b Hb). reflexivity.
  - change (b ++ "-" ++ c)%string with (b ++ String "-" c)%string.
    rewrite split_on_app, (split_on_plain _ b Hb), (split_on_plain _ c Hc).
    reflexivity.
  - intros p.
    change (p ++ "-" ++ b ++ "-" ++ c)%string
      with (p ++ String "-" (b ++ String "-" c))%string.
    rewrite !split_on_app, (split_on_plain _ b Hb), (split_on_plain _ c Hc).
    change ([b] ++ [c]) with [b; c].
    rewrite slice_last_two. reflexivity.
Qed.

Lemma changeQuantity_stays_in_range_witness :
  changeQuantity 5%float 5%float 1%float = 5%float /\
  in_range 5%float (changeQuantity 5%float 5%float 1%float).
Proof.
  split; [reflexivity|].
  exact (proj2 (changeQuantity_stays_in_range 5%float 5%float 1%float
                  eq_refl eq_refl) eq_refl).
Defined.

Lemma changeQuantity_keeps_NaN_witness :
  PrimFloat.is_nan (changeQuantity 5%float PrimFloat.nan 1%float) = true.
Proof.
  exact (changeQuantity_keeps_NaN 5%float PrimFloat.nan 1%float eq_refl).
Defined.

Lemma escapeJsString_is_read_back_witness :
  escapeJsString (Text "it's a\b") = "it\'s a\\b" /\
  literal_value (escapeJsString (Text "it's a\b")) = Some "it's a\b".
Proof.
  split; [reflexivity|].
  exact (escapeJsString_is_read_back (Text "it's a\b") eq_refl).
Defined.

Lemma invoice_number_keeps_the_last_two_parts_witness :
  invoice_number_of "ORD-20260101-0007" = "INV-20260101-0007".
Proof.
  exact (proj2 (proj2 (invoice_number_keeps_the_last_two_parts
                         "20260101" "0007" eq_refl eq_refl)) "ORD").
Defined.

End POSHelpers.
